(** * Solar-AI: the simulation and anomaly engine, and the chat history repair

    A shallow embedding of the solar plant simulation (the main script) and of
    the conversation-history handling of [AIAssistant] (ai-assistant.js).

    Conventions of the embedding.
    - A JavaScript [Date] is the number of milliseconds it holds, a [Z], read
      as local time: [getHours] and [getMinutes] are taken from it directly.
    - JavaScript numbers that hold measurements (health, percentages,
      temperature, random draws) are exact rationals [Q]; the generation
      figures go through [Math.sin] and are reals [R].  Rounding of IEEE
      doubles is not modelled.
    - [Math.random()] reads the next value of a stream carried by the state;
      [new Date()] and [Date.now()] are the argument [now] of the handler in
      which they occur.  The stream is the one the simulation logic sees: the
      draws that the canvas rendering makes for its flicker effect change
      nothing in the state and are left out, as is the rest of the DOM.
    - Template strings are kept as the data they interpolate: an equipment
      id [`${prefix}-${i}`] is the pair of its prefix and index, a location
      and a log message are constructors carrying their numbers. *)

From Stdlib Require Import ZArith QArith Qminmax Qround Reals Qreals.
From Stdlib Require Import List Bool String Lia Lra Permutation.
From Stdlib Require Lqa.
Import ListNotations.

Set Implicit Arguments.

(* ================================================================== *)
(** * Part I: definitions                                              *)
(* ================================================================== *)

(** ** ai-assistant.js: the conversation history *)

Module AIAssistant.

Local Open Scope string_scope.
Local Open Scope list_scope.

Record Message := mkMessage { role : string; content : string }.

(** The body of the [for (const msg of this.conversationHistory)] loop of
    [validateConversationHistory]; [fixed] grows at its end. *)
Fixpoint validateLoop (history : list Message) (expectedRole : string)
         (fixed : list Message) : list Message :=
  match history with
  | [] => fixed
  | msg :: rest =>
      if String.eqb (role msg) expectedRole then
        validateLoop rest
          (if String.eqb expectedRole "user" then "assistant" else "user")
          (fixed ++ [msg])
      else if String.eqb (role msg) "user"
              && String.eqb expectedRole "assistant" then
        validateLoop rest "assistant"
          (fixed ++ [mkMessage "assistant" "I understand."; msg])
      else if String.eqb (role msg) "assistant"
              && String.eqb expectedRole "user" then
        validateLoop rest expectedRole fixed
      else
        validateLoop rest expectedRole fixed
  end.

(** [fixed[fixed.length - 1]] *)
Definition lastMessage (l : list Message) : option Message :=
  nth_error l (List.length l - 1)%nat.

Definition validateConversationHistory (history : list Message)
  : list Message :=
  match history with
  | [] => history
  | _ =>
      let fixed := validateLoop history "user" [] in
      match lastMessage fixed with
      | Some m =>
          if String.eqb (role m) "user" then
            fixed ++ [mkMessage "assistant" "I understand. Please continue."]
          else fixed
      | None => fixed
      end
  end.

(** [array.slice(-n)] *)
Definition sliceLast (n : nat) (l : list Message) : list Message :=
  skipn (List.length l - n)%nat l.

(** What the two network requests of [sendMessage] can come to. *)
Inductive Exchange :=
| ServerUnavailable            (* checkConnection() is false *)
| RequestFailed (err : string) (* fetch throws or the answer is not ok *)
| Answered (assistantMessage : string).

Inductive Reply :=
| ReplyError (err : string)
| ReplyMessage (message : string).

(** The request body built before the call. *)
Definition requestMessages (systemPrompt : option string)
           (history : list Message) (prompt : string) : list Message :=
  (match systemPrompt with
   | Some s => if String.eqb s "" then [] else [mkMessage "system" s]
   | None => []
   end) ++ history ++ [mkMessage "user" prompt].

(** [sendMessage]: the reply and the stored history afterwards. *)
Definition sendMessage (prompt : string) (x : Exchange)
           (history : list Message) : Reply * list Message :=
  match x with
  | ServerUnavailable =>
      (ReplyError "LLM server not available. Please ensure it is running on http://127.0.0.1:1234",
       history)
  | RequestFailed err =>
      (ReplyError ("Failed to communicate with LLM: " ++ err)%string,
       validateConversationHistory history)
  | Answered assistantMessage =>
      let h1 := validateConversationHistory history in
      let h2 := h1 ++ [mkMessage "user" prompt] in
      let h3 := h2 ++ [mkMessage "assistant" assistantMessage] in
      (ReplyMessage assistantMessage,
       if (25 <? List.length h3)%nat then sliceLast 25 h3 else h3)
  end.

(** The role sequence user, assistant, user, assistant, ... ([k] pairs). *)
Fixpoint alternation (k : nat) : list string :=
  match k with
  | O => []
  | S k' => "user" :: "assistant" :: alternation k'
  end.

(** What [fixed] looks like while [expectedRole] is the given role. *)
Definition loopInvariant (expectedRole : string) (fixed : list Message)
  : Prop :=
  (expectedRole = "user" /\ exists k, map role fixed = alternation k) \/
  (expectedRole = "assistant" /\
   exists k, map role fixed = alternation k ++ ["user"]).

End AIAssistant.

(** ** The main script: data *)

(** Equipment ids are [`${prefix}-${i}`]. *)
Inductive EquipPrefix := Panel | Inverter | Battery | Transformer.

Record EquipId := mkEquipId { prefix : EquipPrefix; index : Z }.

Definition prefix_eqb (p q : EquipPrefix) : bool :=
  match p, q with
  | Panel, Panel | Inverter, Inverter
  | Battery, Battery | Transformer, Transformer => true
  | _, _ => false
  end.

Definition equipId_eqb (a b : EquipId) : bool :=
  prefix_eqb (prefix a) (prefix b) && Z.eqb (index a) (index b).

Inductive Status := healthy | degraded | faulty.

Module Equipment.
Record t := mk {
  name : EquipId;          (* [`${prefix} ${i}`] *)
  health : Q;
  status : Status;
  issues : list string;
  anomaly : option Z       (* undefined / null / an anomaly id *)
}.
End Equipment.

Inductive AnomalyType :=
| PanelFault | DustAccumulation | DustStorm | InverterOverload | CloudCover.

Inductive Severity := info | warning | critical.

Inductive Location :=
| Section_ (n : Z)                 (* [`Section ${n}`] *)
| SectionCell (row col : Z)        (* [`Section ${row}-${col}`] *)
| EntireFacility
| InverterNo (n : Z)               (* [`Inverter ${n}`] *)
| Regional
| MultipleSections.

Inductive Resolver := ByUser | ByAutoTimeout.

Module Anomaly.
Record t := mk {
  id : Z;
  type : AnomalyType;
  name : string;
  location : Location;
  impact : Q;                    (* the number in ['15%'] *)
  severity : Severity;
  timestamp : Z;
  active : bool;
  escalationLevel : Z;
  lastEscalation : Z;
  affectedEquipment : option (list EquipId);
  resolvedAt : option Z;
  resolvedBy : option Resolver;
  causedBy : option AnomalyType
}.
End Anomaly.

Record Env := mkEnv {
  temperature : R;
  dustLevel : R;
  cloudCover : R;
  humidity : R
}.

Record Overrides := mkOverrides {
  dustOverride : option R;         (* anomalyOverrides.dustLevel *)
  cloudOverride : option R         (* anomalyOverrides.cloudCover *)
}.

Inductive LogType :=
| LogInfo | LogSystem | LogControl | LogAnomaly | LogResolution
| LogEscalation
| LogAlert (s : Severity).         (* [`alert-${severity}`] *)

Inductive Message :=
| Text (s : string)
| SystemInitializedAt (time : Z)
| InitializedWithSimulationTime (hours minutes : Z)
| TimeAdvanced (hours minutes : Z)
| AnomalyGeneratedAt (name : string) (loc : Location)
| AnomalyGenerated (name : string)
| EnvironmentalCleared (name : string)
| EnvironmentalClearedAfter200 (name : string)
| AutoCorrectedTimeout (name : string)
| AutoCorrectedAfter200 (name : string)
| EnvironmentalOngoing (name : string) (minutes : Z)
| Escalation (name : string) (minutes : Z)
| CriticalEscalation (name : string)
| MaximumEscalation (name : string) (minutes : Z)
| AnomalyEscalated (name : string) (level : Z)
| AnomalyCorrected (name : string)
| ManuallyCorrected (name : string)
| AutoGeneratedAlert (ty : AnomalyType) (equipment : EquipId) (health : Q)
| AutoGeneratedLog (ty : AnomalyType) (equipment : EquipId) (health : Q)
| DustDetectedAfterStorm (panels : nat)
| DustGeneratedAfterStorm (panels : nat).

Record LogEntry := mkLog {
  logTimestamp : Z;
  logMessage : Message;
  logType : LogType
}.

(** One child of the [alert-list] element. *)
Record AlertItem := mkAlert {
  alertTime : Z * Z;               (* hours, minutes *)
  alertMessage : Message;
  alertSeverity : Severity
}.

(** The global [state], with the two things the handlers reach outside of
    it: the children of the alert list and the stream behind
    [Math.random()]. *)
Record State := mkState {
  simulationTime : option Z;
  capacity : R;
  currentGeneration : R;
  dailyCumulative : R;
  lastUpdateTime : Z;
  environmentalFactors : Env;
  manualEnvironmentControl : bool;
  simulatedEnvironmentalFactors : Env;
  anomalyOverrides : Overrides;
  anomalies : list Anomaly.t;
  equipmentHealth : list (EquipId * Equipment.t);
  logs : list LogEntry;
  alertList : list AlertItem;
  randoms : nat -> Q;
  drawn : nat
}.

(** ** Assignments to the fields of [state] *)

Definition setSimulationTime (v : option Z) (s : State) : State :=
  mkState v
          (capacity s)
          (currentGeneration s)
          (dailyCumulative s)
          (lastUpdateTime s)
          (environmentalFactors s)
          (manualEnvironmentControl s)
          (simulatedEnvironmentalFactors s)
          (anomalyOverrides s)
          (anomalies s)
          (equipmentHealth s)
          (logs s)
          (alertList s)
          (randoms s)
          (drawn s).

Definition setCurrentGeneration (v : R) (s : State) : State :=
  mkState (simulationTime s)
          (capacity s)
          v
          (dailyCumulative s)
          (lastUpdateTime s)
          (environmentalFactors s)
          (manualEnvironmentControl s)
          (simulatedEnvironmentalFactors s)
          (anomalyOverrides s)
          (anomalies s)
          (equipmentHealth s)
          (logs s)
          (alertList s)
          (randoms s)
          (drawn s).

Definition setDailyCumulative (v : R) (s : State) : State :=
  mkState (simulationTime s)
          (capacity s)
          (currentGeneration s)
          v
          (lastUpdateTime s)
          (environmentalFactors s)
          (manualEnvironmentControl s)
          (simulatedEnvironmentalFactors s)
          (anomalyOverrides s)
          (anomalies s)
          (equipmentHealth s)
          (logs s)
          (alertList s)
          (randoms s)
          (drawn s).

Definition setLastUpdateTime (v : Z) (s : State) : State :=
  mkState (simulationTime s)
          (capacity s)
          (currentGeneration s)
          (dailyCumulative s)
          v
          (environmentalFactors s)
          (manualEnvironmentControl s)
          (simulatedEnvironmentalFactors s)
          (anomalyOverrides s)
          (anomalies s)
          (equipmentHealth s)
          (logs s)
          (alertList s)
          (randoms s)
          (drawn s).

Definition setEnvironmentalFactors (v : Env) (s : State) : State :=
  mkState (simulationTime s)
          (capacity s)
          (currentGeneration s)
          (dailyCumulative s)
          (lastUpdateTime s)
          v
          (manualEnvironmentControl s)
          (simulatedEnvironmentalFactors s)
          (anomalyOverrides s)
          (anomalies s)
          (equipmentHealth s)
          (logs s)
          (alertList s)
          (randoms s)
          (drawn s).

Definition setManualEnvironmentControl (v : bool) (s : State) : State :=
  mkState (simulationTime s)
          (capacity s)
          (currentGeneration s)
          (dailyCumulative s)
          (lastUpdateTime s)
          (environmentalFactors s)
          v
          (simulatedEnvironmentalFactors s)
          (anomalyOverrides s)
          (anomalies s)
          (equipmentHealth s)
          (logs s)
          (alertList s)
          (randoms s)
          (drawn s).

Definition setSimulatedEnvironmentalFactors (v : Env) (s : State) : State :=
  mkState (simulationTime s)
          (capacity s)
          (currentGeneration s)
          (dailyCumulative s)
          (lastUpdateTime s)
          (environmentalFactors s)
          (manualEnvironmentControl s)
          v
          (anomalyOverrides s)
          (anomalies s)
          (equipmentHealth s)
          (logs s)
          (alertList s)
          (randoms s)
          (drawn s).

Definition setAnomalyOverrides (v : Overrides) (s : State) : State :=
  mkState (simulationTime s)
          (capacity s)
          (currentGeneration s)
          (dailyCumulative s)
          (lastUpdateTime s)
          (environmentalFactors s)
          (manualEnvironmentControl s)
          (simulatedEnvironmentalFactors s)
          v
          (anomalies s)
          (equipmentHealth s)
          (logs s)
          (alertList s)
          (randoms s)
          (drawn s).

Definition setAnomalies (v : list Anomaly.t) (s : State) : State :=
  mkState (simulationTime s)
          (capacity s)
          (currentGeneration s)
          (dailyCumulative s)
          (lastUpdateTime s)
          (environmentalFactors s)
          (manualEnvironmentControl s)
          (simulatedEnvironmentalFactors s)
          (anomalyOverrides s)
          v
          (equipmentHealth s)
          (logs s)
          (alertList s)
          (randoms s)
          (drawn s).

Definition setEquipmentHealth (v : list (EquipId * Equipment.t)) (s : State) : State :=
  mkState (simulationTime s)
          (capacity s)
          (currentGeneration s)
          (dailyCumulative s)
          (lastUpdateTime s)
          (environmentalFactors s)
          (manualEnvironmentControl s)
          (simulatedEnvironmentalFactors s)
          (anomalyOverrides s)
          (anomalies s)
          v
          (logs s)
          (alertList s)
          (randoms s)
          (drawn s).

Definition setLogs (v : list LogEntry) (s : State) : State :=
  mkState (simulationTime s)
          (capacity s)
          (currentGeneration s)
          (dailyCumulative s)
          (lastUpdateTime s)
          (environmentalFactors s)
          (manualEnvironmentControl s)
          (simulatedEnvironmentalFactors s)
          (anomalyOverrides s)
          (anomalies s)
          (equipmentHealth s)
          v
          (alertList s)
          (randoms s)
          (drawn s).

Definition setAlertList (v : list AlertItem) (s : State) : State :=
  mkState (simulationTime s)
          (capacity s)
          (currentGeneration s)
          (dailyCumulative s)
          (lastUpdateTime s)
          (environmentalFactors s)
          (manualEnvironmentControl s)
          (simulatedEnvironmentalFactors s)
          (anomalyOverrides s)
          (anomalies s)
          (equipmentHealth s)
          (logs s)
          v
          (randoms s)
          (drawn s).

Definition setDrawn (v : nat) (s : State) : State :=
  mkState (simulationTime s)
          (capacity s)
          (currentGeneration s)
          (dailyCumulative s)
          (lastUpdateTime s)
          (environmentalFactors s)
          (manualEnvironmentControl s)
          (simulatedEnvironmentalFactors s)
          (anomalyOverrides s)
          (anomalies s)
          (equipmentHealth s)
          (logs s)
          (alertList s)
          (randoms s)
          v.

(** ** Time, logging, alerts and random draws *)

Definition getHours (t : Z) : Z := ((t / 3600000) mod 24)%Z.
Definition getMinutes (t : Z) : Z := ((t / 60000) mod 60)%Z.

(** [state.simulationTime || new Date()] *)
Definition getCurrentTime (now : Z) (st : State) : Z :=
  match simulationTime st with
  | Some t => t
  | None => now
  end.

Definition log (now : Z) (message : Message) (ty : LogType) (st : State)
  : State :=
  setLogs (logs st ++ [mkLog now message ty]) st.

Definition addAlert (now : Z) (message : Message) (sev : Severity)
           (st : State) : State :=
  let time := getCurrentTime now st in
  let item := mkAlert (getHours time, getMinutes time) message sev in
  let st1 := setAlertList (item :: alertList st) st in
  let st2 := log now message (LogAlert sev) st1 in
  (* Keep only last 20 alerts *)
  setAlertList (firstn 20 (alertList st2)) st2.

(** [Math.random()] *)
Definition random (st : State) : Q * State :=
  (randoms st (drawn st), setDrawn (S (drawn st)) st).

(** [Math.floor(Math.random() * n)] *)
Definition randomBelow (n : Z) (st : State) : Z * State :=
  let (r, st1) := random st in
  (Qfloor (r * inject_Z n), st1).

(** ** The equipment object, keyed by id in insertion order *)

Definition EquipMap := list (EquipId * Equipment.t).

Fixpoint eqLookup (id : EquipId) (m : EquipMap) : option Equipment.t :=
  match m with
  | [] => None
  | (k, e) :: rest => if equipId_eqb k id then Some e else eqLookup id rest
  end.

(** [state.equipmentHealth[id] = e]: replaces in place or appends. *)
Fixpoint eqAssign (id : EquipId) (e : Equipment.t) (m : EquipMap) : EquipMap :=
  match m with
  | [] => [(id, e)]
  | (k, e0) :: rest =>
      if equipId_eqb k id then (k, e) :: rest
      else (k, e0) :: eqAssign id e rest
  end.

(** Assignments to fields of [state.equipmentHealth[id]], an object that
    exists wherever the handlers do so. *)
Fixpoint eqUpdate (id : EquipId) (f : Equipment.t -> Equipment.t)
         (m : EquipMap) : EquipMap :=
  match m with
  | [] => []
  | (k, e) :: rest =>
      if equipId_eqb k id then (k, f e) :: rest
      else (k, e) :: eqUpdate id f rest
  end.

Definition updateEquipment (id : EquipId) (f : Equipment.t -> Equipment.t)
           (st : State) : State :=
  setEquipmentHealth (eqUpdate id f (equipmentHealth st)) st.

(** [Object.keys(state.equipmentHealth)] *)
Definition equipmentKeys (st : State) : list EquipId :=
  map fst (equipmentHealth st).

(** [array.includes(id)] *)
Definition includes (l : list EquipId) (id : EquipId) : bool :=
  existsb (equipId_eqb id) l.

(** The anomaly objects are reached through their position in
    [state.anomalies], which only grows or is replaced whole. *)
Fixpoint updateAt (A : Type) (i : nat) (f : A -> A) (l : list A) : list A :=
  match l, i with
  | [], _ => []
  | x :: rest, O => f x :: rest
  | x :: rest, S i' => x :: updateAt i' f rest
  end.

Definition updateAnomaly (i : nat) (f : Anomaly.t -> Anomaly.t) (st : State)
  : State :=
  setAnomalies (updateAt i f (anomalies st)) st.

(** ** Assignments to the fields of an equipment or anomaly object *)

Definition withHealth (v : Q) (e : Equipment.t) : Equipment.t :=
  Equipment.mk (Equipment.name e) v (Equipment.status e) (Equipment.issues e) (Equipment.anomaly e).

Definition withStatus (v : Status) (e : Equipment.t) : Equipment.t :=
  Equipment.mk (Equipment.name e) (Equipment.health e) v (Equipment.issues e) (Equipment.anomaly e).

Definition withIssues (v : list string) (e : Equipment.t) : Equipment.t :=
  Equipment.mk (Equipment.name e) (Equipment.health e) (Equipment.status e) v (Equipment.anomaly e).

Definition withAnomalyRef (v : option Z) (e : Equipment.t) : Equipment.t :=
  Equipment.mk (Equipment.name e) (Equipment.health e) (Equipment.status e) (Equipment.issues e) v.

Definition withLocation (v : Location) (a : Anomaly.t) : Anomaly.t :=
  Anomaly.mk
    (Anomaly.id a)
    (Anomaly.type a)
    (Anomaly.name a)
    v
    (Anomaly.impact a)
    (Anomaly.severity a)
    (Anomaly.timestamp a)
    (Anomaly.active a)
    (Anomaly.escalationLevel a)
    (Anomaly.lastEscalation a)
    (Anomaly.affectedEquipment a)
    (Anomaly.resolvedAt a)
    (Anomaly.resolvedBy a)
    (Anomaly.causedBy a).

Definition withActive (v : bool) (a : Anomaly.t) : Anomaly.t :=
  Anomaly.mk
    (Anomaly.id a)
    (Anomaly.type a)
    (Anomaly.name a)
    (Anomaly.location a)
    (Anomaly.impact a)
    (Anomaly.severity a)
    (Anomaly.timestamp a)
    v
    (Anomaly.escalationLevel a)
    (Anomaly.lastEscalation a)
    (Anomaly.affectedEquipment a)
    (Anomaly.resolvedAt a)
    (Anomaly.resolvedBy a)
    (Anomaly.causedBy a).

Definition withEscalationLevel (v : Z) (a : Anomaly.t) : Anomaly.t :=
  Anomaly.mk
    (Anomaly.id a)
    (Anomaly.type a)
    (Anomaly.name a)
    (Anomaly.location a)
    (Anomaly.impact a)
    (Anomaly.severity a)
    (Anomaly.timestamp a)
    (Anomaly.active a)
    v
    (Anomaly.lastEscalation a)
    (Anomaly.affectedEquipment a)
    (Anomaly.resolvedAt a)
    (Anomaly.resolvedBy a)
    (Anomaly.causedBy a).

Definition withLastEscalation (v : Z) (a : Anomaly.t) : Anomaly.t :=
  Anomaly.mk
    (Anomaly.id a)
    (Anomaly.type a)
    (Anomaly.name a)
    (Anomaly.location a)
    (Anomaly.impact a)
    (Anomaly.severity a)
    (Anomaly.timestamp a)
    (Anomaly.active a)
    (Anomaly.escalationLevel a)
    v
    (Anomaly.affectedEquipment a)
    (Anomaly.resolvedAt a)
    (Anomaly.resolvedBy a)
    (Anomaly.causedBy a).

Definition withAffectedEquipment (v : option (list EquipId)) (a : Anomaly.t) : Anomaly.t :=
  Anomaly.mk
    (Anomaly.id a)
    (Anomaly.type a)
    (Anomaly.name a)
    (Anomaly.location a)
    (Anomaly.impact a)
    (Anomaly.severity a)
    (Anomaly.timestamp a)
    (Anomaly.active a)
    (Anomaly.escalationLevel a)
    (Anomaly.lastEscalation a)
    v
    (Anomaly.resolvedAt a)
    (Anomaly.resolvedBy a)
    (Anomaly.causedBy a).

Definition withResolvedAt (v : option Z) (a : Anomaly.t) : Anomaly.t :=
  Anomaly.mk
    (Anomaly.id a)
    (Anomaly.type a)
    (Anomaly.name a)
    (Anomaly.location a)
    (Anomaly.impact a)
    (Anomaly.severity a)
    (Anomaly.timestamp a)
    (Anomaly.active a)
    (Anomaly.escalationLevel a)
    (Anomaly.lastEscalation a)
    (Anomaly.affectedEquipment a)
    v
    (Anomaly.resolvedBy a)
    (Anomaly.causedBy a).

Definition withResolvedBy (v : option Resolver) (a : Anomaly.t) : Anomaly.t :=
  Anomaly.mk
    (Anomaly.id a)
    (Anomaly.type a)
    (Anomaly.name a)
    (Anomaly.location a)
    (Anomaly.impact a)
    (Anomaly.severity a)
    (Anomaly.timestamp a)
    (Anomaly.active a)
    (Anomaly.escalationLevel a)
    (Anomaly.lastEscalation a)
    (Anomaly.affectedEquipment a)
    (Anomaly.resolvedAt a)
    v
    (Anomaly.causedBy a).

(** ** Generation *)

(** [anomaly.type !== 'dust-storm' && anomaly.type !== 'cloud-cover'] *)
Definition nonEnvironmental (ty : AnomalyType) : bool :=
  match ty with
  | DustStorm | CloudCover => false
  | _ => true
  end.

Definition isEnvironmental (ty : AnomalyType) : bool :=
  negb (nonEnvironmental ty).

Definition effectiveDust (st : State) : R :=
  match dustOverride (anomalyOverrides st) with
  | Some d => d
  | None => dustLevel (environmentalFactors st)
  end.

Definition effectiveCloud (st : State) : R :=
  match cloudOverride (anomalyOverrides st) with
  | Some c => c
  | None => cloudCover (environmentalFactors st)
  end.

(** One round of the [forEach] that builds [anomalyFactor]; every impact
    string of the script is non-empty, hence truthy. *)
Definition applyImpact (anomalyFactor : R) (a : Anomaly.t) : R :=
  if Anomaly.active a && nonEnvironmental (Anomaly.type a) then
    let impactValue := (Q2R (Anomaly.impact a) / 100)%R in
    (anomalyFactor * (1 - impactValue))%R
  else anomalyFactor.

(** [time.getHours() + time.getMinutes() / 60] *)
Definition hourOf (time : Z) : Q :=
  (inject_Z (getHours time) + inject_Z (getMinutes time) / 60)%Q.

Definition baseGenerationAt (time : Z) (st : State) : R :=
  let hour := hourOf time in
  if Qle_bool 6 hour && Qle_bool hour 18 then
    let dayProgress := ((hour - 6) / 12)%Q in
    (sin (Q2R dayProgress * PI) * capacity st)%R
  else 0%R.

Definition calculateSolarGeneration (time : Z) (st : State) : R :=
  let baseGeneration := baseGenerationAt time st in
  let tempFactor :=
    (1 - Rmax 0 ((temperature (environmentalFactors st) - 25) * (4 / 1000)))%R in
  let dustFactor := (1 - (effectiveDust st / 100) * (3 / 10))%R in
  let cloudFactor := (1 - (effectiveCloud st / 100) * (5 / 10))%R in
  let anomalyFactor := fold_left applyImpact (anomalies st) 1%R in
  (baseGeneration * tempFactor * dustFactor * cloudFactor * anomalyFactor)%R.

Definition midnightCrossing (lastHour currentHour : Z) : bool :=
  (lastHour =? 23)%Z && (currentHour =? 0)%Z.

Definition updateSimulation (now : Z) (st : State) : State :=
  let currentTime := getCurrentTime now st in
  let st1 := setCurrentGeneration (calculateSolarGeneration currentTime st) st in
  let lastHour := getHours (lastUpdateTime st1) in
  let currentHour := getHours currentTime in
  let st2 :=
    if midnightCrossing lastHour currentHour then
      addAlert now (Text "Midnight - Daily cumulative reset") info
               (setDailyCumulative 0%R st1)
    else
      let timeDiff := (IZR (currentTime - lastUpdateTime st1) / 3600000)%R in
      setDailyCumulative
        (dailyCumulative st1 + currentGeneration st1 * timeDiff)%R st1 in
  setLastUpdateTime currentTime st2.

(** The callback of the one-second interval of [startSimulation]. *)
Definition tick (now : Z) (st : State) : State :=
  match simulationTime st with
  | None => updateSimulation now st
  | Some t => updateSimulation now (setSimulationTime (Some (t + 1000)%Z) st)
  end.

(** ** Initialisation and the time controls *)

Definition freshEquipment (id : EquipId) (r : Q) : Equipment.t :=
  Equipment.mk id (95 + r * 5)%Q healthy [] None.

(** The inner [for (let i = 1; i <= type.count; i++)] of
    [initializeEquipment], counting [todo] more units from [i]. *)
Fixpoint initializeUnits (p : EquipPrefix) (i : Z) (todo : nat) (st : State)
  : State :=
  match todo with
  | O => st
  | S todo' =>
      let id := mkEquipId p i in
      let (r, st1) := random st in
      let st2 :=
        setEquipmentHealth
          (eqAssign id (freshEquipment id r) (equipmentHealth st1)) st1 in
      initializeUnits p (i + 1)%Z todo' st2
  end.

Definition equipmentTypes : list (EquipPrefix * nat) :=
  [(Panel, 20%nat); (Inverter, 5%nat); (Battery, 3%nat); (Transformer, 2%nat)].

Definition initializeEquipment (st : State) : State :=
  fold_left (fun s ty => initializeUnits (fst ty) 1%Z (snd ty) s)
            equipmentTypes st.

Definition defaultFactors : Env := mkEnv 30 5 7 10.

Definition resetTo (r : Q) (e : Equipment.t) : Equipment.t :=
  withIssues [] (withAnomalyRef None
    (withStatus healthy (withHealth (95 + r * 5)%Q e))).

Definition resetUnit (st : State) (id : EquipId) : State :=
  let (r, st1) := random st in
  updateEquipment id (resetTo r) st1.

Definition initializeSystemState (now : Z) (preserveLogs : bool) (st : State)
  : State :=
  let currentTime := getCurrentTime now st in
  let st1 := setLastUpdateTime currentTime
               (setDailyCumulative 0%R (setCurrentGeneration 0%R st)) in
  let st2 := setAnomalies [] st1 in
  let st3 := fold_left resetUnit (equipmentKeys st2) st2 in
  let st4 := if manualEnvironmentControl st3
             then setEnvironmentalFactors defaultFactors st3 else st3 in
  let st5 := setAnomalyOverrides (mkOverrides None None) st4 in
  let st6 := if preserveLogs then st5 else setLogs [] st5 in
  log now (SystemInitializedAt currentTime) LogSystem st6.

(** [new Date()] with [setHours(hours, minutes, 0, 0)] *)
Definition todayAt (now hours minutes : Z) : Z :=
  (now / 86400000 * 86400000 + hours * 3600000 + minutes * 60000)%Z.

Definition handleTimeChange (now hours minutes : Z) (st : State) : State :=
  let newTime := todayAt now hours minutes in
  let st1 := setSimulationTime (Some newTime) st in
  let st2 := initializeSystemState now true st1 in
  let st3 := addAlert now (InitializedWithSimulationTime hours minutes) info st2 in
  updateSimulation now st3.

Definition resetTime (now : Z) (st : State) : State :=
  let st1 := setSimulationTime None st in
  let st2 := initializeSystemState now true st1 in
  let st3 := addAlert now
    (Text "System initialized with current time - Real-time mode active")
    info st2 in
  updateSimulation now st3.

Definition advanceTime (now : Z) (st : State) : State :=
  let currentTime := getCurrentTime now st in
  let newTime := (currentTime + 3600000)%Z in
  let st1 := setSimulationTime (Some newTime) st in
  let hours := getHours newTime in
  let minutes := getMinutes newTime in
  let st2 :=
    if (getHours newTime =? 0)%Z then
      addAlert now (Text "Midnight - Daily cumulative reset") info
               (setDailyCumulative 0%R st1)
    else st1 in
  let st3 := log now (TimeAdvanced hours minutes) LogSystem st2 in
  let st4 := addAlert now (TimeAdvanced hours minutes) info st3 in
  updateSimulation now st4.

(** ** The anomaly engine *)

Definition status_eqb (a b : Status) : bool :=
  match a, b with
  | healthy, healthy | degraded, degraded | faulty, faulty => true
  | _, _ => false
  end.

(** [x < y] on numbers *)
Definition Qltb (x y : Q) : bool := negb (Qle_bool y x).

Definition isPanel (id : EquipId) : bool := prefix_eqb (prefix id) Panel.

(** [Object.keys(state.equipmentHealth).filter(id => id.startsWith('Panel-'))] *)
Definition panelIdsOf (st : State) : list EquipId :=
  filter isPanel (equipmentKeys st).

(** The loop [for (let i = 0; i < numToAffect && i < panelIds.length; i++)]
    that [generateAnomaly] and [generateDustAccumulationAfterStorm] both
    contain, with [rounds] iterations left; [claim] is what the body assigns
    to the chosen unit. *)
Fixpoint selectPanels (rounds : nat) (panelIds : list EquipId)
         (claim : Equipment.t -> Equipment.t)
         (affected : list EquipId) (st : State) : list EquipId * State :=
  match rounds with
  | O => (affected, st)
  | S rounds' =>
      let (randomIndex, st1) :=
        randomBelow (Z.of_nat (List.length panelIds)) st in
      match nth_error panelIds (Z.to_nat randomIndex) with
      | Some equipmentId =>
          (* Make sure we don't affect the same panel twice *)
          match eqLookup equipmentId (equipmentHealth st1) with
          | Some _ =>
              if negb (includes affected equipmentId) then
                selectPanels rounds' panelIds claim
                  (affected ++ [equipmentId])
                  (updateEquipment equipmentId claim st1)
              else selectPanels rounds' panelIds claim affected st1
          | None => selectPanels rounds' panelIds claim affected st1
          end
      | None => selectPanels rounds' panelIds claim affected st1
      end
  end.

(** [i < numToAffect && i < panelIds.length] holds for this many [i]. *)
Definition roundsOf (numToAffect : Z) (panelIds : list EquipId) : nat :=
  Nat.min (Z.to_nat numToAffect) (List.length panelIds).

Definition stormDustClaim (anomalyId : Z) (e : Equipment.t) : Equipment.t :=
  withHealth (Qmax 20 (Equipment.health e - 25))
    (withAnomalyRef (Some anomalyId)
       (withIssues ["dust accumulation"%string] (withStatus degraded e))).

Definition generateDustAccumulationAfterStorm (now : Z) (st : State) : State :=
  let anomaly :=
    Anomaly.mk now DustAccumulation "Dust Accumulation" MultipleSections
               10 warning now true 0 now (Some []) None None (Some DustStorm) in
  let panelIds := panelIdsOf st in
  let (k, st1) := randomBelow 5 st in
  let numToAffect := (k + 4)%Z in            (* 4-8 panels *)
  let (affected, st2) :=
    selectPanels (roundsOf numToAffect panelIds) panelIds
                 (stormDustClaim (Anomaly.id anomaly)) [] st1 in
  let anomaly' := withAffectedEquipment (Some affected) anomaly in
  let st3 := setAnomalies (anomalies st2 ++ [anomaly']) st2 in
  let st4 := addAlert now (DustDetectedAfterStorm (List.length affected))
                      warning st3 in
  let st5 := log now (DustGeneratedAfterStorm (List.length affected))
                 LogAnomaly st4 in
  updateSimulation now st5.

(** The entry of the [anomalyTypes] table of [generateAnomaly]; the three
    numbers are the draws its literal makes for the three random
    locations. *)
Definition anomalyTypes (n1 n2 n3 : Z) (ty : AnomalyType)
  : string * Location * Q * Severity :=
  match ty with
  | PanelFault => ("Panel Fault"%string, Section_ (n1 + 1), 15, critical)
  | DustAccumulation =>
      ("Dust Accumulation"%string, Section_ (n2 + 1), 10, warning)
  | DustStorm => ("Dust Storm"%string, EntireFacility, 30, warning)
  | InverterOverload =>
      ("Inverter Overload"%string, InverterNo (n3 + 1), 20, critical)
  | CloudCover => ("Cloud Cover Spike"%string, Regional, 40, info)
  end.

Definition manualPanelClaim (ty : AnomalyType) (anomalyId : Z)
           (e : Equipment.t) : Equipment.t :=
  let e1 :=
    match ty with
    | DustAccumulation =>
        withIssues ["dust accumulation"%string] (withStatus degraded e)
    | _ => withIssues ["panel fault"%string] (withStatus faulty e)
    end in
  let healthReduction : Q :=
    match ty with DustAccumulation => 30 | _ => 50 end in
  withHealth (Qmax 20 (Equipment.health e1 - healthReduction))
             (withAnomalyRef (Some anomalyId) e1).

(** [anomaly.location.match(/\d+/)[0]] *)
Definition manualInverterClaim (anomalyId : Z) (e : Equipment.t)
  : Equipment.t :=
  withHealth (Qmax 30 (Equipment.health e - 40))
    (withAnomalyRef (Some anomalyId) (withStatus faulty e)).

Definition firstNumber (loc : Location) : Z :=
  match loc with
  | Section_ n | InverterNo n => n
  | SectionCell r _ => r
  | _ => 0
  end.

Definition generateAnomaly (now : Z) (selected : option AnomalyType)
           (st : State) : State :=
  match selected with
  | None => addAlert now (Text "Please select an anomaly type") warning st
  | Some ty =>
      let (n1, s1) := randomBelow 10 st in
      let (n2, s2) := randomBelow 10 s1 in
      let (n3, s3) := randomBelow 5 s2 in
      let '(name, location, impact, severity) := anomalyTypes n1 n2 n3 ty in
      let anomaly :=
        Anomaly.mk now ty name location impact severity now true 0 now
                   None None None None in
      let slot := List.length (anomalies s3) in
      let s4 := setAnomalies (anomalies s3 ++ [anomaly]) s3 in
      (* Apply visual effects and environmental overrides *)
      let s5 :=
        match ty with
        | DustStorm =>
            updateSimulation now
              (setAnomalyOverrides
                 (mkOverrides
                    (Some (Rmin 100 (dustLevel (environmentalFactors s4) + 50)))
                    (cloudOverride (anomalyOverrides s4))) s4)
        | CloudCover =>
            updateSimulation now
              (setAnomalyOverrides
                 (mkOverrides
                    (dustOverride (anomalyOverrides s4))
                    (Some (Rmin 100 (cloudCover (environmentalFactors s4) + 60))))
                 s4)
        | _ => s4
        end in
      (* Update affected equipment *)
      let s6 :=
        match ty with
        | PanelFault | DustAccumulation =>
            let (startRow, t1) := randomBelow 8 s5 in
            let (startCol, t2) := randomBelow 8 t1 in
            let (clusterSize, t3) := randomBelow 3 t2 in
            let panelIds := panelIdsOf t3 in
            let (k, t4) := randomBelow 3 t3 in
            let numToAffect := (k + 2)%Z in          (* 2-4 panels *)
            let (affected, t5) :=
              selectPanels (roundsOf numToAffect panelIds) panelIds
                           (manualPanelClaim ty (Anomaly.id anomaly)) [] t4 in
            updateAnomaly slot
              (fun a => withLocation (SectionCell (startRow + 1) (startCol + 1))
                          (withAffectedEquipment (Some affected) a)) t5
        | InverterOverload =>
            let inverterId := mkEquipId Inverter (firstNumber location) in
            let t1 := updateAnomaly slot
                        (withAffectedEquipment (Some [inverterId])) s5 in
            match eqLookup inverterId (equipmentHealth t1) with
            | Some _ =>
                updateEquipment inverterId
                  (manualInverterClaim (Anomaly.id anomaly)) t1
            | None => t1
            end
        | _ => s5
        end in
      let location' :=
        match nth_error (anomalies s6) slot with
        | Some a => Anomaly.location a
        | None => location
        end in
      let s7 := addAlert now (AnomalyGeneratedAt name location') severity s6 in
      let s8 := log now (AnomalyGenerated name) LogAnomaly s7 in
      updateSimulation now s8
  end.

Definition releaseTo (r : Q) (e : Equipment.t) : Equipment.t :=
  withHealth (96 + r * 4)%Q                                     (* 96-100% *)
    (withIssues [] (withAnomalyRef None (withStatus healthy e))).

Definition releaseUnit (st : State) (equipmentId : EquipId) : State :=
  match eqLookup equipmentId (equipmentHealth st) with
  | Some _ =>
      let (r, st1) := random st in
      updateEquipment equipmentId (releaseTo r) st1
  | None => st
  end.

(** [if (anomaly.affectedEquipment) anomaly.affectedEquipment.forEach(...)] *)
Definition restoreEquipment (a : Anomaly.t) (st : State) : State :=
  match Anomaly.affectedEquipment a with
  | Some ids => fold_left releaseUnit ids st
  | None => st
  end.

Definition clearDustOverride (st : State) : State :=
  setAnomalyOverrides
    (mkOverrides None (cloudOverride (anomalyOverrides st))) st.

Definition clearCloudOverride (st : State) : State :=
  setAnomalyOverrides
    (mkOverrides (dustOverride (anomalyOverrides st)) None) st.

(** What both resolution paths do after marking the anomaly resolved and
    writing their alert and log line. *)
Definition clearEffects (now : Z) (a : Anomaly.t) (st : State) : State :=
  match Anomaly.type a with
  | PanelFault | DustAccumulation | InverterOverload => restoreEquipment a st
  | DustStorm =>
      generateDustAccumulationAfterStorm now
        (updateSimulation now (clearDustOverride st))
  | CloudCover => updateSimulation now (clearCloudOverride st)
  end.

Definition markResolved (now : Z) (by_ : Resolver) (a : Anomaly.t)
  : Anomaly.t :=
  withResolvedBy (Some by_) (withResolvedAt (Some now) (withActive false a)).

Definition elapsedSeconds (now since : Z) : Q :=
  (inject_Z (now - since) / 1000)%Q.

Definition maxEscalationOf (ty : AnomalyType) : Z :=
  if isEnvironmental ty then 1%Z else 3%Z.

Definition escalationAlert (now : Z) (a : Anomaly.t) (level : Z)
           (timeSinceStart : Q) (st : State) : State :=
  if isEnvironmental (Anomaly.type a) then
    addAlert now
      (EnvironmentalOngoing (Anomaly.name a) (Qfloor (timeSinceStart / 60)))
      warning st
  else if (level =? 1)%Z then
    addAlert now (Escalation (Anomaly.name a) (Qfloor (timeSinceStart / 60)))
             warning st
  else if (level =? 2)%Z then
    addAlert now (CriticalEscalation (Anomaly.name a)) critical st
  else if (level =? 3)%Z then
    addAlert now
      (MaximumEscalation (Anomaly.name a)
         (Qceiling ((200 - timeSinceStart) / 60)))
      critical st
  else st.

(** The callback that [checkAnomalies] passes to [forEach], for the anomaly
    at position [i]. *)
Definition checkAnomaly (now : Z) (st : State) (i : nat) : State :=
  match nth_error (anomalies st) i with
  | None => st
  | Some a =>
      if Anomaly.active a then
        let timeSinceStart := elapsedSeconds now (Anomaly.timestamp a) in
        let timeSinceLastEscalation :=
          elapsedSeconds now (Anomaly.lastEscalation a) in
        (* Auto-correct after 200 seconds *)
        if Qle_bool 200 timeSinceStart then
          let st1 := updateAnomaly i (markResolved now ByAutoTimeout) st in
          let st2 :=
            if isEnvironmental (Anomaly.type a) then
              log now (EnvironmentalClearedAfter200 (Anomaly.name a))
                  LogResolution
                  (addAlert now (EnvironmentalCleared (Anomaly.name a)) info st1)
            else
              log now (AutoCorrectedAfter200 (Anomaly.name a)) LogResolution
                  (addAlert now (AutoCorrectedTimeout (Anomaly.name a)) info st1)
          in
          clearEffects now a st2
        (* Escalate every 60 seconds *)
        else if Qle_bool 60 timeSinceLastEscalation
                && (Anomaly.escalationLevel a <? 3)%Z then
          let maxEscalation := maxEscalationOf (Anomaly.type a) in
          if (Anomaly.escalationLevel a <? maxEscalation)%Z then
            let level := (Anomaly.escalationLevel a + 1)%Z in
            let st1 :=
              updateAnomaly i
                (fun x => withLastEscalation now (withEscalationLevel level x))
                st in
            let st2 := escalationAlert now a level timeSinceStart st1 in
            log now (AnomalyEscalated (Anomaly.name a) level) LogEscalation st2
          else st
        else st
      else st
  end.

(** [forEach] visits the positions that exist when it is called. *)
Definition sweepAnomalies (now : Z) (st : State) : State :=
  fold_left (checkAnomaly now) (seq 0 (List.length (anomalies st))) st.

Definition checkAnomalies (now : Z) (st : State) : State :=
  updateSimulation now (sweepAnomalies now st).

(** [state.anomalies.find(a => a.id === anomalyId)], with the position of
    the object found. *)
Fixpoint findById (anomalyId : Z) (i : nat) (l : list Anomaly.t)
  : option (nat * Anomaly.t) :=
  match l with
  | [] => None
  | a :: rest =>
      if (Anomaly.id a =? anomalyId)%Z then Some (i, a)
      else findById anomalyId (S i) rest
  end.

Definition correctAnomaly (now : Z) (anomalyId : Z) (st : State) : State :=
  match findById anomalyId 0 (anomalies st) with
  | Some (i, a) =>
      if Anomaly.active a then
        let st1 := updateAnomaly i (markResolved now ByUser) st in
        let st2 := addAlert now (AnomalyCorrected (Anomaly.name a)) info st1 in
        let st3 := log now (ManuallyCorrected (Anomaly.name a))
                       LogResolution st2 in
        let st4 := clearEffects now a st3 in
        updateSimulation now st4
      else st
  | None => st
  end.

(** ** Health monitoring and degradation *)

(** The [anomalyTypes] table of [generateAnomalyForEquipment]; it has no
    entry for the two environmental types. *)
Definition equipmentAnomalyTypes (n1 n2 n3 : Z) (ty : AnomalyType)
  : option (string * Location * Q * Severity) :=
  match ty with
  | PanelFault => Some ("Panel Fault"%string, Section_ (n1 + 1), 15, critical)
  | DustAccumulation =>
      Some ("Dust Accumulation"%string, Section_ (n2 + 1), 10, warning)
  | InverterOverload =>
      Some ("Inverter Overload"%string, InverterNo (n3 + 1), 20, critical)
  | DustStorm | CloudCover => None
  end.

Definition equipmentClaim (ty : AnomalyType) (anomalyId : Z)
           (e : Equipment.t) : Equipment.t :=
  match ty with
  | PanelFault =>
      withHealth (Qmax 20 (Equipment.health e - 30))
        (withIssues ["Panel fault detected"%string]
           (withAnomalyRef (Some anomalyId) (withStatus faulty e)))
  | DustAccumulation =>
      withHealth (Qmax 20 (Equipment.health e - 25))
        (withIssues ["Dust accumulation"%string]
           (withAnomalyRef (Some anomalyId) (withStatus degraded e)))
  | InverterOverload =>
      withHealth (Qmax 30 (Equipment.health e - 40))
        (withIssues ["Overload detected"%string]
           (withAnomalyRef (Some anomalyId) (withStatus faulty e)))
  | _ => e
  end.

(** Where the table has no entry the script stops on a [TypeError] with
    nothing assigned yet. *)
Definition generateAnomalyForEquipment (now : Z) (ty : AnomalyType)
           (equipmentId : EquipId) (st : State) : State :=
  let (n1, s1) := randomBelow 10 st in
  let (n2, s2) := randomBelow 10 s1 in
  let (n3, s3) := randomBelow 4 s2 in
  match equipmentAnomalyTypes n1 n2 n3 ty with
  | None => s3
  | Some (name, location, impact, severity) =>
      let anomaly :=
        Anomaly.mk (Z.of_nat (List.length (anomalies s3)) + 1) ty name location
                   impact severity now true 0 now
                   (Some [equipmentId]) None None None in
      let s4 := updateEquipment equipmentId
                  (equipmentClaim ty (Anomaly.id anomaly)) s3 in
      let s5 := setAnomalies (anomalies s4 ++ [anomaly]) s4 in
      updateSimulation now s5
  end.

(** [a.active && a.affectedEquipment && a.affectedEquipment.includes(id)] *)
Definition activelyClaims (equipmentId : EquipId) (a : Anomaly.t) : bool :=
  Anomaly.active a &&
  match Anomaly.affectedEquipment a with
  | Some ids => includes ids equipmentId
  | None => false
  end.

(** The callback of [monitorEquipmentHealth], for one entry. *)
Definition monitorUnit (now : Z) (st : State) (equipmentId : EquipId)
  : State :=
  match eqLookup equipmentId (equipmentHealth st) with
  | None => st
  | Some equipment =>
      if status_eqb (Equipment.status equipment) healthy
         && Qltb (Equipment.health equipment) 80 then
        if existsb (activelyClaims equipmentId) (anomalies st) then st
        else
          let (anomalyType, st1) :=
            match prefix equipmentId with
            | Panel =>
                let (r, s) := random st in
                (if Qltb (3 # 10) r then DustAccumulation else PanelFault, s)
            | Inverter => (InverterOverload, st)
            | _ => (PanelFault, st)
            end in
          let st2 := generateAnomalyForEquipment now anomalyType equipmentId st1 in
          let healthNow :=
            match eqLookup equipmentId (equipmentHealth st2) with
            | Some e => Equipment.health e
            | None => Equipment.health equipment
            end in
          let st3 := addAlert now
                       (AutoGeneratedAlert anomalyType equipmentId healthNow)
                       warning st2 in
          log now (AutoGeneratedLog anomalyType equipmentId healthNow)
              LogAnomaly st3
      else st
  end.

Definition monitorEquipmentHealth (now : Z) (st : State) : State :=
  fold_left (monitorUnit now) (equipmentKeys st) st.

Definition degradable (st : State) (entry : EquipId * Equipment.t) : bool :=
  let hasActiveAnomaly := existsb (activelyClaims (fst entry)) (anomalies st) in
  status_eqb (Equipment.status (snd entry)) healthy
  && Qltb 80 (Equipment.health (snd entry))
  && negb hasActiveAnomaly.

Definition degradableEquipment (st : State) : list EquipId :=
  map fst (filter (degradable st) (equipmentHealth st)).

Definition degradeBy (r : Q) (e : Equipment.t) : Equipment.t :=
  (* Random degradation: 0.1-0.5% per minute *)
  let degradation := ((1 # 10) + r * (4 # 10))%Q in
  withHealth (Qmax 75 (Equipment.health e - degradation)) e.

Definition degradeUnit (st : State) (equipmentId : EquipId) : State :=
  let (r, st1) := random st in
  updateEquipment equipmentId (degradeBy r) st1.

(** [sort(() => Math.random() - 0.5)] leaves its outcome to the engine:
    [shuffled] is the order it produced and [sortDraws] the number of times
    it called the comparator. *)
Definition degradeEquipmentHealth (shuffled : list EquipId) (sortDraws : nat)
           (st : State) : State :=
  let equipmentToDegrade :=
    Qceiling (inject_Z (Z.of_nat (List.length (degradableEquipment st)))
              * (25 # 100)) in
  let st1 := setDrawn (drawn st + sortDraws)%nat st in
  let selectedEquipment := firstn (Z.to_nat equipmentToDegrade) shuffled in
  fold_left degradeUnit selectedEquipment st1.

(** ** The environment controls and the random events *)

Definition updateEnvironmentalFactors (now : Z) (st : State) : State :=
  if manualEnvironmentControl st then st
  else
    let sim := simulatedEnvironmentalFactors st in
    let (r1, s1) := random st in
    let temperature' :=
      (25 + Q2R r1 * 20
       + (sin (IZR (getHours (getCurrentTime now st)) / 24 * PI * 2 - PI / 2)
          + 1) * 5)%R in
    let (r2, s2) := random s1 in
    let dust' :=
      Rmax 0 (Rmin 100 (dustLevel sim + (Q2R r2 - 4 / 10) * 10))%R in
    let (r3, s3) := random s2 in
    let cloud' :=
      Rmax 0 (Rmin 100 (cloudCover sim + (Q2R r3 - 5 / 10) * 15))%R in
    let (r4, s4) := random s3 in
    let humidity' := (20 + Q2R r4 * 30)%R in
    let sim' := mkEnv temperature' dust' cloud' humidity' in
    setEnvironmentalFactors sim' (setSimulatedEnvironmentalFactors sim' s4).

Definition toggleManualControl (now : Z) (checked : bool) (st : State)
  : State :=
  let st1 := setManualEnvironmentControl checked st in
  if checked then
    log now (Text "Manual environmental control enabled") LogControl
        (addAlert now (Text "Manual environmental control enabled") info st1)
  else
    let st2 := setEnvironmentalFactors (simulatedEnvironmentalFactors st1) st1 in
    log now (Text "Manual environmental control disabled") LogControl
        (addAlert now (Text "Returned to automatic simulation") info st2).

Definition resetEnvironment (now : Z) (st : State) : State :=
  let st1 := setEnvironmentalFactors (simulatedEnvironmentalFactors st) st in
  log now (Text "Environmental factors reset") LogControl
      (addAlert now (Text "Environmental factors reset to simulation values")
                info st1).

Inductive Factor := temp | dust | cloud | humidity_.

(** [updateFactorFromSlider] and [updateFactorFromInput] *)
Definition updateFactor (now : Z) (factor : Factor) (numValue : R)
           (st : State) : State :=
  if manualEnvironmentControl st then
    let e := environmentalFactors st in
    let e' :=
      match factor with
      | temp => mkEnv numValue (dustLevel e) (cloudCover e) (humidity e)
      | dust => mkEnv (temperature e) numValue (cloudCover e) (humidity e)
      | cloud => mkEnv (temperature e) (dustLevel e) numValue (humidity e)
      | humidity_ => mkEnv (temperature e) (dustLevel e) (cloudCover e) numValue
      end in
    updateSimulation now (setEnvironmentalFactors e' st)
  else st.

Definition pickEvent (now : Z) (events : list (string * Severity))
           (st : State) : State :=
  let (k, st1) := randomBelow (Z.of_nat (List.length events)) st in
  match nth_error events (Z.to_nat k) with
  | Some (message, sev) => addAlert now (Text message) sev st1
  | None => st1
  end.

Definition generateRandomEvent (now : Z) (st : State) : State :=
  if existsb Anomaly.active (anomalies st) then
    let (r, st1) := random st in
    if Qltb (8 # 10) r then
      pickEvent now
        [("System performance degraded due to active anomalies"%string, warning);
         ("Monitoring active anomalies for changes"%string, info);
         ("Maintenance team notified of ongoing issues"%string, info)] st1
    else st1
  else
    let effectiveTemp := temperature (environmentalFactors st) in
    let events :=
      [("System operating normally"%string, info);
       ("Maintenance check scheduled"%string, info);
       ("Grid synchronization stable"%string, info)]
      ++ (if Rlt_dec 35 effectiveTemp
          then [("Temperature rising above optimal"%string, warning)] else [])
      ++ (if Rlt_dec 30 (effectiveDust st)
          then [("Dust accumulation detected"%string, warning)] else [])
      ++ (if Rle_dec effectiveTemp 30 then
            if Rle_dec (effectiveDust st) 20
            then [("Operating conditions optimal"%string, info)] else []
          else []) in
    let (r, st1) := random st in
    if Qltb (7 # 10) r then pickEvent now events st1 else st1.

(** ** The states the page can reach *)

(** The [state] literal, before [init] runs. *)
Definition blankState (now : Z) (rs : nat -> Q) : State :=
  mkState None 100 0 0 now (mkEnv 30 5 7 10) true (mkEnv 35 20 10 30)
          (mkOverrides None None) [] [] [] [] rs 0.

(** [init], as far as it touches the state. *)
Definition init (now : Z) (rs : nat -> Q) : State :=
  log now (Text "System initialized") LogInfo
      (initializeEquipment (blankState now rs)).

(** One timer callback or user action. *)
Inductive step : State -> State -> Prop :=
| StepTick now st : step st (tick now st)
| StepEnvironment now st : step st (updateEnvironmentalFactors now st)
| StepCheckAnomalies now st : step st (checkAnomalies now st)
| StepRandomEvent now st : step st (generateRandomEvent now st)
| StepMonitor now st : step st (monitorEquipmentHealth now st)
| StepDegrade shuffled sortDraws st :
    Permutation shuffled (degradableEquipment st) ->
    step st (degradeEquipmentHealth shuffled sortDraws st)
| StepGenerateAnomaly now selected st :
    step st (generateAnomaly now selected st)
| StepCorrectAnomaly now anomalyId st :
    step st (correctAnomaly now anomalyId st)
| StepTimeChange now hours minutes st :
    step st (handleTimeChange now hours minutes st)
| StepResetTime now st : step st (resetTime now st)
| StepAdvanceTime now st : step st (advanceTime now st)
| StepToggleManual now checked st :
    step st (toggleManualControl now checked st)
| StepResetEnvironment now st : step st (resetEnvironment now st)
| StepUpdateFactor now factor numValue st :
    step st (updateFactor now factor numValue st)
(* The handlers of the drone scan, the log download, the settings and the
   assistant reach the fields above only through [log] and [addAlert]. *)
| StepLog now message ty st : step st (log now message ty st)
| StepAlert now message sev st : step st (addAlert now message sev st).

Inductive reachable (rs : nat -> Q) : State -> Prop :=
| ReachInit now : reachable rs (init now rs)
| ReachStep st st' : reachable rs st -> step st st' -> reachable rs st'.

(** Every [Math.random()] is in [0, 1). *)
Definition validDraws (rs : nat -> Q) : Prop :=
  forall n, (0 <= rs n)%Q /\ (rs n < 1)%Q.

(** A stream that starts with the listed draws and goes on with zeros. *)
Definition drawsFrom (l : list Q) : nat -> Q := fun n => nth n l 0%Q.

(** ** The vocabulary of the properties *)

(** The impact the [anomalyTypes] table gives to a type. *)
Definition typeImpact (ty : AnomalyType) : Q :=
  snd (fst (anomalyTypes 0 0 0 ty)).

(** Percentages within [0,100], temperature within the 15-55 band. *)
Definition validFactors (e : Env) : Prop :=
  (0 <= dustLevel e <= 100 /\ 0 <= cloudCover e <= 100 /\
   0 <= humidity e <= 100 /\ 15 <= temperature e <= 55)%R.

(** An override, when one is set, is a percentage. *)
Definition validOverrides (o : Overrides) : Prop :=
  (forall d, dustOverride o = Some d -> 0 <= d <= 100)%R /\
  (forall c, cloudOverride o = Some c -> 0 <= c <= 100)%R.

Definition fixedImpacts (l : list Anomaly.t) : Prop :=
  Forall (fun a => Anomaly.active a = true ->
                   Anomaly.impact a = typeImpact (Anomaly.type a)) l.

(** At most one active anomaly lists a given unit. *)
Definition atMostOneClaim (st : State) : Prop :=
  forall i j a b equipmentId,
    i <> j ->
    nth_error (anomalies st) i = Some a ->
    nth_error (anomalies st) j = Some b ->
    activelyClaims equipmentId a = true ->
    activelyClaims equipmentId b = true ->
    False.



(** What [checkAnomalies] makes of one anomaly object, apart from the
    effects on the rest of the state. *)
Definition checkedAnomaly (now : Z) (a : Anomaly.t) : Anomaly.t :=
  if Anomaly.active a then
    if Qle_bool 200 (elapsedSeconds now (Anomaly.timestamp a)) then
      markResolved now ByAutoTimeout a
    else if Qle_bool 60 (elapsedSeconds now (Anomaly.lastEscalation a))
            && (Anomaly.escalationLevel a <? 3)%Z
            && (Anomaly.escalationLevel a
                <? maxEscalationOf (Anomaly.type a))%Z then
      withLastEscalation now
        (withEscalationLevel (Anomaly.escalationLevel a + 1) a)
    else a
  else a.

(** The cap of the escalation level: 1 for the environmental types, 3 for
    the equipment types. *)
Definition withinEscalationCap (a : Anomaly.t) : Prop :=
  match Anomaly.type a with
  | DustStorm | CloudCover => (0 <= Anomaly.escalationLevel a <= 1)%Z
  | PanelFault | DustAccumulation | InverterOverload =>
      (0 <= Anomaly.escalationLevel a <= 3)%Z
  end.

Definition healthWithin (lo hi : Q) (e : Equipment.t) : Prop :=
  (lo <= Equipment.health e)%Q /\ (Equipment.health e <= hi)%Q.

Definition capInv (st : State) : Prop :=
  Forall withinEscalationCap (anomalies st).

(** Every unit has a health between 20 and 100. *)
Definition unitsWithinRange (m : EquipMap) : Prop :=
  Forall (fun entry => healthWithin 20 100 (snd entry)) m.

(** A unit as a resolution leaves it. *)
Definition released (e : Equipment.t) : Prop :=
  Equipment.status e = healthy /\ Equipment.anomaly e = None /\
  Equipment.issues e = [] /\ healthWithin 96 100 e.

(** An active dust storm that the sweep at [now] finds timed out. *)
Definition stormTimesOut (now : Z) (a : Anomaly.t) : bool :=
  Anomaly.active a
  && match Anomaly.type a with DustStorm => true | _ => false end
  && Qle_bool 200 (elapsedSeconds now (Anomaly.timestamp a)).

(** An anomaly as its creation leaves it. *)
Definition justCreated (now : Z) (a : Anomaly.t) : Prop :=
  Anomaly.active a = true /\ Anomaly.escalationLevel a = 0%Z /\
  Anomaly.timestamp a = now /\ Anomaly.lastEscalation a = now.

(** The dust accumulation that follows a storm resolved at [now]. *)
Definition cascaded (now : Z) (c : Anomaly.t) : Prop :=
  Anomaly.id c = now /\ Anomaly.type c = DustAccumulation /\
  justCreated now c.

(** The sweep of [checkAnomalies] after its first [k] positions. *)
Definition sweepPrefix (now : Z) (k : nat) (st : State) : State :=
  fold_left (checkAnomaly now) (seq 0 k) st.

(** The part of the state that the anomaly and equipment invariants speak
    of. *)
Definition core (st : State)
  : list Anomaly.t * EquipMap * (nat -> Q) :=
  (anomalies st, equipmentHealth st, randoms st).

(** The invariant behind the health bounds. *)
Definition healthInv (st : State) : Prop :=
  validDraws (randoms st) /\ unitsWithinRange (equipmentHealth st).

(** The listed units, where they exist, are as a resolution leaves them. *)
Definition allReleased (ids : list EquipId) (st : State) : Prop :=
  forall id e,
    In id ids -> eqLookup id (equipmentHealth st) = Some e -> released e.

(** A draw of [Math.random()] is in [0, 1). *)
Definition validDraw (q : Q) : bool := Qle_bool 0 q && Qltb q 1.

(** No id occurs twice in the list. *)
Fixpoint distinctIds (l : list EquipId) : bool :=
  match l with
  | [] => true
  | id :: rest => negb (includes rest id) && distinctIds rest
  end.

(** ** Runs used as examples *)

(** What the examples show of an anomaly. *)
Definition summary (a : Anomaly.t)
  : AnomalyType * bool * option Resolver * option (list EquipId) :=
  (Anomaly.type a, Anomaly.active a, Anomaly.resolvedBy a,
   Anomaly.affectedEquipment a).

(** A history with an orphaned assistant message, two user messages in a
    row, a system message, and no answer at the end. *)
Definition corruptedHistory : list AIAssistant.Message :=
  [AIAssistant.mkMessage "assistant" "Hello";
   AIAssistant.mkMessage "user" "Status?";
   AIAssistant.mkMessage "user" "Any faults?";
   AIAssistant.mkMessage "system" "note"].

Definition startTime : Z := 1700000000000.

(** The thirty draws of [initializeEquipment]. *)
Definition healthDraws : list Q := repeat (1 # 2) 30.

(** A manual panel fault on Panel-3 and Panel-8, then five seconds later a
    manual dust accumulation whose first pick is Panel-8 again. *)
Definition doubleClaimDraws : list Q :=
  healthDraws
  ++ [3 # 10; 5 # 10; 2 # 10; 4 # 10; 6 # 10; 5 # 10; 1 # 10;
      12 # 100; 37 # 100]
  ++ [7 # 10; 2 # 10; 9 # 10; 1 # 10; 2 # 10; 3 # 10; 5 # 10;
      38 # 100; 61 # 100; 93 # 100].

Definition doubleClaimRun : State :=
  generateAnomaly (startTime + 9000) (Some DustAccumulation)
    (generateAnomaly (startTime + 4000) (Some PanelFault)
       (init startTime (drawsFrom doubleClaimDraws))).

(** A manual dust storm; the cascade that follows its resolution draws
    four picks, two of which fall on Panel-2. *)
Definition stormDraws : list Q :=
  healthDraws ++ [3 # 10; 5 # 10; 2 # 10]
  ++ [1 # 10; 7 # 100; 32 # 100; 7 # 100; 63 # 100].

Definition stormStart : State :=
  generateAnomaly (startTime + 5000) (Some DustStorm)
    (init startTime (drawsFrom stormDraws)).

Definition stormTimedOut : State :=
  checkAnomalies (startTime + 210000) stormStart.

Definition stormCorrected : State :=
  correctAnomaly (startTime + 30000) (startTime + 5000) stormStart.




(** The sweep that comes seventy seconds after [doubleClaimRun]. *)
Definition escalatedRun : State :=
  checkAnomalies (startTime + 79000) doubleClaimRun.

(** Panel-1 in [escalatedRun]: untouched since its creation. *)
Definition panelOneOfRun : Equipment.t :=
  Equipment.mk (mkEquipId Panel 1) (195 # 2) healthy [] None.

(** The panel fault of [doubleClaimRun], as the run leaves it. *)
Definition panelFaultOfRun : Anomaly.t :=
  Anomaly.mk (startTime + 4000) PanelFault "Panel Fault" (SectionCell 4 5)
             15 critical (startTime + 4000) true 0 (startTime + 4000)
             (Some [mkEquipId Panel 3; mkEquipId Panel 8]) None None None.

(** ** Further vocabulary and examples *)

Module HistoryExamples.
Import AIAssistant.
Local Open Scope string_scope.

(** [isUser m]: [m.role === 'user'] *)
Definition isUser (m : Message) : bool := String.eqb (role m) "user".

(** The two messages that the repair makes up. *)
Definition placeholders : list Message :=
  [mkMessage "assistant" "I understand.";
   mkMessage "assistant" "I understand. Please continue."].

(** [k] exchanges of a question and its answer. *)
Fixpoint exchanges (k : nat) : list Message :=
  match k with
  | O => []
  | S k' => mkMessage "user" "Status?" :: mkMessage "assistant" "Nominal."
            :: exchanges k'
  end.
End HistoryExamples.

(** A unit as [initializeSystemState] leaves it. *)
Definition pristine (e : Equipment.t) : Prop :=
  Equipment.status e = healthy /\ Equipment.anomaly e = None /\
  Equipment.issues e = [] /\ healthWithin 95 100 e.

(** What a reinitialisation at [time] makes of [st]. *)
Definition reinitialised (time : Z) (st st' : State) : Prop :=
  anomalies st' = [] /\
  anomalyOverrides st' = mkOverrides None None /\
  dailyCumulative st' = 0%R /\
  lastUpdateTime st' = time /\
  currentGeneration st' = calculateSolarGeneration time st' /\
  equipmentKeys st' = equipmentKeys st /\
  (forall id e,
      eqLookup id (equipmentHealth st') = Some e -> pristine e) /\
  environmentalFactors st'
  = (if manualEnvironmentControl st then defaultFactors
     else environmentalFactors st) /\
  (exists entries, logs st' = logs st ++ entries).

(** The fresh plant, switched to the automatic simulation. *)
Definition automaticStart : State :=
  setManualEnvironmentControl false (init startTime (drawsFrom healthDraws)).

(** The session log of [st'] continues that of [st], and the alert list
    stays within its twenty entries if it was. *)
Definition journalExtends (st st' : State) : Prop :=
  (exists entries, logs st' = logs st ++ entries) /\
  ((List.length (alertList st) <= 20)%nat ->
   (List.length (alertList st') <= 20)%nat).

(** What the handlers write to: the log and the alert list. *)
Definition journalOf (st : State) : list LogEntry * list AlertItem :=
  (logs st, alertList st).

(** What a handler may do to the anomalies it finds: it empties the list
    (a reinitialisation), or it leaves every anomaly at its position with
    its id, type and timestamp, and as it is if it is resolved. *)
Definition persists (st st' : State) : Prop :=
  anomalies st' = [] \/
  forall i a,
    nth_error (anomalies st) i = Some a ->
    exists a',
      nth_error (anomalies st') i = Some a' /\
      Anomaly.id a' = Anomaly.id a /\
      Anomaly.type a' = Anomaly.type a /\
      Anomaly.timestamp a' = Anomaly.timestamp a /\
      (Anomaly.active a' = true -> Anomaly.active a = true) /\
      (Anomaly.active a = false -> a' = a).

(** The fresh plant after a manual panel fault on Panel-3 and Panel-8. *)
Definition panelFaultRun : State :=
  generateAnomaly (startTime + 4000) (Some PanelFault)
    (init startTime (drawsFrom doubleClaimDraws)).

(** The type that [monitorEquipmentHealth] chooses for a unit, given the
    draw it makes for a panel. *)
Definition monitoredType (id : EquipId) (r : Q) : AnomalyType :=
  match prefix id with
  | Panel => if Qltb (3 # 10) r then DustAccumulation else PanelFault
  | Inverter => InverterOverload
  | _ => PanelFault
  end.

(** What can happen while the manual environment control is on: the user
    moves a slider or types a value, the environment timer fires, the
    simulation ticks. *)
Inductive ManualAction :=
| EditFactor (factor : Factor) (numValue : R)
| EnvironmentTimer
| SimulationTick.

Definition manualAction (now : Z) (st : State) (action : ManualAction)
  : State :=
  match action with
  | EditFactor factor numValue => updateFactor now factor numValue st
  | EnvironmentTimer => updateEnvironmentalFactors now st
  | SimulationTick => tick now st
  end.

(** The messages of [generateRandomEvent] while an anomaly is active. *)
Definition anomalyAwareEvents : list string :=
  ["System performance degraded due to active anomalies"%string;
   "Monitoring active anomalies for changes"%string;
   "Maintenance team notified of ongoing issues"%string].

(** The fresh plant with Panel-1 worn down to a health of 79.7. *)
Definition wornPanelState : State :=
  updateEquipment (mkEquipId Panel 1) (withHealth (797 # 10))
    (init startTime (drawsFrom healthDraws)).

Definition wornPanel : Equipment.t :=
  Equipment.mk (mkEquipId Panel 1) (797 # 10) healthy [] None.

(** ** ai-assistant.js: the summary of the logs *)

Module LogSummary.

Local Open Scope string_scope.
Local Open Scope list_scope.

(** A log entry as [summarizeLogs] reads it. *)
Record Entry := mkEntry { message : string; type : string }.

(** [s.includes(t)] *)
Fixpoint includesString (s t : string) : bool :=
  String.prefix t s
  || match s with
     | EmptyString => false
     | String _ rest => includesString rest t
     end.

(** [s.toLowerCase()], on the ASCII letters. *)
Definition lowerAscii (c : Ascii.ascii) : Ascii.ascii :=
  let n := Ascii.nat_of_ascii c in
  if (65 <=? n)%nat && (n <=? 90)%nat then Ascii.ascii_of_nat (n + 32)
  else c.

Fixpoint toLowerCase (s : string) : string :=
  match s with
  | EmptyString => EmptyString
  | String c rest => String (lowerAscii c) (toLowerCase rest)
  end.

Definition reportsNormal (l : Entry) : bool :=
  includesString (message l) "System operating normally"
  || includesString (message l) "Operating conditions optimal".

(** [logs.map((l, i) => f(l) ? i : -1)], counting from [i]. *)
Fixpoint indicesWhere (f : Entry -> bool) (i : Z) (logs : list Entry)
  : list Z :=
  match logs with
  | [] => []
  | l :: rest =>
      (if f l then i else (-1)%Z) :: indicesWhere f (i + 1)%Z rest
  end.

(** [array.pop()] *)
Definition pop (l : list Z) : option Z :=
  match rev l with
  | [] => None
  | x :: _ => Some x
  end.

Definition normalOperationIndex (logs : list Entry) : option Z :=
  pop (filter (fun i => (0 <=? i)%Z) (indicesWhere reportsNormal 0 logs)).

Definition isCritical (l : Entry) : bool :=
  String.eqb (type l) "alert-critical" || String.eqb (type l) "critical".

Definition countsAsAnomaly (l : Entry) : bool :=
  let msg := toLowerCase (message l) in
  (String.eqb (type l) "anomaly" && includesString (message l) "generated")
  && negb (includesString msg "escalation")
  && negb (includesString msg "system performance degraded")
  && negb (includesString msg "resolved")
  && negb (includesString msg "corrected").

(** The three endings of the summary string. *)
Inductive Verdict :=
| SystemNormal                     (* [', SYSTEM NORMAL'] *)
| ActiveAnomalies (count : nat)    (* [`, ${anomalyCount} active anomalies`] *)
| NoActiveIssues.                  (* [', no active issues'] *)

(** [`${relevantLogs.length} logs, ${criticalCount} critical`] and its
    ending. *)
Record Summary := mkSummary {
  logCount : nat;
  criticalCount : nat;
  verdict : Verdict
}.

Definition summarizeLogs (logs : list Entry) : Summary :=
  let relevantLogs :=
    match normalOperationIndex logs with
    | Some i => skipn (Z.to_nat i) logs
    | None => logs
    end in
  let criticalCount := List.length (filter isCritical relevantLogs) in
  let anomalyCount := List.length (filter countsAsAnomaly relevantLogs) in
  let hasNormalOperation := existsb reportsNormal relevantLogs in
  mkSummary (List.length relevantLogs) criticalCount
    (if hasNormalOperation then SystemNormal
     else if (0 <? anomalyCount)%nat then ActiveAnomalies anomalyCount
     else NoActiveIssues).

(** A random event, two anomalies and a critical alert. *)
Definition maskedLogs : list Entry :=
  [mkEntry "Anomaly generated: Panel Fault" "anomaly";
   mkEntry "System operating normally" "alert-info";
   mkEntry "Anomaly generated: Inverter Overload" "anomaly";
   mkEntry "CRITICAL ESCALATION: Inverter Overload requires immediate attention!"
           "alert-critical"].

End LogSummary.

(** ** The main script: the settings dialog *)

(** What [parseInt] makes of an input field: a whole number, or [NaN]. *)
Inductive ParsedInt := NaN | Int (v : Z).

(** [x < y] and [x > y] with a number that may be [NaN]: both are false
    then. *)
Definition parsedLt (x : ParsedInt) (y : Z) : bool :=
  match x with Int v => (v <? y)%Z | NaN => false end.

Definition parsedGt (x : ParsedInt) (y : Z) : bool :=
  match x with Int v => (y <? v)%Z | NaN => false end.

Record Settings := mkSettings {
  llmBaseUrl : string;
  aiAnalysisInterval : ParsedInt;
  logDownloadInterval : ParsedInt
}.

Definition defaultSettings : Settings :=
  mkSettings "http://127.0.0.1:1234" (Int 180) (Int 600).

(** [saveSettings], given the trimmed URL field and what [parseInt] made
    of the two interval fields: the settings and the state afterwards,
    and the text of the [alert] dialog if one is shown. *)
Definition saveSettings (now : Z) (url : string)
           (aiInterval downloadInterval : ParsedInt)
           (settings : Settings) (st : State)
  : Settings * State * option string :=
  if String.eqb url "" then
    (settings, st, Some "Please enter a valid LLM Base URL"%string)
  else if parsedLt aiInterval 30 || parsedGt aiInterval 3600 then
    (settings, st,
     Some "AI Analysis Interval must be between 30 and 3600 seconds"%string)
  else if parsedLt downloadInterval 60 || parsedGt downloadInterval 7200 then
    (settings, st,
     Some "Log Download Interval must be between 60 and 7200 seconds"%string)
  else
    (mkSettings url aiInterval downloadInterval,
     log now (Text "Settings updated") LogSystem
         (addAlert now (Text "Settings saved successfully") info st),
     None).

(** [resetSettings], once the user has confirmed. *)
Definition resetSettings (now : Z) (st : State) : Settings * State :=
  (defaultSettings,
   log now (Text "Settings reset to defaults") LogSystem
       (addAlert now (Text "Settings reset to defaults") info st)).

(** An interval as the settings are meant to hold it. *)
Definition intervalWithin (lo hi : Z) (x : ParsedInt) : Prop :=
  match x with
  | Int v => (lo <= v <= hi)%Z
  | NaN => False
  end.

(** A unit is either healthy, unclaimed and without issues, or not
    healthy and marked with the id of an anomaly. *)
Definition consistentUnit (e : Equipment.t) : Prop :=
  (Equipment.status e = healthy /\ Equipment.anomaly e = None /\
   Equipment.issues e = []) \/
  (Equipment.status e <> healthy /\ Equipment.anomaly e <> None).

(** Every unit of the plant satisfies [P]. *)
Definition allUnits (P : Equipment.t -> Prop) (st : State) : Prop :=
  Forall (fun entry => P (snd entry)) (equipmentHealth st).

(* ================================================================== *)
(** * Part II: properties                                              *)
(* ================================================================== *)

Unset Implicit Arguments.

(** ** The conversation history *)

Section ConversationHistory.

Import AIAssistant.
Local Open Scope string_scope.
Local Open Scope list_scope.

Lemma alternation_snoc (k : nat) :
  alternation k ++ ["user"; "assistant"] = alternation (S k).
Proof.
  induction k as [|k IH]; [reflexivity|].
  change (alternation (S k)) with ("user" :: "assistant" :: alternation k).
  cbn [app]. rewrite IH. reflexivity.
Qed.

Lemma validateLoop_invariant (history : list Message) :
  forall expectedRole fixed,
    loopInvariant expectedRole fixed ->
    exists k,
      map role (validateLoop history expectedRole fixed) = alternation k \/
      map role (validateLoop history expectedRole fixed)
      = alternation k ++ ["user"].
Proof.
  induction history as [|msg rest IH]; intros expectedRole fixed Hinv.
  - cbn [validateLoop].
    destruct Hinv as [[_ [k Hk]]|[_ [k Hk]]]; exists k; auto.
  - cbn [validateLoop].
    destruct Hinv as [[-> [k Hk]]|[-> [k Hk]]].
    + (* a user message is expected *)
      destruct (String.eqb_spec (role msg) "user") as [Hu|Hu].
      * apply IH. right. split; [reflexivity|]. exists k.
        rewrite map_app, Hk. cbn [map]. now rewrite Hu.
      * cbn [andb].
        assert (Hl : loopInvariant "user" fixed)
          by (left; split; [reflexivity | now exists k]).
        destruct (String.eqb (role msg) "assistant"); cbn [andb];
          now apply IH.
    + (* an assistant message is expected *)
      destruct (String.eqb_spec (role msg) "assistant") as [Ha|Ha].
      * apply IH. left. split; [reflexivity|]. exists (S k).
        rewrite map_app, Hk. cbn [map]. rewrite Ha, <- app_assoc.
        cbn [app]. apply alternation_snoc.
      * destruct (String.eqb_spec (role msg) "user") as [Hu|Hu];
          cbn [andb String.eqb Ascii.eqb Bool.eqb].
        -- apply IH. right. split; [reflexivity|]. exists (S k).
           rewrite map_app, Hk. cbn [map role]. rewrite Hu.
           rewrite <- alternation_snoc, <- !app_assoc. reflexivity.
        -- apply IH. right. split; [reflexivity | now exists k].
Qed.

Lemma lastMessage_snoc (l : list Message) (m : Message) :
  lastMessage (l ++ [m]) = Some m.
Proof.
  unfold lastMessage. rewrite length_app. cbn [List.length].
  replace (List.length l + 1 - 1)%nat with (List.length l) by lia.
  rewrite nth_error_app2 by lia. now rewrite Nat.sub_diag.
Qed.

Lemma lastMessage_role (l : list Message) (r : string) (rs : list string) :
  map role l = rs ++ [r] ->
  exists m, lastMessage l = Some m /\ role m = r.
Proof.
  intros H.
  destruct (exists_last (l := l)) as [l' [m ->]].
  { intros ->. destruct rs; discriminate. }
  exists m. split; [apply lastMessage_snoc|].
  rewrite map_app in H. cbn [map] in H.
  apply app_inj_tail in H. tauto.
Qed.

Lemma validate_alternates (history : list Message) :
  exists k, map role (validateConversationHistory history) = alternation k.
Proof.
  destruct history as [|m rest]; [now exists 0%nat|].
  unfold validateConversationHistory.
  set (fixed := validateLoop (m :: rest) "user" []).
  destruct (@validateLoop_invariant (m :: rest) "user" [])
    as [k [Hk|Hk]].
  { left. split; [reflexivity | now exists 0%nat]. }
  - fold fixed in Hk.
    destruct k as [|k].
    + destruct fixed; [|discriminate]. now exists 0%nat.
    + rewrite <- alternation_snoc in Hk.
      destruct (@lastMessage_role fixed "assistant"
                  (alternation k ++ ["user"])) as [x [-> Hx]].
      { rewrite Hk, <- app_assoc. reflexivity. }
      rewrite Hx. change (String.eqb "assistant" "user") with false.
      cbv iota. exists (S k). now rewrite Hk, alternation_snoc.
  - fold fixed in Hk.
    destruct (@lastMessage_role fixed "user" (alternation k) Hk)
      as [x [-> Hx]].
    rewrite Hx. change (String.eqb "user" "user") with true.
    cbv iota. exists (S k).
    rewrite map_app, Hk, <- app_assoc. apply alternation_snoc.
Qed.


Lemma alternation_ends (k : nat) :
  alternation k = [] \/ exists rs, alternation k = rs ++ ["assistant"].
Proof.
  induction k as [|k [IH|[rs IH]]]; [now left | right; cbn [alternation]..].
  - rewrite IH. now exists ["user"].
  - rewrite IH. now exists ("user" :: "assistant" :: rs).
Qed.



End ConversationHistory.

(** ** Generation stays between zero and the capacity *)

Section GenerationBounds.

Local Open Scope R_scope.

Lemma scale_by_fraction (x c f : R) :
  0 <= x <= c -> 0 <= f <= 1 -> 0 <= x * f <= c.
Proof. intros [Hx Hc] [Hf Hf1]. split; nra. Qed.

Lemma Q2R_of_Z (z : Z) : Q2R (inject_Z z) = IZR z.
Proof. unfold Q2R, inject_Z. cbn [Qnum Qden]. lra. Qed.

Lemma dayProgress_unit (hour : Q) :
  Qle_bool 6 hour && Qle_bool hour 18 = true ->
  0 <= Q2R ((hour - 6) / 12) <= 1.
Proof.
  intros H. apply andb_prop in H. destruct H as [H6 H18].
  apply Qle_bool_iff in H6, H18.
  apply Qle_Rle in H6, H18.
  change 6%Q with (inject_Z 6) in *. change 18%Q with (inject_Z 18) in *.
  change 12%Q with (inject_Z 12).
  rewrite Q2R_of_Z in H6, H18.
  rewrite Q2R_div by discriminate.
  rewrite Q2R_minus, !Q2R_of_Z. lra.
Qed.

Lemma baseGeneration_bounds (time : Z) (st : State) :
  0 <= capacity st -> 0 <= baseGenerationAt time st <= capacity st.
Proof.
  intros Hc. unfold baseGenerationAt.
  destruct (Qle_bool 6 (hourOf time) && Qle_bool (hourOf time) 18) eqn:E;
    [|lra].
  destruct (dayProgress_unit _ E) as [H0 H1].
  set (x := Q2R ((hourOf time - 6) / 12)) in *.
  assert (Hpi := PI_RGT_0).
  assert (Hs0 : 0 <= sin (x * PI)) by (apply sin_ge_0; nra).
  assert (Hs1 := SIN_bound (x * PI)).
  split; nra.
Qed.

Lemma typeImpact_fraction (ty : AnomalyType) :
  0 <= 1 - Q2R (typeImpact ty) / 100 <= 1.
Proof.
  destruct ty; unfold typeImpact, anomalyTypes; cbn [fst snd];
    match goal with
    | |- context [Q2R ?q] =>
        let z := eval cbv in (Qnum q) in
        change q with (inject_Z z); rewrite Q2R_of_Z
    end; lra.
Qed.

Lemma anomalyFactor_unit (l : list Anomaly.t) :
  fixedImpacts l ->
  forall acc, 0 <= acc <= 1 -> 0 <= fold_left applyImpact l acc <= 1.
Proof.
  induction 1 as [|a l Ha _ IH]; intros acc Hacc; [exact Hacc|].
  cbn [fold_left]. apply IH. unfold applyImpact.
  destruct (Anomaly.active a) eqn:Eact; cbn [andb]; [|exact Hacc].
  destruct (nonEnvironmental (Anomaly.type a)); [|exact Hacc].
  rewrite (Ha eq_refl).
  apply scale_by_fraction; [exact Hacc | apply typeImpact_fraction].
Qed.

(** C1. With percentages in [0,100] for dust, cloud cover and humidity, a
    temperature between 15 and 55, overrides (when set) that are
    percentages, the active anomalies carrying the impact of their type
    and a capacity that is not negative, [calculateSolarGeneration]
    returns a value between 0 and the capacity, at every time of day. *)
Theorem generation_between_zero_and_capacity (time : Z) (st : State) :
  0 <= capacity st ->
  validFactors (environmentalFactors st) ->
  validOverrides (anomalyOverrides st) ->
  fixedImpacts (anomalies st) ->
  0 <= calculateSolarGeneration time st <= capacity st.
Proof.
  intros Hcap (Hdust & Hcloud & _ & Htemp) [Hod Hoc] Himp.
  unfold calculateSolarGeneration.
  assert (Hed : 0 <= effectiveDust st <= 100).
  { unfold effectiveDust.
    destruct (dustOverride (anomalyOverrides st)) as [d|] eqn:E;
      [now apply Hod | exact Hdust]. }
  assert (Hec : 0 <= effectiveCloud st <= 100).
  { unfold effectiveCloud.
    destruct (cloudOverride (anomalyOverrides st)) as [c|] eqn:E;
      [now apply Hoc | exact Hcloud]. }
  repeat apply scale_by_fraction.
  - now apply baseGeneration_bounds.
  - unfold Rmax.
    destruct (Rle_dec 0 ((temperature (environmentalFactors st) - 25)
                         * (4 / 1000))); lra.
  - lra.
  - lra.
  - apply anomalyFactor_unit; [exact Himp | lra].
Qed.

End GenerationBounds.

(** ** What the basic operations leave alone *)

Lemma fold_left_invariant {A B : Type} (I : A -> Prop) (f : A -> B -> A)
      (l : list B) :
  (forall s x, I s -> I (f s x)) -> forall s, I s -> I (fold_left f l s).
Proof.
  intros Hf. induction l as [|x l IH]; intros s Hs; [exact Hs|].
  cbn [fold_left]. apply IH, Hf, Hs.
Qed.

Lemma random_eq (st : State) :
  random st = (randoms st (drawn st), setDrawn (S (drawn st)) st).
Proof. reflexivity. Qed.

Lemma randomBelow_eq (n : Z) (st : State) :
  randomBelow n st
  = (Qfloor (randoms st (drawn st) * inject_Z n),
     setDrawn (S (drawn st)) st).
Proof. reflexivity. Qed.

Lemma anomalies_log (now : Z) (m : Message) (ty : LogType) (st : State) :
  anomalies (log now m ty st) = anomalies st.
Proof. reflexivity. Qed.

Lemma equipmentHealth_log (now : Z) (m : Message) (ty : LogType) (st : State) :
  equipmentHealth (log now m ty st) = equipmentHealth st.
Proof. reflexivity. Qed.

Lemma randoms_log (now : Z) (m : Message) (ty : LogType) (st : State) :
  randoms (log now m ty st) = randoms st.
Proof. reflexivity. Qed.

Lemma anomalyOverrides_log (now : Z) (m : Message) (ty : LogType) (st : State) :
  anomalyOverrides (log now m ty st) = anomalyOverrides st.
Proof. reflexivity. Qed.

Lemma environmentalFactors_log (now : Z) (m : Message) (ty : LogType) (st : State) :
  environmentalFactors (log now m ty st) = environmentalFactors st.
Proof. reflexivity. Qed.

Lemma drawn_log (now : Z) (m : Message) (ty : LogType) (st : State) :
  drawn (log now m ty st) = drawn st.
Proof. reflexivity. Qed.

Lemma alertList_log (now : Z) (m : Message) (ty : LogType) (st : State) :
  alertList (log now m ty st) = alertList st.
Proof. reflexivity. Qed.

Lemma anomalies_addAlert (now : Z) (m : Message) (sev : Severity) (st : State) :
  anomalies (addAlert now m sev st) = anomalies st.
Proof. reflexivity. Qed.

Lemma equipmentHealth_addAlert (now : Z) (m : Message) (sev : Severity) (st : State) :
  equipmentHealth (addAlert now m sev st) = equipmentHealth st.
Proof. reflexivity. Qed.

Lemma randoms_addAlert (now : Z) (m : Message) (sev : Severity) (st : State) :
  randoms (addAlert now m sev st) = randoms st.
Proof. reflexivity. Qed.

Lemma anomalyOverrides_addAlert (now : Z) (m : Message) (sev : Severity) (st : State) :
  anomalyOverrides (addAlert now m sev st) = anomalyOverrides st.
Proof. reflexivity. Qed.

Lemma environmentalFactors_addAlert (now : Z) (m : Message) (sev : Severity) (st : State) :
  environmentalFactors (addAlert now m sev st) = environmentalFactors st.
Proof. reflexivity. Qed.

Lemma drawn_addAlert (now : Z) (m : Message) (sev : Severity) (st : State) :
  drawn (addAlert now m sev st) = drawn st.
Proof. reflexivity. Qed.

Lemma anomalies_updateSimulation (now : Z) (st : State) :
  anomalies (updateSimulation now st) = anomalies st.
Proof. unfold updateSimulation; destruct (midnightCrossing _ _); reflexivity. Qed.

Lemma equipmentHealth_updateSimulation (now : Z) (st : State) :
  equipmentHealth (updateSimulation now st) = equipmentHealth st.
Proof. unfold updateSimulation; destruct (midnightCrossing _ _); reflexivity. Qed.

Lemma randoms_updateSimulation (now : Z) (st : State) :
  randoms (updateSimulation now st) = randoms st.
Proof. unfold updateSimulation; destruct (midnightCrossing _ _); reflexivity. Qed.

Lemma anomalyOverrides_updateSimulation (now : Z) (st : State) :
  anomalyOverrides (updateSimulation now st) = anomalyOverrides st.
Proof. unfold updateSimulation; destruct (midnightCrossing _ _); reflexivity. Qed.

Lemma environmentalFactors_updateSimulation (now : Z) (st : State) :
  environmentalFactors (updateSimulation now st) = environmentalFactors st.
Proof. unfold updateSimulation; destruct (midnightCrossing _ _); reflexivity. Qed.

Lemma drawn_updateSimulation (now : Z) (st : State) :
  drawn (updateSimulation now st) = drawn st.
Proof. unfold updateSimulation; destruct (midnightCrossing _ _); reflexivity. Qed.

Lemma anomalies_setDrawn (n : nat) (st : State) :
  anomalies (setDrawn n st) = anomalies st.
Proof. reflexivity. Qed.

Lemma equipmentHealth_setDrawn (n : nat) (st : State) :
  equipmentHealth (setDrawn n st) = equipmentHealth st.
Proof. reflexivity. Qed.

Lemma randoms_setDrawn (n : nat) (st : State) :
  randoms (setDrawn n st) = randoms st.
Proof. reflexivity. Qed.

Lemma anomalyOverrides_setDrawn (n : nat) (st : State) :
  anomalyOverrides (setDrawn n st) = anomalyOverrides st.
Proof. reflexivity. Qed.

Lemma environmentalFactors_setDrawn (n : nat) (st : State) :
  environmentalFactors (setDrawn n st) = environmentalFactors st.
Proof. reflexivity. Qed.

Lemma anomalies_updateEquipment (id : EquipId) (f : Equipment.t -> Equipment.t) (st : State) :
  anomalies (updateEquipment id f st) = anomalies st.
Proof. reflexivity. Qed.

Lemma randoms_updateEquipment (id : EquipId) (f : Equipment.t -> Equipment.t) (st : State) :
  randoms (updateEquipment id f st) = randoms st.
Proof. reflexivity. Qed.

Lemma anomalyOverrides_updateEquipment (id : EquipId) (f : Equipment.t -> Equipment.t) (st : State) :
  anomalyOverrides (updateEquipment id f st) = anomalyOverrides st.
Proof. reflexivity. Qed.

Lemma environmentalFactors_updateEquipment (id : EquipId) (f : Equipment.t -> Equipment.t) (st : State) :
  environmentalFactors (updateEquipment id f st) = environmentalFactors st.
Proof. reflexivity. Qed.

Lemma drawn_updateEquipment (id : EquipId) (f : Equipment.t -> Equipment.t) (st : State) :
  drawn (updateEquipment id f st) = drawn st.
Proof. reflexivity. Qed.

Lemma equipmentHealth_updateAnomaly (i : nat) (f : Anomaly.t -> Anomaly.t) (st : State) :
  equipmentHealth (updateAnomaly i f st) = equipmentHealth st.
Proof. reflexivity. Qed.

Lemma randoms_updateAnomaly (i : nat) (f : Anomaly.t -> Anomaly.t) (st : State) :
  randoms (updateAnomaly i f st) = randoms st.
Proof. reflexivity. Qed.

Lemma anomalyOverrides_updateAnomaly (i : nat) (f : Anomaly.t -> Anomaly.t) (st : State) :
  anomalyOverrides (updateAnomaly i f st) = anomalyOverrides st.
Proof. reflexivity. Qed.

Lemma environmentalFactors_updateAnomaly (i : nat) (f : Anomaly.t -> Anomaly.t) (st : State) :
  environmentalFactors (updateAnomaly i f st) = environmentalFactors st.
Proof. reflexivity. Qed.

Lemma drawn_updateAnomaly (i : nat) (f : Anomaly.t -> Anomaly.t) (st : State) :
  drawn (updateAnomaly i f st) = drawn st.
Proof. reflexivity. Qed.

Lemma equipmentHealth_setAnomalies (l : list Anomaly.t) (st : State) :
  equipmentHealth (setAnomalies l st) = equipmentHealth st.
Proof. reflexivity. Qed.

Lemma randoms_setAnomalies (l : list Anomaly.t) (st : State) :
  randoms (setAnomalies l st) = randoms st.
Proof. reflexivity. Qed.

Lemma anomalyOverrides_setAnomalies (l : list Anomaly.t) (st : State) :
  anomalyOverrides (setAnomalies l st) = anomalyOverrides st.
Proof. reflexivity. Qed.

Lemma environmentalFactors_setAnomalies (l : list Anomaly.t) (st : State) :
  environmentalFactors (setAnomalies l st) = environmentalFactors st.
Proof. reflexivity. Qed.

Lemma drawn_setAnomalies (l : list Anomaly.t) (st : State) :
  drawn (setAnomalies l st) = drawn st.
Proof. reflexivity. Qed.

Lemma anomalies_clearDustOverride (st : State) :
  anomalies (clearDustOverride st) = anomalies st.
Proof. reflexivity. Qed.

Lemma equipmentHealth_clearDustOverride (st : State) :
  equipmentHealth (clearDustOverride st) = equipmentHealth st.
Proof. reflexivity. Qed.

Lemma randoms_clearDustOverride (st : State) :
  randoms (clearDustOverride st) = randoms st.
Proof. reflexivity. Qed.

Lemma environmentalFactors_clearDustOverride (st : State) :
  environmentalFactors (clearDustOverride st) = environmentalFactors st.
Proof. reflexivity. Qed.

Lemma drawn_clearDustOverride (st : State) :
  drawn (clearDustOverride st) = drawn st.
Proof. reflexivity. Qed.

Lemma anomalies_clearCloudOverride (st : State) :
  anomalies (clearCloudOverride st) = anomalies st.
Proof. reflexivity. Qed.

Lemma equipmentHealth_clearCloudOverride (st : State) :
  equipmentHealth (clearCloudOverride st) = equipmentHealth st.
Proof. reflexivity. Qed.

Lemma randoms_clearCloudOverride (st : State) :
  randoms (clearCloudOverride st) = randoms st.
Proof. reflexivity. Qed.

Lemma environmentalFactors_clearCloudOverride (st : State) :
  environmentalFactors (clearCloudOverride st) = environmentalFactors st.
Proof. reflexivity. Qed.

Lemma drawn_clearCloudOverride (st : State) :
  drawn (clearCloudOverride st) = drawn st.
Proof. reflexivity. Qed.

Lemma anomalies_setAnomalyOverrides (o : Overrides) (st : State) :
  anomalies (setAnomalyOverrides o st) = anomalies st.
Proof. reflexivity. Qed.

Lemma equipmentHealth_setAnomalyOverrides (o : Overrides) (st : State) :
  equipmentHealth (setAnomalyOverrides o st) = equipmentHealth st.
Proof. reflexivity. Qed.

Lemma randoms_setAnomalyOverrides (o : Overrides) (st : State) :
  randoms (setAnomalyOverrides o st) = randoms st.
Proof. reflexivity. Qed.

Lemma environmentalFactors_setAnomalyOverrides (o : Overrides) (st : State) :
  environmentalFactors (setAnomalyOverrides o st) = environmentalFactors st.
Proof. reflexivity. Qed.

Lemma drawn_setAnomalyOverrides (o : Overrides) (st : State) :
  drawn (setAnomalyOverrides o st) = drawn st.
Proof. reflexivity. Qed.

Lemma anomalies_updateAnomaly (i : nat) (f : Anomaly.t -> Anomaly.t) (st : State) :
  anomalies (updateAnomaly i f st) = updateAt i f (anomalies st).
Proof. reflexivity. Qed.

Lemma equipmentHealth_updateEquipment (id : EquipId) (f : Equipment.t -> Equipment.t) (st : State) :
  equipmentHealth (updateEquipment id f st) = eqUpdate id f (equipmentHealth st).
Proof. reflexivity. Qed.

Lemma anomalies_setAnomalies (l : list Anomaly.t) (st : State) :
  anomalies (setAnomalies l st) = l.
Proof. reflexivity. Qed.

Create Rewrite HintDb frame.

#[local] Hint Rewrite
  anomalies_log
  equipmentHealth_log
  randoms_log
  anomalyOverrides_log
  environmentalFactors_log
  drawn_log
  alertList_log
  anomalies_addAlert
  equipmentHealth_addAlert
  randoms_addAlert
  anomalyOverrides_addAlert
  environmentalFactors_addAlert
  drawn_addAlert
  anomalies_updateSimulation
  equipmentHealth_updateSimulation
  randoms_updateSimulation
  anomalyOverrides_updateSimulation
  environmentalFactors_updateSimulation
  drawn_updateSimulation
  anomalies_setDrawn
  equipmentHealth_setDrawn
  randoms_setDrawn
  anomalyOverrides_setDrawn
  environmentalFactors_setDrawn
  anomalies_updateEquipment
  randoms_updateEquipment
  anomalyOverrides_updateEquipment
  environmentalFactors_updateEquipment
  drawn_updateEquipment
  equipmentHealth_updateAnomaly
  randoms_updateAnomaly
  anomalyOverrides_updateAnomaly
  environmentalFactors_updateAnomaly
  drawn_updateAnomaly
  equipmentHealth_setAnomalies
  randoms_setAnomalies
  anomalyOverrides_setAnomalies
  environmentalFactors_setAnomalies
  drawn_setAnomalies
  anomalies_clearDustOverride
  equipmentHealth_clearDustOverride
  randoms_clearDustOverride
  environmentalFactors_clearDustOverride
  drawn_clearDustOverride
  anomalies_clearCloudOverride
  equipmentHealth_clearCloudOverride
  randoms_clearCloudOverride
  environmentalFactors_clearCloudOverride
  drawn_clearCloudOverride
  anomalies_setAnomalyOverrides
  equipmentHealth_setAnomalyOverrides
  randoms_setAnomalyOverrides
  environmentalFactors_setAnomalyOverrides
  drawn_setAnomalyOverrides
  anomalies_updateAnomaly
  equipmentHealth_updateEquipment
  anomalies_setAnomalies
  : frame.

(** ** The daily cumulative *)







Lemma updateSimulation_cumulative (now : Z) (st : State) :
  dailyCumulative (updateSimulation now st)
  = if midnightCrossing (getHours (lastUpdateTime st))
                        (getHours (getCurrentTime now st))
    then 0%R
    else (dailyCumulative st
          + calculateSolarGeneration (getCurrentTime now st) st
            * (IZR (getCurrentTime now st - lastUpdateTime st) / 3600000))%R.
Proof.
  unfold updateSimulation.
  cbn [lastUpdateTime setCurrentGeneration].
  destruct (midnightCrossing _ _); reflexivity.
Qed.

Lemma updateSimulation_generation (now : Z) (st : State) :
  currentGeneration (updateSimulation now st)
  = calculateSolarGeneration (getCurrentTime now st) st.
Proof.
  unfold updateSimulation.
  destruct (midnightCrossing _ _); reflexivity.
Qed.


(** ** Manual correction of an id that is unknown or already resolved *)

Lemma findById_none (anomalyId : Z) (l : list Anomaly.t) :
  (forall a, In a l -> Anomaly.id a <> anomalyId) ->
  forall i, findById anomalyId i l = None.
Proof.
  induction l as [|a l IH]; intros H i; [reflexivity|].
  cbn [findById].
  destruct (Z.eqb_spec (Anomaly.id a) anomalyId) as [E|_].
  - exfalso. apply (H a); [now left | exact E].
  - apply IH. intros b Hb. apply H. now right.
Qed.

Lemma findById_some (anomalyId : Z) (l : list Anomaly.t) :
  forall i j a,
    findById anomalyId i l = Some (j, a) ->
    (i <= j)%nat /\ nth_error l (j - i) = Some a /\ Anomaly.id a = anomalyId.
Proof.
  induction l as [|x l IH]; intros i j a H; [discriminate|].
  cbn [findById] in H.
  destruct (Z.eqb_spec (Anomaly.id x) anomalyId) as [E|_].
  - injection H as <- <-. rewrite Nat.sub_diag. now repeat split.
  - apply IH in H. destruct H as (Hle & Hn & Hid).
    split; [lia|]. split; [|exact Hid].
    replace (j - i)%nat with (S (j - S i)) by lia. exact Hn.
Qed.

(** C7. If [correctAnomaly] is called with an id that no anomaly of the
    state carries, or the anomaly that [find] returns for it is already
    inactive, the whole state is as before: anomalies, equipment and
    overrides untouched, no alert and no log line added, no random number
    drawn. *)
Theorem correctAnomaly_silent_noop (now anomalyId : Z) (st : State) :
  (forall a, In a (anomalies st) -> Anomaly.id a <> anomalyId) \/
  (exists i a, findById anomalyId 0 (anomalies st) = Some (i, a) /\
               Anomaly.active a = false) ->
  correctAnomaly now anomalyId st = st.
Proof.
  intros [H|(i & a & Hf & Ha)]; unfold correctAnomaly.
  - now rewrite findById_none.
  - now rewrite Hf, Ha.
Qed.

(** Witness of [generation_between_zero_and_capacity]: the state after the
    two manual anomalies of [doubleClaimRun], at any time. *)
Lemma generation_between_zero_and_capacity_witness :
  (0 <= capacity doubleClaimRun)%R /\
  validFactors (environmentalFactors doubleClaimRun) /\
  validOverrides (anomalyOverrides doubleClaimRun) /\
  fixedImpacts (anomalies doubleClaimRun) /\
  (0 <= calculateSolarGeneration (startTime + 43200000) doubleClaimRun
   <= capacity doubleClaimRun)%R.
Proof.
  assert (Hc : capacity doubleClaimRun = 100%R) by reflexivity.
  assert (He : environmentalFactors doubleClaimRun = mkEnv 30 5 7 10)
    by reflexivity.
  assert (Ho : anomalyOverrides doubleClaimRun = mkOverrides None None)
    by reflexivity.
  assert (H1 : (0 <= capacity doubleClaimRun)%R) by (rewrite Hc; lra).
  assert (H2 : validFactors (environmentalFactors doubleClaimRun)).
  { rewrite He. unfold validFactors. cbn [dustLevel cloudCover humidity
      temperature]. lra. }
  assert (H3 : validOverrides (anomalyOverrides doubleClaimRun)).
  { rewrite Ho. split; intros x Hx; discriminate Hx. }
  assert (H4 : fixedImpacts (anomalies doubleClaimRun)).
  { unfold fixedImpacts.
    remember (anomalies doubleClaimRun) as l eqn:El.
    vm_compute in El. subst l.
    repeat constructor. }
  repeat (split; [assumption|]).
  exact (@generation_between_zero_and_capacity (startTime + 43200000)
           doubleClaimRun H1 H2 H3 H4).
Defined.


(** Witness of [correctAnomaly_silent_noop]: an id nobody carries, and the
    id of the dust storm that has already timed out. *)
Lemma correctAnomaly_silent_noop_witness :
  correctAnomaly (startTime + 220000) 42 stormTimedOut = stormTimedOut /\
  correctAnomaly (startTime + 220000) (startTime + 5000) stormTimedOut
  = stormTimedOut.
Proof.
  split; apply correctAnomaly_silent_noop.
  - left. intros a Ha.
    remember (anomalies stormTimedOut) as l eqn:El.
    vm_compute in El. subst l.
    destruct Ha as [<-|[<-|[]]]; discriminate.
  - right.
    remember (findById (startTime + 5000) 0 (anomalies stormTimedOut))
      as found eqn:Ef.
    vm_compute in Ef. subst found.
    eexists. eexists. split; reflexivity.
Defined.

(** ** Two anomalies on one unit *)

(** C2. [generateAnomaly] picks its panels among all panels, claimed or
    not: after the two manual anomalies of [doubleClaimRun] the panel fault
    and the dust accumulation are both active and both list Panel-8. *)
Theorem manual_generation_claims_twice :
  ~ atMostOneClaim doubleClaimRun.
Proof.
  intros H.
  refine (H 0%nat 1%nat _ _ (mkEquipId Panel 8) _ _ _ _ _);
    [discriminate | vm_compute; reflexivity .. ].
Qed.

(** ** The dust left by a storm *)

(** C5. The cascade draws its panels with repetition and skips a panel it
    has drawn before: when the dust storm of [stormStart] is resolved, by
    the timeout or by hand, the dust accumulation that follows is active
    and lists three panels, Panel-2, Panel-7 and Panel-13, not four to
    eight. *)
Theorem storm_cascade_claims_three_panels :
  map summary (anomalies stormTimedOut)
  = [(DustStorm, false, Some ByAutoTimeout, None);
     (DustAccumulation, true, None,
      Some [mkEquipId Panel 2; mkEquipId Panel 7; mkEquipId Panel 13])] /\
  map summary (anomalies stormCorrected)
  = [(DustStorm, false, Some ByUser, None);
     (DustAccumulation, true, None,
      Some [mkEquipId Panel 2; mkEquipId Panel 7; mkEquipId Panel 13])].
Proof. split; vm_compute; reflexivity. Qed.

(** ** Anomaly ids *)



(** ** Loops that touch only the equipment and the stream position *)

Section EquipmentLoops.

Variable X : Type.
Variable proj : State -> X.
Hypothesis proj_setDrawn : forall n s, proj (setDrawn n s) = proj s.
Hypothesis proj_updateEquipment :
  forall id f s, proj (updateEquipment id f s) = proj s.

Lemma frame_selectPanels (rounds : nat) (panelIds : list EquipId)
      (claim : Equipment.t -> Equipment.t) :
  forall affected st,
    proj (snd (selectPanels rounds panelIds claim affected st)) = proj st.
Proof.
  induction rounds as [|n IH]; intros affected st; [reflexivity|].
  cbn [selectPanels]. rewrite randomBelow_eq.
  destruct (nth_error panelIds _) as [equipmentId|];
    [|now rewrite IH, proj_setDrawn].
  destruct (eqLookup equipmentId _);
    [|now rewrite IH, proj_setDrawn].
  destruct (negb (includes affected equipmentId));
    rewrite IH; [rewrite proj_updateEquipment|]; apply proj_setDrawn.
Qed.

Lemma frame_releaseUnit (st : State) (id : EquipId) :
  proj (releaseUnit st id) = proj st.
Proof.
  unfold releaseUnit. destruct (eqLookup id _); [|reflexivity].
  rewrite random_eq. now rewrite proj_updateEquipment, proj_setDrawn.
Qed.

Lemma frame_restoreEquipment (a : Anomaly.t) (st : State) :
  proj (restoreEquipment a st) = proj st.
Proof.
  unfold restoreEquipment.
  destruct (Anomaly.affectedEquipment a) as [ids|]; [|reflexivity].
  revert st. induction ids as [|id ids IH]; intros st; [reflexivity|].
  cbn [fold_left]. now rewrite IH, frame_releaseUnit.
Qed.

Lemma frame_degradeUnit (st : State) (id : EquipId) :
  proj (degradeUnit st id) = proj st.
Proof.
  unfold degradeUnit. rewrite random_eq.
  now rewrite proj_updateEquipment, proj_setDrawn.
Qed.

Lemma frame_resetUnit (st : State) (id : EquipId) :
  proj (resetUnit st id) = proj st.
Proof.
  unfold resetUnit. rewrite random_eq.
  now rewrite proj_updateEquipment, proj_setDrawn.
Qed.

End EquipmentLoops.

Lemma anomalies_selectPanels rounds panelIds claim affected st :
  anomalies (snd (selectPanels rounds panelIds claim affected st))
  = anomalies st.
Proof. now apply frame_selectPanels. Qed.

Lemma randoms_selectPanels rounds panelIds claim affected st :
  randoms (snd (selectPanels rounds panelIds claim affected st))
  = randoms st.
Proof. now apply frame_selectPanels. Qed.

Lemma anomalyOverrides_selectPanels rounds panelIds claim affected st :
  anomalyOverrides (snd (selectPanels rounds panelIds claim affected st))
  = anomalyOverrides st.
Proof. now apply frame_selectPanels. Qed.

Lemma anomalies_restoreEquipment a st :
  anomalies (restoreEquipment a st) = anomalies st.
Proof. now apply frame_restoreEquipment. Qed.

Lemma randoms_restoreEquipment a st :
  randoms (restoreEquipment a st) = randoms st.
Proof. now apply frame_restoreEquipment. Qed.

Lemma anomalyOverrides_restoreEquipment a st :
  anomalyOverrides (restoreEquipment a st) = anomalyOverrides st.
Proof. now apply frame_restoreEquipment. Qed.

#[local] Hint Rewrite
  anomalies_selectPanels randoms_selectPanels anomalyOverrides_selectPanels
  anomalies_restoreEquipment randoms_restoreEquipment
  anomalyOverrides_restoreEquipment
  : frame.

(** ** Writing to one position of [state.anomalies] *)

Lemma updateAt_length {A : Type} (f : A -> A) (l : list A) :
  forall i, List.length (updateAt i f l) = List.length l.
Proof.
  induction l as [|x l IH]; intros [|i]; cbn [updateAt List.length];
    auto.
Qed.

Lemma updateAt_same {A : Type} (f : A -> A) (l : list A) :
  forall i, nth_error (updateAt i f l) i = option_map f (nth_error l i).
Proof.
  induction l as [|x l IH]; intros [|i]; cbn [updateAt nth_error option_map];
    auto.
Qed.

Lemma updateAt_other {A : Type} (f : A -> A) (l : list A) :
  forall i j, i <> j -> nth_error (updateAt i f l) j = nth_error l j.
Proof.
  induction l as [|x l IH]; intros [|i] [|j] H; cbn [updateAt nth_error];
    try reflexivity; try congruence.
  apply IH. lia.
Qed.

Lemma updateAt_agree {A : Type} (f g : A -> A) (l : list A) :
  forall i x, nth_error l i = Some x -> f x = g x ->
              updateAt i f l = updateAt i g l.
Proof.
  induction l as [|y l IH]; intros [|i] x H E; cbn [updateAt nth_error] in *;
    try discriminate.
  - injection H as ->. now rewrite E.
  - f_equal. eapply IH; eassumption.
Qed.

Lemma updateAt_fixed {A : Type} (f : A -> A) (l : list A) :
  forall i x, nth_error l i = Some x -> f x = x -> updateAt i f l = l.
Proof.
  induction l as [|y l IH]; intros [|i] x H E; cbn [updateAt nth_error] in *;
    try discriminate.
  - injection H as ->. now rewrite E.
  - f_equal. eapply IH; eassumption.
Qed.

Lemma updateAt_app {A : Type} (f : A -> A) (l extra : list A) :
  forall i, (i < List.length l)%nat ->
            updateAt i f (l ++ extra) = updateAt i f l ++ extra.
Proof.
  induction l as [|x l IH]; intros i H; cbn [List.length] in H; [lia|].
  destruct i as [|i]; cbn [updateAt app]; [reflexivity|].
  f_equal. apply IH. lia.
Qed.

Lemma updateAt_last {A : Type} (f : A -> A) (l : list A) (x : A) :
  updateAt (List.length l) f (l ++ [x]) = l ++ [f x].
Proof.
  induction l as [|y l IH]; cbn [List.length updateAt app];
    [reflexivity | now rewrite IH].
Qed.

Lemma Forall_updateAt {A : Type} (P : A -> Prop) (f : A -> A) (l : list A) :
  forall i,
    Forall P l ->
    (forall x, nth_error l i = Some x -> P (f x)) ->
    Forall P (updateAt i f l).
Proof.
  induction l as [|y l IH]; intros i Hl Hf; [destruct i; constructor|].
  inversion Hl as [|? ? Hy Hl']; subst.
  destruct i as [|i]; cbn [updateAt]; constructor; auto.
Qed.

(** ** What each creation path appends *)

Lemma cascade_appends (now : Z) (st : State) :
  exists a,
    anomalies (generateDustAccumulationAfterStorm now st)
    = anomalies st ++ [a] /\
    Anomaly.id a = now /\ Anomaly.type a = DustAccumulation /\
    justCreated now a /\
    Anomaly.affectedEquipment a
    = Some (fst (selectPanels
                   (roundsOf (Qfloor (randoms st (drawn st) * inject_Z 5) + 4)
                             (panelIdsOf st))
                   (panelIdsOf st) (stormDustClaim now) []
                   (setDrawn (S (drawn st)) st))).
Proof.
  unfold generateDustAccumulationAfterStorm. rewrite randomBelow_eq.
  cbn [Anomaly.id].
  destruct (selectPanels _ _ _ _ _) as [affected st2] eqn:E.
  eexists. autorewrite with frame.
  pose proof (anomalies_selectPanels
                (roundsOf (Qfloor (randoms st (drawn st) * inject_Z 5) + 4)
                          (panelIdsOf st))
                (panelIdsOf st) (stormDustClaim now) []
                (setDrawn (S (drawn st)) st)) as Ha.
  rewrite E in Ha. cbn [snd] in Ha. rewrite Ha. autorewrite with frame.
  split; [reflexivity|]. repeat split.
Qed.

Lemma manual_appends (now : Z) (ty : AnomalyType) (st : State) :
  exists a,
    anomalies (generateAnomaly now (Some ty) st) = anomalies st ++ [a] /\
    Anomaly.id a = now /\ Anomaly.type a = ty /\ justCreated now a.
Proof.
  unfold generateAnomaly. rewrite !randomBelow_eq.
  destruct ty; cbn [anomalyTypes Anomaly.id firstNumber];
    rewrite ?randomBelow_eq.
  - (* panel-fault *)
    destruct (selectPanels _ _ _ _ _) as [affected t5] eqn:E.
    apply (f_equal snd) in E. cbn [snd] in E.
    apply (f_equal anomalies) in E. rewrite anomalies_selectPanels in E.
    autorewrite with frame in E. symmetry in E.
    eexists. autorewrite with frame. rewrite E.
    rewrite updateAt_last. split; [reflexivity|]. repeat split.
  - (* dust-accumulation *)
    destruct (selectPanels _ _ _ _ _) as [affected t5] eqn:E.
    apply (f_equal snd) in E. cbn [snd] in E.
    apply (f_equal anomalies) in E. rewrite anomalies_selectPanels in E.
    autorewrite with frame in E. symmetry in E.
    eexists. autorewrite with frame. rewrite E.
    rewrite updateAt_last. split; [reflexivity|]. repeat split.
  - (* dust-storm *)
    eexists. autorewrite with frame. split; [reflexivity|]. repeat split.
  - (* inverter-overload *)
    match goal with
    | |- context [eqLookup ?i ?m] => destruct (eqLookup i m)
    end; eexists; autorewrite with frame; rewrite updateAt_last;
      (split; [reflexivity|]); repeat split.
  - (* cloud-cover *)
    eexists. autorewrite with frame. split; [reflexivity|]. repeat split.
Qed.

Lemma triggered_appends (now : Z) (ty : AnomalyType) (equipmentId : EquipId)
      (st : State) :
  nonEnvironmental ty = true ->
  exists a,
    anomalies (generateAnomalyForEquipment now ty equipmentId st)
    = anomalies st ++ [a] /\
    Anomaly.id a = (Z.of_nat (List.length (anomalies st)) + 1)%Z /\
    Anomaly.type a = ty /\ justCreated now a /\
    Anomaly.affectedEquipment a = Some [equipmentId].
Proof.
  intros Hty. unfold generateAnomalyForEquipment. rewrite !randomBelow_eq.
  destruct ty; try discriminate Hty; cbn [equipmentAnomalyTypes];
    eexists; autorewrite with frame;
    (split; [reflexivity|]); repeat split.
Qed.

Lemma triggered_environmental (now : Z) (ty : AnomalyType)
      (equipmentId : EquipId) (st : State) :
  nonEnvironmental ty = false ->
  anomalies (generateAnomalyForEquipment now ty equipmentId st)
  = anomalies st /\
  equipmentHealth (generateAnomalyForEquipment now ty equipmentId st)
  = equipmentHealth st /\
  randoms (generateAnomalyForEquipment now ty equipmentId st) = randoms st.
Proof.
  intros Hty. unfold generateAnomalyForEquipment. rewrite !randomBelow_eq.
  destruct ty; try discriminate Hty; cbn [equipmentAnomalyTypes];
    repeat split.
Qed.

(** ** The sweep, one anomaly at a time *)

Lemma anomalies_escalationAlert now a level t st :
  anomalies (escalationAlert now a level t st) = anomalies st.
Proof.
  unfold escalationAlert.
  repeat match goal with |- context [if ?c then _ else _] => destruct c end;
    reflexivity.
Qed.

Lemma equipmentHealth_escalationAlert now a level t st :
  equipmentHealth (escalationAlert now a level t st) = equipmentHealth st.
Proof.
  unfold escalationAlert.
  repeat match goal with |- context [if ?c then _ else _] => destruct c end;
    reflexivity.
Qed.

Lemma randoms_escalationAlert now a level t st :
  randoms (escalationAlert now a level t st) = randoms st.
Proof.
  unfold escalationAlert.
  repeat match goal with |- context [if ?c then _ else _] => destruct c end;
    reflexivity.
Qed.

Lemma anomalyOverrides_escalationAlert now a level t st :
  anomalyOverrides (escalationAlert now a level t st) = anomalyOverrides st.
Proof.
  unfold escalationAlert.
  repeat match goal with |- context [if ?c then _ else _] => destruct c end;
    reflexivity.
Qed.

Lemma drawn_escalationAlert now a level t st :
  drawn (escalationAlert now a level t st) = drawn st.
Proof.
  unfold escalationAlert.
  repeat match goal with |- context [if ?c then _ else _] => destruct c end;
    reflexivity.
Qed.

#[local] Hint Rewrite
  anomalies_escalationAlert
  equipmentHealth_escalationAlert
  randoms_escalationAlert
  anomalyOverrides_escalationAlert
  drawn_escalationAlert
  : frame.

Lemma checkedAnomaly_resolves (now : Z) (a : Anomaly.t) :
  Anomaly.active a = true ->
  Qle_bool 200 (elapsedSeconds now (Anomaly.timestamp a)) = true ->
  checkedAnomaly now a = markResolved now ByAutoTimeout a.
Proof. intros Ha Ht. unfold checkedAnomaly. now rewrite Ha, Ht. Qed.

Lemma checkAnomaly_out_of_range (now : Z) (st : State) (i : nat) :
  nth_error (anomalies st) i = None -> checkAnomaly now st i = st.
Proof. intros H. unfold checkAnomaly. now rewrite H. Qed.

Lemma checkAnomaly_anomalies (now : Z) (st : State) (i : nat)
      (a : Anomaly.t) :
  nth_error (anomalies st) i = Some a ->
  exists extra,
    anomalies (checkAnomaly now st i)
    = updateAt i (checkedAnomaly now) (anomalies st) ++ extra /\
    (extra = [] \/
     stormTimesOut now a = true /\
     exists c, extra = [c] /\ Anomaly.id c = now /\
               Anomaly.type c = DustAccumulation /\ justCreated now c).
Proof.
  intros Hi. unfold checkAnomaly. rewrite Hi.
  assert (Hsame : checkedAnomaly now a = a ->
                  updateAt i (checkedAnomaly now) (anomalies st)
                  = anomalies st).
  { intros E. eapply updateAt_fixed; eassumption. }
  unfold stormTimesOut.
  destruct (Anomaly.active a) eqn:Eact.
  2:{ exists []. rewrite app_nil_r. split; [|now left].
      symmetry. apply Hsame. unfold checkedAnomaly. now rewrite Eact. }
  destruct (Qle_bool 200 (elapsedSeconds now (Anomaly.timestamp a)))
    eqn:E200.
  - (* timed out *)
    assert (Hres := checkedAnomaly_resolves now a Eact E200).
    assert (Hupd : updateAt i (checkedAnomaly now) (anomalies st)
                   = updateAt i (markResolved now ByAutoTimeout)
                              (anomalies st)).
    { eapply updateAt_agree; eassumption. }
    rewrite Hupd. unfold clearEffects, isEnvironmental.
    destruct (Anomaly.type a) eqn:Ety; cbn [nonEnvironmental negb andb].
    + exists []. autorewrite with frame. rewrite app_nil_r. now split; [|left].
    + exists []. autorewrite with frame. rewrite app_nil_r. now split; [|left].
    + match goal with
      | |- context [generateDustAccumulationAfterStorm now ?s] =>
          destruct (cascade_appends now s) as (c & Hc & Hid & Hty & Hnew & _)
      end.
      exists [c]. rewrite Hc. autorewrite with frame.
      split; [reflexivity|]. right. split; [reflexivity|].
      exists c. auto.
    + exists []. autorewrite with frame. rewrite app_nil_r. now split; [|left].
    + exists []. autorewrite with frame. rewrite app_nil_r. now split; [|left].
  - (* still running *)
    exists []. rewrite app_nil_r. split; [|now left].
    assert (Hval : checkedAnomaly now a
                   = if Qle_bool 60 (elapsedSeconds now
                                       (Anomaly.lastEscalation a))
                        && (Anomaly.escalationLevel a <? 3)%Z
                        && (Anomaly.escalationLevel a
                            <? maxEscalationOf (Anomaly.type a))%Z
                     then withLastEscalation now
                            (withEscalationLevel
                               (Anomaly.escalationLevel a + 1) a)
                     else a).
    { unfold checkedAnomaly. now rewrite Eact, E200. }
    destruct (Qle_bool 60 _ && (Anomaly.escalationLevel a <? 3)%Z);
      cbn [andb] in Hval; [|symmetry; now apply Hsame].
    destruct (Anomaly.escalationLevel a <? maxEscalationOf _)%Z;
      [|symmetry; now apply Hsame].
    autorewrite with frame.
    eapply updateAt_agree; [exact Hi | now rewrite Hval].
Qed.

Lemma sweepPrefix_succ (now : Z) (k : nat) (st : State) :
  sweepPrefix now (S k) st = checkAnomaly now (sweepPrefix now k st) k.
Proof.
  unfold sweepPrefix. rewrite seq_S, fold_left_app. reflexivity.
Qed.

Lemma sweepPrefix_anomalies (now : Z) (st : State) :
  forall k,
    (k <= List.length (anomalies st))%nat ->
    (forall j a,
        nth_error (anomalies st) j = Some a ->
        nth_error (anomalies (sweepPrefix now k st)) j
        = Some (if (j <? k)%nat then checkedAnomaly now a else a)) /\
    (forall j c,
        (List.length (anomalies st) <= j)%nat ->
        nth_error (anomalies (sweepPrefix now k st)) j = Some c ->
        cascaded now c).
Proof.
  induction k as [|k IH]; intros Hk.
  - split.
    + intros j a Hj. exact Hj.
    + intros j c Hj Hc. apply nth_error_None in Hj.
      unfold sweepPrefix in Hc. cbn [seq fold_left] in Hc. congruence.
  - destruct IH as [IHold IHnew]; [lia|].
    destruct (nth_error (anomalies st) k) as [ak|] eqn:Ek;
      [|apply nth_error_None in Ek; lia].
    assert (Hcur := IHold k ak Ek). rewrite Nat.ltb_irrefl in Hcur.
    destruct (checkAnomaly_anomalies now _ _ _ Hcur)
      as (extra & Hshape & Hex).
    rewrite sweepPrefix_succ, Hshape.
    set (cur := anomalies (sweepPrefix now k st)) in *.
    assert (Hlen : (List.length (anomalies st) <= List.length cur)%nat).
    { destruct (Nat.le_gt_cases (List.length (anomalies st))
                                (List.length cur)) as [H|H]; [exact H|].
      destruct (nth_error (anomalies st) (List.length cur)) as [x|] eqn:Ex;
        [|apply nth_error_None in Ex; lia].
      apply IHold in Ex.
      assert (nth_error cur (List.length cur) = None)
        by (apply nth_error_None; lia).
      congruence. }
    split.
    + intros j a Hj.
      assert (Hjl : (j < List.length (anomalies st))%nat)
        by (apply nth_error_Some; congruence).
      rewrite nth_error_app1 by (rewrite updateAt_length; lia).
      destruct (Nat.eq_dec k j) as [->|Hne].
      * rewrite updateAt_same, Hcur.
        replace (j <? S j)%nat with true by (symmetry; apply Nat.ltb_lt; lia).
        cbn [option_map]. congruence.
      * rewrite updateAt_other by exact Hne. rewrite (IHold j a Hj).
        destruct (Nat.ltb_spec j k), (Nat.ltb_spec j (S k));
          try reflexivity; lia.
    + intros j c Hj Hc.
      destruct (Nat.lt_ge_cases j (List.length cur)) as [Hin|Hout].
      * rewrite nth_error_app1 in Hc by (rewrite updateAt_length; lia).
        rewrite updateAt_other in Hc by lia. eapply IHnew; eassumption.
      * rewrite nth_error_app2 in Hc by (rewrite updateAt_length; lia).
        rewrite updateAt_length in Hc.
        destruct Hex as [->|(_ & c' & -> & Hc')].
        -- destruct (j - List.length cur)%nat; discriminate.
        -- destruct (j - List.length cur)%nat as [|[|n]]; try discriminate.
           injection Hc as <-. exact Hc'.
Qed.

(** After a sweep every anomaly that was there is what [checkedAnomaly]
    makes of it, at the same position. *)
Lemma checkAnomalies_anomalies (now : Z) (st : State) (i : nat)
      (a : Anomaly.t) :
  nth_error (anomalies st) i = Some a ->
  nth_error (anomalies (checkAnomalies now st)) i
  = Some (checkedAnomaly now a).
Proof.
  intros Hi. unfold checkAnomalies, sweepAnomalies.
  rewrite anomalies_updateSimulation.
  destruct (sweepPrefix_anomalies now st (List.length (anomalies st)))
    as [Hold _]; [lia|].
  unfold sweepPrefix in Hold. rewrite (Hold i a Hi).
  replace (i <? List.length (anomalies st))%nat with true; [reflexivity|].
  symmetry. apply Nat.ltb_lt. apply nth_error_Some. congruence.
Qed.

Lemma checkedAnomaly_escalation (now : Z) (a : Anomaly.t) :
  Anomaly.escalationLevel (checkedAnomaly now a) = Anomaly.escalationLevel a
  \/
  Anomaly.escalationLevel (checkedAnomaly now a)
  = (Anomaly.escalationLevel a + 1)%Z /\
  Anomaly.lastEscalation (checkedAnomaly now a) = now /\
  (Anomaly.escalationLevel a < maxEscalationOf (Anomaly.type a))%Z /\
  Anomaly.active a = true /\
  Qle_bool 200 (elapsedSeconds now (Anomaly.timestamp a)) = false.
Proof.
  unfold checkedAnomaly.
  destruct (Anomaly.active a); [|now left].
  destruct (Qle_bool 200 _); [now left|].
  destruct (Qle_bool 60 _); cbn [andb]; [|now left].
  destruct (Anomaly.escalationLevel a <? 3)%Z; cbn [andb]; [|now left].
  destruct (Z.ltb_spec (Anomaly.escalationLevel a)
                       (maxEscalationOf (Anomaly.type a))); [|now left].
  right. repeat split. assumption.
Qed.

Lemma checkedAnomaly_type (now : Z) (a : Anomaly.t) :
  Anomaly.type (checkedAnomaly now a) = Anomaly.type a.
Proof.
  unfold checkedAnomaly.
  repeat match goal with |- context [if ?c then _ else _] => destruct c end;
    reflexivity.
Qed.

Lemma withinEscalationCap_iff (a : Anomaly.t) :
  withinEscalationCap a
  <-> (0 <= Anomaly.escalationLevel a <= maxEscalationOf (Anomaly.type a))%Z.
Proof.
  unfold withinEscalationCap, maxEscalationOf, isEnvironmental.
  destruct (Anomaly.type a); cbn [nonEnvironmental negb]; tauto.
Qed.

Lemma checkedAnomaly_cap (now : Z) (a : Anomaly.t) :
  withinEscalationCap a -> withinEscalationCap (checkedAnomaly now a).
Proof.
  rewrite !withinEscalationCap_iff, checkedAnomaly_type.
  destruct (checkedAnomaly_escalation now a) as [->|(-> & _ & H & _)]; lia.
Qed.

Lemma justCreated_cap (now : Z) (a : Anomaly.t) :
  justCreated now a -> withinEscalationCap a.
Proof.
  intros (_ & H & _). apply withinEscalationCap_iff. rewrite H.
  unfold maxEscalationOf. destruct (isEnvironmental _); lia.
Qed.

(** ** Handlers that leave anomalies and equipment alone *)

Lemma core_eq (st st' : State) :
  anomalies st' = anomalies st ->
  equipmentHealth st' = equipmentHealth st ->
  randoms st' = randoms st ->
  core st' = core st.
Proof. unfold core. now intros -> -> ->. Qed.

Ltac core_frame :=
  apply core_eq;
  rewrite ?random_eq, ?randomBelow_eq;
  repeat match goal with
         | |- context [if ?c then _ else _] => destruct c
         | |- context [match ?x with _ => _ end] => destruct x
         end;
  autorewrite with frame; reflexivity.

Lemma core_tick (now : Z) (st : State) : core (tick now st) = core st.
Proof. unfold tick. core_frame. Qed.

Lemma core_updateEnvironmentalFactors (now : Z) (st : State) :
  core (updateEnvironmentalFactors now st) = core st.
Proof. unfold updateEnvironmentalFactors. core_frame. Qed.

Lemma core_pickEvent (now : Z) (events : list (string * Severity))
      (st : State) :
  core (pickEvent now events st) = core st.
Proof. unfold pickEvent. core_frame. Qed.

Lemma core_setDrawn (n : nat) (st : State) : core (setDrawn n st) = core st.
Proof. reflexivity. Qed.

Lemma core_generateRandomEvent (now : Z) (st : State) :
  core (generateRandomEvent now st) = core st.
Proof.
  unfold generateRandomEvent. rewrite !random_eq.
  repeat match goal with
         | |- context [if ?c then _ else _] => destruct c
         end;
    rewrite ?core_pickEvent; reflexivity.
Qed.

Lemma core_advanceTime (now : Z) (st : State) :
  core (advanceTime now st) = core st.
Proof. unfold advanceTime. core_frame. Qed.

Lemma core_toggleManualControl (now : Z) (checked : bool) (st : State) :
  core (toggleManualControl now checked st) = core st.
Proof. unfold toggleManualControl. core_frame. Qed.

Lemma core_resetEnvironment (now : Z) (st : State) :
  core (resetEnvironment now st) = core st.
Proof. unfold resetEnvironment. core_frame. Qed.

Lemma core_updateFactor (now : Z) (factor : Factor) (numValue : R)
      (st : State) :
  core (updateFactor now factor numValue st) = core st.
Proof. unfold updateFactor. core_frame. Qed.

Lemma core_anomalies (st st' : State) :
  core st' = core st -> anomalies st' = anomalies st.
Proof. unfold core. congruence. Qed.

Lemma core_equipmentHealth (st st' : State) :
  core st' = core st -> equipmentHealth st' = equipmentHealth st.
Proof. unfold core. congruence. Qed.

Lemma core_randoms (st st' : State) :
  core st' = core st -> randoms st' = randoms st.
Proof. unfold core. congruence. Qed.

Lemma fold_left_frame {X B : Type} (proj : State -> X)
      (f : State -> B -> State) (l : list B) :
  (forall s x, proj (f s x) = proj s) ->
  forall st, proj (fold_left f l st) = proj st.
Proof.
  intros Hf. induction l as [|x l IH]; intros st; [reflexivity|].
  cbn [fold_left]. now rewrite IH, Hf.
Qed.

Lemma anomalies_initializeSystemState (now : Z) (preserveLogs : bool)
      (st : State) :
  anomalies (initializeSystemState now preserveLogs st) = [].
Proof.
  unfold initializeSystemState. rewrite anomalies_log.
  destruct preserveLogs;
    match goal with
    | |- context [fold_left resetUnit ?l ?s] =>
        destruct (manualEnvironmentControl (fold_left resetUnit l s));
          cbn [anomalies setLogs setAnomalyOverrides setEnvironmentalFactors];
          rewrite (fold_left_frame anomalies resetUnit l)
            by (intros; now apply frame_resetUnit)
    end; reflexivity.
Qed.

Lemma clearEffects_anomalies (now : Z) (a : Anomaly.t) (st : State) :
  exists extra,
    anomalies (clearEffects now a st) = anomalies st ++ extra /\
    (extra = [] \/
     Anomaly.type a = DustStorm /\ exists c, extra = [c] /\ cascaded now c).
Proof.
  unfold clearEffects.
  destruct (Anomaly.type a) eqn:Ety;
    try (exists []; autorewrite with frame; rewrite app_nil_r;
         split; [reflexivity | now left]).
  match goal with
  | |- context [generateDustAccumulationAfterStorm now ?s] =>
      destruct (cascade_appends now s) as (c & Hc & Hid & Hty & Hnew & _)
  end.
  exists [c]. rewrite Hc. autorewrite with frame.
  split; [reflexivity|]. right. split; [reflexivity|].
  exists c. unfold cascaded. auto.
Qed.

(** ** The escalation level stays under its cap *)

Lemma cap_core (st st' : State) :
  core st' = core st -> capInv st -> capInv st'.
Proof. unfold capInv. intros H. now rewrite (core_anomalies _ _ H). Qed.

Lemma cap_append (l : list Anomaly.t) (now : Z) (a : Anomaly.t) :
  Forall withinEscalationCap l -> justCreated now a ->
  Forall withinEscalationCap (l ++ [a]).
Proof.
  intros Hl Ha. apply Forall_app. split; [exact Hl|].
  constructor; [eapply justCreated_cap; exact Ha | constructor].
Qed.

Lemma markResolved_cap (now : Z) (by_ : Resolver) (a : Anomaly.t) :
  withinEscalationCap a -> withinEscalationCap (markResolved now by_ a).
Proof. exact (fun H => H). Qed.

Lemma cap_checkAnomaly (now : Z) (st : State) (i : nat) :
  capInv st -> capInv (checkAnomaly now st i).
Proof.
  intros H. destruct (nth_error (anomalies st) i) as [a|] eqn:Hi.
  - destruct (checkAnomaly_anomalies now _ _ _ Hi)
      as (extra & Hshape & Hex).
    unfold capInv. rewrite Hshape. apply Forall_app. split.
    + apply Forall_updateAt; [exact H|]. intros x Hx.
      apply checkedAnomaly_cap. eapply Forall_forall; [exact H|].
      eapply nth_error_In; exact Hx.
    + destruct Hex as [->|(_ & c & -> & _ & _ & Hc)]; [constructor|].
      constructor; [eapply justCreated_cap; exact Hc | constructor].
  - now rewrite checkAnomaly_out_of_range.
Qed.

Lemma cap_checkAnomalies (now : Z) (st : State) :
  capInv st -> capInv (checkAnomalies now st).
Proof.
  intros H. unfold checkAnomalies, capInv.
  rewrite anomalies_updateSimulation.
  apply (fold_left_invariant capInv); [|exact H].
  intros s i. apply cap_checkAnomaly.
Qed.

Lemma cap_correctAnomaly (now anomalyId : Z) (st : State) :
  capInv st -> capInv (correctAnomaly now anomalyId st).
Proof.
  intros H. unfold correctAnomaly.
  destruct (findById anomalyId 0 (anomalies st)) as [[i a]|]; [|exact H].
  destruct (Anomaly.active a); [|exact H].
  unfold capInv. rewrite anomalies_updateSimulation.
  match goal with
  | |- context [clearEffects now a ?s] =>
      destruct (clearEffects_anomalies now a s) as (extra & -> & Hex)
  end.
  autorewrite with frame. apply Forall_app. split.
  - apply Forall_updateAt; [exact H|]. intros x Hx.
    apply markResolved_cap. eapply Forall_forall; [exact H|].
    eapply nth_error_In; exact Hx.
  - destruct Hex as [->|(_ & c & -> & _ & _ & Hc)]; [constructor|].
    constructor; [eapply justCreated_cap; exact Hc | constructor].
Qed.

Lemma cap_generateAnomaly (now : Z) (selected : option AnomalyType)
      (st : State) :
  capInv st -> capInv (generateAnomaly now selected st).
Proof.
  intros H. destruct selected as [ty|]; [|exact H].
  destruct (manual_appends now ty st) as (a & Ha & _ & _ & Hnew).
  unfold capInv. rewrite Ha. eapply cap_append; eassumption.
Qed.

Lemma cap_monitorUnit (now : Z) (st : State) (equipmentId : EquipId) :
  capInv st -> capInv (monitorUnit now st equipmentId).
Proof.
  intros H. unfold monitorUnit.
  destruct (eqLookup equipmentId (equipmentHealth st)) as [e|]; [|exact H].
  destruct (status_eqb _ _ && _); [|exact H].
  destruct (existsb _ _); [exact H|].
  assert (Hgen : forall ty s, nonEnvironmental ty = true ->
                 anomalies s = anomalies st ->
                 capInv (generateAnomalyForEquipment now ty equipmentId s)).
  { intros ty s Hty Hs.
    destruct (triggered_appends now ty equipmentId s Hty)
      as (a & Ha & _ & _ & Hnew & _).
    unfold capInv. rewrite Ha, Hs. eapply cap_append; eassumption. }
  unfold capInv. rewrite random_eq.
  destruct (prefix equipmentId); autorewrite with frame;
    try (apply Hgen; reflexivity).
  destruct (Qltb _ _); apply Hgen; reflexivity.
Qed.

Lemma cap_initial (now : Z) (rs : nat -> Q) : capInv (init now rs).
Proof. constructor. Qed.

Lemma cap_step (st st' : State) : step st st' -> capInv st -> capInv st'.
Proof.
  intros Hstep H. destruct Hstep.
  - eapply cap_core; [apply core_tick | exact H].
  - eapply cap_core; [apply core_updateEnvironmentalFactors | exact H].
  - now apply cap_checkAnomalies.
  - eapply cap_core; [apply core_generateRandomEvent | exact H].
  - unfold monitorEquipmentHealth.
    apply (fold_left_invariant capInv); [|exact H].
    intros s x. apply cap_monitorUnit.
  - unfold capInv, degradeEquipmentHealth.
    rewrite (fold_left_frame anomalies degradeUnit)
      by (intros; now apply frame_degradeUnit).
    exact H.
  - now apply cap_generateAnomaly.
  - now apply cap_correctAnomaly.
  - unfold capInv, handleTimeChange.
    autorewrite with frame. rewrite anomalies_initializeSystemState.
    constructor.
  - unfold capInv, resetTime.
    autorewrite with frame. rewrite anomalies_initializeSystemState.
    constructor.
  - eapply cap_core; [apply core_advanceTime | exact H].
  - eapply cap_core; [apply core_toggleManualControl | exact H].
  - eapply cap_core; [apply core_resetEnvironment | exact H].
  - eapply cap_core; [apply core_updateFactor | exact H].
  - exact H.
  - exact H.
Qed.

Lemma cap_reachable (rs : nat -> Q) (st : State) :
  reachable rs st -> capInv st.
Proof.
  induction 1 as [now|st st' _ IH Hstep];
    [apply cap_initial | eapply cap_step; eassumption].
Qed.

(** C4. In every state the page can reach, the escalation level of an
    anomaly is at most 3 when its type is panel-fault, dust-accumulation or
    inverter-overload and at most 1 when it is dust-storm or cloud-cover,
    however long the anomaly stays active; and whenever a sweep of
    [checkAnomalies] changes the level of an anomaly it raises it by one
    and sets [lastEscalation] to the time of the sweep. *)
Theorem escalation_level_capped (rs : nat -> Q) (st : State) :
  reachable rs st ->
  (forall a,
      In a (anomalies st) ->
      match Anomaly.type a with
      | PanelFault | DustAccumulation | InverterOverload =>
          (Anomaly.escalationLevel a <= 3)%Z
      | DustStorm | CloudCover => (Anomaly.escalationLevel a <= 1)%Z
      end) /\
  (forall now i a a',
      nth_error (anomalies st) i = Some a ->
      nth_error (anomalies (checkAnomalies now st)) i = Some a' ->
      Anomaly.escalationLevel a' <> Anomaly.escalationLevel a ->
      Anomaly.escalationLevel a' = (Anomaly.escalationLevel a + 1)%Z /\
      Anomaly.lastEscalation a' = now).
Proof.
  intros Hreach. split.
  - intros a Ha. apply cap_reachable in Hreach.
    assert (Hcap : withinEscalationCap a)
      by (eapply Forall_forall; eassumption).
    unfold withinEscalationCap in Hcap.
    destruct (Anomaly.type a); lia.
  - intros now i a a' Hi Hi' Hne.
    rewrite (checkAnomalies_anomalies now _ _ _ Hi) in Hi'.
    injection Hi' as <-.
    destruct (checkedAnomaly_escalation now a) as [E|(E & Hl & _)];
      [contradiction | now split].
Qed.

(** Witness of [escalation_level_capped]: the state after the two manual
    anomalies of [doubleClaimRun] and one sweep that escalates both. *)
Lemma escalation_level_capped_witness :
  reachable (drawsFrom doubleClaimDraws) escalatedRun /\
  (forall a,
      In a (anomalies escalatedRun) ->
      match Anomaly.type a with
      | PanelFault | DustAccumulation | InverterOverload =>
          (Anomaly.escalationLevel a <= 3)%Z
      | DustStorm | CloudCover => (Anomaly.escalationLevel a <= 1)%Z
      end).
Proof.
  assert (Hr : reachable (drawsFrom doubleClaimDraws) escalatedRun).
  { unfold escalatedRun, doubleClaimRun.
    eapply ReachStep; [|apply StepCheckAnomalies].
    eapply ReachStep; [|apply StepGenerateAnomaly].
    eapply ReachStep; [|apply StepGenerateAnomaly].
    apply ReachInit. }
  split; [exact Hr|].
  exact (proj1 (escalation_level_capped _ _ Hr)).
Defined.

(** ** The equipment object *)

Lemma prefix_eqb_spec (p q : EquipPrefix) :
  reflect (p = q) (prefix_eqb p q).
Proof. destruct p, q; constructor; congruence. Qed.

Lemma equipId_eqb_spec (a b : EquipId) : reflect (a = b) (equipId_eqb a b).
Proof.
  destruct a as [p i], b as [q j]. unfold equipId_eqb. cbn [prefix index].
  destruct (prefix_eqb_spec p q) as [->|Hp]; cbn [andb].
  - destruct (Z.eqb_spec i j) as [->|Hi]; constructor; congruence.
  - constructor. congruence.
Qed.

Lemma eqLookup_eqUpdate_same (id : EquipId)
      (f : Equipment.t -> Equipment.t) (m : EquipMap) :
  eqLookup id (eqUpdate id f m) = option_map f (eqLookup id m).
Proof.
  induction m as [|[k e] m IH]; [reflexivity|].
  cbn [eqUpdate eqLookup].
  destruct (equipId_eqb k id) eqn:E; cbn [eqLookup]; rewrite E;
    [reflexivity | exact IH].
Qed.

Lemma eqLookup_eqUpdate_other (id id' : EquipId)
      (f : Equipment.t -> Equipment.t) (m : EquipMap) :
  id' <> id -> eqLookup id (eqUpdate id' f m) = eqLookup id m.
Proof.
  intros Hne. induction m as [|[k e] m IH]; [reflexivity|].
  cbn [eqUpdate eqLookup].
  destruct (equipId_eqb_spec k id') as [->|Hk]; cbn [eqLookup].
  - destruct (equipId_eqb_spec id' id); [contradiction | reflexivity].
  - now rewrite IH.
Qed.

Lemma eqUpdate_keys (id : EquipId) (f : Equipment.t -> Equipment.t)
      (m : EquipMap) :
  map fst (eqUpdate id f m) = map fst m.
Proof.
  induction m as [|[k e] m IH]; [reflexivity|].
  cbn [eqUpdate]. destruct (equipId_eqb k id); cbn [map fst];
    [reflexivity | now rewrite IH].
Qed.

Lemma Forall_eqUpdate (P : Equipment.t -> Prop) (id : EquipId)
      (f : Equipment.t -> Equipment.t) (m : EquipMap) :
  (forall e, P e -> P (f e)) ->
  Forall (fun entry => P (snd entry)) m ->
  Forall (fun entry => P (snd entry)) (eqUpdate id f m).
Proof.
  intros Hf. induction 1 as [|[k e] m He Hm IH]; [constructor|].
  cbn [eqUpdate]. destruct (equipId_eqb k id); constructor; auto.
  apply Hf. exact He.
Qed.

Lemma Forall_eqAssign (P : Equipment.t -> Prop) (id : EquipId)
      (e : Equipment.t) (m : EquipMap) :
  P e ->
  Forall (fun entry => P (snd entry)) m ->
  Forall (fun entry => P (snd entry)) (eqAssign id e m).
Proof.
  intros He. induction 1 as [|[k e0] m He0 Hm IH];
    [repeat constructor; exact He|].
  cbn [eqAssign]. destruct (equipId_eqb k id); constructor; auto.
Qed.

(** ** What a claim, a release and a degradation do to the health *)

Lemma Qmax_within (lo x hi : Q) :
  (lo <= hi)%Q -> (x <= hi)%Q ->
  (lo <= Qmax lo x)%Q /\ (Qmax lo x <= hi)%Q.
Proof.
  intros Hlo Hx. split; [apply Q.le_max_l | now apply Q.max_lub].
Qed.

Lemma stormDustClaim_health (anomalyId : Z) (e : Equipment.t) :
  healthWithin 20 100 e -> healthWithin 20 100 (stormDustClaim anomalyId e).
Proof.
  intros [Hlo Hhi]. unfold healthWithin, stormDustClaim.
  cbn [Equipment.health withHealth].
  apply Qmax_within; [discriminate|].
  cbn [Equipment.health withAnomalyRef withIssues withStatus] in *. Lqa.lra.
Qed.

Lemma manualPanelClaim_health (ty : AnomalyType) (anomalyId : Z)
      (e : Equipment.t) :
  healthWithin 20 100 e ->
  healthWithin 20 100 (manualPanelClaim ty anomalyId e).
Proof.
  intros [Hlo Hhi]. unfold healthWithin, manualPanelClaim.
  cbn [Equipment.health withHealth].
  apply Qmax_within; [discriminate|].
  destruct ty;
    cbn [Equipment.health withAnomalyRef withIssues withStatus] in *; Lqa.lra.
Qed.

Lemma manualInverterClaim_health (anomalyId : Z) (e : Equipment.t) :
  healthWithin 20 100 e ->
  healthWithin 30 100 (manualInverterClaim anomalyId e).
Proof.
  intros [Hlo Hhi]. unfold healthWithin, manualInverterClaim.
  cbn [Equipment.health withHealth].
  apply Qmax_within; [discriminate|].
  cbn [Equipment.health withAnomalyRef withIssues withStatus] in *. Lqa.lra.
Qed.

Lemma equipmentClaim_health (ty : AnomalyType) (anomalyId : Z)
      (e : Equipment.t) :
  healthWithin 20 100 e ->
  healthWithin (match ty with InverterOverload => 30 | _ => 20 end) 100
               (equipmentClaim ty anomalyId e).
Proof.
  intros [Hlo Hhi]. unfold healthWithin, equipmentClaim.
  destruct ty; cbn [Equipment.health withHealth]; try (split; assumption);
    (apply Qmax_within; [discriminate|]);
    cbn [Equipment.health withAnomalyRef withIssues withStatus] in *; Lqa.lra.
Qed.

Lemma healthWithin_weaken (lo lo' hi : Q) (e : Equipment.t) :
  (lo <= lo')%Q -> healthWithin lo' hi e -> healthWithin lo hi e.
Proof.
  intros H [Hlo Hhi]. split; [|exact Hhi]. eapply Qle_trans; eassumption.
Qed.

Lemma releaseTo_released (r : Q) (e : Equipment.t) :
  (0 <= r)%Q /\ (r < 1)%Q -> released (releaseTo r e).
Proof.
  intros [H0 H1]. unfold released, releaseTo, healthWithin.
  cbn [Equipment.status Equipment.anomaly Equipment.issues Equipment.health
       withHealth withIssues withAnomalyRef withStatus].
  repeat split; Lqa.lra.
Qed.

Lemma released_health (e : Equipment.t) :
  released e -> healthWithin 20 100 e.
Proof.
  intros (_ & _ & _ & H). eapply healthWithin_weaken; [|exact H].
  discriminate.
Qed.

Lemma resetTo_health (r : Q) (e : Equipment.t) :
  (0 <= r)%Q /\ (r < 1)%Q -> healthWithin 95 100 (resetTo r e).
Proof.
  intros [H0 H1]. unfold resetTo, healthWithin.
  cbn [Equipment.health withHealth withIssues withAnomalyRef withStatus].
  split; Lqa.lra.
Qed.

Lemma freshEquipment_health (id : EquipId) (r : Q) :
  (0 <= r)%Q /\ (r < 1)%Q -> healthWithin 95 100 (freshEquipment id r).
Proof.
  intros [H0 H1]. unfold freshEquipment, healthWithin.
  cbn [Equipment.health]. split; Lqa.lra.
Qed.

(** A degradation takes between 0.1 and 0.5 off, and never goes below
    75. *)
Lemma degradeBy_health (r : Q) (e : Equipment.t) :
  (0 <= r)%Q /\ (r < 1)%Q ->
  (75 <= Equipment.health (degradeBy r e))%Q /\
  (Equipment.health e - (5 # 10) <= Equipment.health (degradeBy r e))%Q /\
  (Equipment.health (degradeBy r e) <= Qmax 75 (Equipment.health e))%Q.
Proof.
  intros [H0 H1]. unfold degradeBy. cbn [Equipment.health withHealth].
  split; [apply Q.le_max_l|]. split.
  - eapply Qle_trans; [|apply Q.le_max_r]. Lqa.lra.
  - apply Q.max_le_compat_l. Lqa.lra.
Qed.

Lemma degradeBy_within (r : Q) (e : Equipment.t) :
  (0 <= r)%Q /\ (r < 1)%Q ->
  healthWithin 20 100 e -> healthWithin 20 100 (degradeBy r e).
Proof.
  intros Hr [Hlo Hhi].
  destruct (degradeBy_health r e Hr) as (H75 & _ & Hmax). split.
  - eapply Qle_trans; [|exact H75]. discriminate.
  - eapply Qle_trans; [exact Hmax|]. apply Q.max_lub; [discriminate|].
    exact Hhi.
Qed.

(** ** The stream behind [Math.random()] is never replaced *)

Ltac split_selectPanels :=
  match goal with
  | |- context [selectPanels ?r ?p ?c ?a ?s] =>
      let Hr := fresh "Hrandoms" in
      let Ha := fresh "Hanomalies" in
      let Ho := fresh "Hoverrides" in
      pose proof (randoms_selectPanels r p c a s) as Hr;
      pose proof (anomalies_selectPanels r p c a s) as Ha;
      pose proof (anomalyOverrides_selectPanels r p c a s) as Ho;
      destruct (selectPanels r p c a s) as [? ?]; cbn [fst snd] in Hr, Ha, Ho
  end.

Lemma randoms_cascade (now : Z) (st : State) :
  randoms (generateDustAccumulationAfterStorm now st) = randoms st.
Proof.
  unfold generateDustAccumulationAfterStorm. rewrite randomBelow_eq.
  split_selectPanels. autorewrite with frame. exact Hrandoms.
Qed.

Lemma anomalyOverrides_cascade (now : Z) (st : State) :
  anomalyOverrides (generateDustAccumulationAfterStorm now st)
  = anomalyOverrides st.
Proof.
  unfold generateDustAccumulationAfterStorm. rewrite randomBelow_eq.
  split_selectPanels. autorewrite with frame. exact Hoverrides.
Qed.

#[local] Hint Rewrite randoms_cascade anomalyOverrides_cascade : frame.

Lemma randoms_clearEffects (now : Z) (a : Anomaly.t) (st : State) :
  randoms (clearEffects now a st) = randoms st.
Proof.
  unfold clearEffects. destruct (Anomaly.type a);
    autorewrite with frame; reflexivity.
Qed.

#[local] Hint Rewrite randoms_clearEffects : frame.

Lemma randoms_checkAnomaly (now : Z) (st : State) (i : nat) :
  randoms (checkAnomaly now st i) = randoms st.
Proof.
  unfold checkAnomaly.
  repeat match goal with
         | |- context [if ?c then _ else _] => destruct c
         | |- context [match nth_error ?l ?i with _ => _ end] =>
             destruct (nth_error l i)
         end;
    autorewrite with frame; reflexivity.
Qed.

Lemma randoms_checkAnomalies (now : Z) (st : State) :
  randoms (checkAnomalies now st) = randoms st.
Proof.
  unfold checkAnomalies, sweepAnomalies. rewrite randoms_updateSimulation.
  apply (fold_left_frame randoms). intros. apply randoms_checkAnomaly.
Qed.

Lemma randoms_correctAnomaly (now anomalyId : Z) (st : State) :
  randoms (correctAnomaly now anomalyId st) = randoms st.
Proof.
  unfold correctAnomaly.
  destruct (findById _ _ _) as [[i a]|]; [|reflexivity].
  destruct (Anomaly.active a); autorewrite with frame; reflexivity.
Qed.

Lemma randoms_generateAnomaly (now : Z) (selected : option AnomalyType)
      (st : State) :
  randoms (generateAnomaly now selected st) = randoms st.
Proof.
  unfold generateAnomaly. destruct selected as [ty|]; [|reflexivity].
  rewrite !randomBelow_eq.
  destruct ty; cbn [anomalyTypes Anomaly.id firstNumber];
    rewrite ?randomBelow_eq; try split_selectPanels;
    try match goal with
        | |- context [eqLookup ?i ?m] => destruct (eqLookup i m)
        end;
    autorewrite with frame; try assumption; reflexivity.
Qed.

Lemma randoms_triggered (now : Z) (ty : AnomalyType) (equipmentId : EquipId)
      (st : State) :
  randoms (generateAnomalyForEquipment now ty equipmentId st) = randoms st.
Proof.
  unfold generateAnomalyForEquipment. rewrite !randomBelow_eq.
  destruct ty; cbn [equipmentAnomalyTypes]; autorewrite with frame;
    reflexivity.
Qed.

Lemma randoms_monitorUnit (now : Z) (st : State) (equipmentId : EquipId) :
  randoms (monitorUnit now st equipmentId) = randoms st.
Proof.
  unfold monitorUnit. rewrite random_eq.
  repeat match goal with
         | |- context [if ?c then _ else _] => destruct c
         | |- context [match eqLookup ?i ?m with _ => _ end] =>
             destruct (eqLookup i m)
         | |- context [match prefix ?i with _ => _ end] =>
             destruct (prefix i)
         end;
    autorewrite with frame; rewrite ?randoms_triggered; reflexivity.
Qed.

Lemma randoms_initializeSystemState (now : Z) (preserveLogs : bool)
      (st : State) :
  randoms (initializeSystemState now preserveLogs st) = randoms st.
Proof.
  unfold initializeSystemState. rewrite randoms_log.
  destruct preserveLogs;
    match goal with
    | |- context [fold_left resetUnit ?l ?s] =>
        destruct (manualEnvironmentControl (fold_left resetUnit l s));
          cbn [randoms setLogs setAnomalyOverrides setEnvironmentalFactors];
          rewrite (fold_left_frame randoms resetUnit l)
            by (intros; now apply frame_resetUnit)
    end; reflexivity.
Qed.

Lemma randoms_initializeUnits (p : EquipPrefix) (todo : nat) :
  forall i st, randoms (initializeUnits p i todo st) = randoms st.
Proof.
  induction todo as [|n IH]; intros i st; [reflexivity|].
  cbn [initializeUnits]. rewrite random_eq, IH. reflexivity.
Qed.

Lemma randoms_init (now : Z) (rs : nat -> Q) : randoms (init now rs) = rs.
Proof.
  unfold init, initializeEquipment, equipmentTypes.
  rewrite randoms_log. cbn [fold_left fst snd].
  now rewrite !randoms_initializeUnits.
Qed.

Lemma randoms_step (st st' : State) : step st st' -> randoms st' = randoms st.
Proof.
  intros Hstep. destruct Hstep.
  - apply core_randoms, core_tick.
  - apply core_randoms, core_updateEnvironmentalFactors.
  - apply randoms_checkAnomalies.
  - apply core_randoms, core_generateRandomEvent.
  - unfold monitorEquipmentHealth.
    apply (fold_left_frame randoms). intros. apply randoms_monitorUnit.
  - unfold degradeEquipmentHealth.
    rewrite (fold_left_frame randoms degradeUnit)
      by (intros; now apply frame_degradeUnit).
    reflexivity.
  - apply randoms_generateAnomaly.
  - apply randoms_correctAnomaly.
  - unfold handleTimeChange. autorewrite with frame.
    now rewrite randoms_initializeSystemState.
  - unfold resetTime. autorewrite with frame.
    now rewrite randoms_initializeSystemState.
  - apply core_randoms, core_advanceTime.
  - apply core_randoms, core_toggleManualControl.
  - apply core_randoms, core_resetEnvironment.
  - apply core_randoms, core_updateFactor.
  - reflexivity.
  - reflexivity.
Qed.

Lemma randoms_reachable (rs : nat -> Q) (st : State) :
  reachable rs st -> randoms st = rs.
Proof.
  induction 1 as [now|st st' _ IH Hstep]; [apply randoms_init|].
  now rewrite (randoms_step _ _ Hstep).
Qed.

(** ** Every unit keeps a health between 20 and 100 *)

Lemma units_updateEquipment (id : EquipId) (f : Equipment.t -> Equipment.t)
      (st : State) :
  (forall e, healthWithin 20 100 e -> healthWithin 20 100 (f e)) ->
  unitsWithinRange (equipmentHealth st) ->
  unitsWithinRange (equipmentHealth (updateEquipment id f st)).
Proof.
  intros Hf H. rewrite equipmentHealth_updateEquipment.
  now apply (Forall_eqUpdate (healthWithin 20 100)).
Qed.

Lemma units_selectPanels (rounds : nat) (panelIds : list EquipId)
      (claim : Equipment.t -> Equipment.t) :
  (forall e, healthWithin 20 100 e -> healthWithin 20 100 (claim e)) ->
  forall affected st,
    unitsWithinRange (equipmentHealth st) ->
    unitsWithinRange
      (equipmentHealth (snd (selectPanels rounds panelIds claim affected st))).
Proof.
  intros Hclaim. induction rounds as [|n IH]; intros affected st H;
    [exact H|].
  cbn [selectPanels]. rewrite randomBelow_eq.
  destruct (nth_error panelIds _) as [equipmentId|]; [|now apply IH].
  destruct (eqLookup equipmentId _); [|now apply IH].
  destruct (negb (includes affected equipmentId)); apply IH;
    [now apply units_updateEquipment | exact H].
Qed.

Lemma units_releaseUnit (st : State) (id : EquipId) :
  validDraws (randoms st) ->
  unitsWithinRange (equipmentHealth st) ->
  unitsWithinRange (equipmentHealth (releaseUnit st id)).
Proof.
  intros Hr H. unfold releaseUnit.
  destruct (eqLookup id _); [|exact H]. rewrite random_eq.
  apply units_updateEquipment; [|exact H].
  intros e _. apply released_health, releaseTo_released, Hr.
Qed.

Lemma units_restoreEquipment (a : Anomaly.t) (st : State) :
  validDraws (randoms st) ->
  unitsWithinRange (equipmentHealth st) ->
  unitsWithinRange (equipmentHealth (restoreEquipment a st)).
Proof.
  intros Hr H. unfold restoreEquipment.
  destruct (Anomaly.affectedEquipment a) as [ids|]; [|exact H].
  apply (fold_left_invariant
           (fun s => validDraws (randoms s)
                     /\ unitsWithinRange (equipmentHealth s)));
    [|now split].
  intros s x [Hs1 Hs2]. split; [|now apply units_releaseUnit].
  now rewrite (frame_releaseUnit _ randoms)
    by (intros; reflexivity).
Qed.

Lemma units_cascade (now : Z) (st : State) :
  unitsWithinRange (equipmentHealth st) ->
  unitsWithinRange
    (equipmentHealth (generateDustAccumulationAfterStorm now st)).
Proof.
  intros H. unfold generateDustAccumulationAfterStorm.
  rewrite randomBelow_eq. cbn [Anomaly.id].
  match goal with
  | |- context [selectPanels ?r ?p ?c ?a ?s] =>
      pose proof (units_selectPanels r p c (stormDustClaim_health now) a s H)
        as Hsel;
      destruct (selectPanels r p c a s) as [affected st2]
  end.
  autorewrite with frame. exact Hsel.
Qed.

Lemma units_clearEffects (now : Z) (a : Anomaly.t) (st : State) :
  validDraws (randoms st) ->
  unitsWithinRange (equipmentHealth st) ->
  unitsWithinRange (equipmentHealth (clearEffects now a st)).
Proof.
  intros Hr H. unfold clearEffects.
  destruct (Anomaly.type a); try now apply units_restoreEquipment.
  - apply units_cascade. now autorewrite with frame.
  - now autorewrite with frame.
Qed.

Lemma units_checkAnomaly (now : Z) (st : State) (i : nat) :
  validDraws (randoms st) ->
  unitsWithinRange (equipmentHealth st) ->
  unitsWithinRange (equipmentHealth (checkAnomaly now st i)).
Proof.
  intros Hr H. unfold checkAnomaly.
  destruct (nth_error (anomalies st) i) as [a|]; [|exact H].
  destruct (Anomaly.active a); [|exact H].
  destruct (Qle_bool 200 _).
  - apply units_clearEffects;
      destruct (isEnvironmental (Anomaly.type a));
      now autorewrite with frame.
  - destruct (Qle_bool 60 _ && _); [|exact H].
    destruct (_ <? _)%Z; [|exact H].
    now autorewrite with frame.
Qed.

Lemma health_checkAnomalies (now : Z) (st : State) :
  healthInv st -> healthInv (checkAnomalies now st).
Proof.
  intros H. unfold healthInv, checkAnomalies, sweepAnomalies.
  autorewrite with frame.
  apply (fold_left_invariant healthInv); [|exact H].
  intros s i [Hs1 Hs2]. split; [now rewrite randoms_checkAnomaly|].
  now apply units_checkAnomaly.
Qed.

Lemma health_correctAnomaly (now anomalyId : Z) (st : State) :
  healthInv st -> healthInv (correctAnomaly now anomalyId st).
Proof.
  intros [Hr H]. split; [now rewrite randoms_correctAnomaly|].
  unfold correctAnomaly.
  destruct (findById _ _ _) as [[i a]|]; [|exact H].
  destruct (Anomaly.active a); [|exact H].
  autorewrite with frame. apply units_clearEffects;
    now autorewrite with frame.
Qed.

Lemma health_generateAnomaly (now : Z) (selected : option AnomalyType)
      (st : State) :
  healthInv st -> healthInv (generateAnomaly now selected st).
Proof.
  intros [Hr H]. split; [now rewrite randoms_generateAnomaly|].
  unfold generateAnomaly. destruct selected as [ty|]; [|exact H].
  rewrite !randomBelow_eq.
  destruct ty; cbn [anomalyTypes Anomaly.id firstNumber];
    rewrite ?randomBelow_eq.
  - match goal with
    | |- context [selectPanels ?r ?p ?c ?a ?s] =>
        pose proof (units_selectPanels r p c
                      (manualPanelClaim_health PanelFault now) a s H)
          as Hsel;
        destruct (selectPanels r p c a s) as [affected st2]
    end.
    autorewrite with frame. exact Hsel.
  - match goal with
    | |- context [selectPanels ?r ?p ?c ?a ?s] =>
        pose proof (units_selectPanels r p c
                      (manualPanelClaim_health DustAccumulation now) a s H)
          as Hsel;
        destruct (selectPanels r p c a s) as [affected st2]
    end.
    autorewrite with frame. exact Hsel.
  - now autorewrite with frame.
  - match goal with
    | |- context [eqLookup ?i ?m] => destruct (eqLookup i m)
    end; autorewrite with frame; [|exact H].
    apply (Forall_eqUpdate (healthWithin 20 100)); [|exact H].
    intros e He. eapply healthWithin_weaken;
      [|apply manualInverterClaim_health; exact He]. discriminate.
  - now autorewrite with frame.
Qed.

Lemma units_triggered (now : Z) (ty : AnomalyType) (equipmentId : EquipId)
      (st : State) :
  unitsWithinRange (equipmentHealth st) ->
  unitsWithinRange
    (equipmentHealth (generateAnomalyForEquipment now ty equipmentId st)).
Proof.
  intros H. unfold generateAnomalyForEquipment. rewrite !randomBelow_eq.
  destruct (equipmentAnomalyTypes _ _ _ ty) as [[[[name loc] imp] sev]|];
    [|exact H].
  autorewrite with frame.
  apply (Forall_eqUpdate (healthWithin 20 100)); [|exact H].
  intros e He. eapply healthWithin_weaken;
    [|apply equipmentClaim_health; exact He].
  destruct ty; discriminate.
Qed.

Lemma health_monitorUnit (now : Z) (st : State) (equipmentId : EquipId) :
  healthInv st -> healthInv (monitorUnit now st equipmentId).
Proof.
  intros [Hr H]. split; [now rewrite randoms_monitorUnit|].
  unfold monitorUnit.
  destruct (eqLookup equipmentId (equipmentHealth st)) as [e|]; [|exact H].
  destruct (status_eqb _ _ && _); [|exact H].
  destruct (existsb _ _); [exact H|].
  rewrite random_eq.
  destruct (prefix equipmentId); autorewrite with frame;
    now apply units_triggered.
Qed.

Lemma health_degradeUnit (st : State) (equipmentId : EquipId) :
  healthInv st -> healthInv (degradeUnit st equipmentId).
Proof.
  intros [Hr H]. split.
  - now rewrite (frame_degradeUnit _ randoms) by (intros; reflexivity).
  - unfold degradeUnit. rewrite random_eq.
    apply units_updateEquipment; [|exact H].
    intros e He. apply degradeBy_within; [apply Hr | exact He].
Qed.

Lemma health_resetUnit (st : State) (equipmentId : EquipId) :
  healthInv st -> healthInv (resetUnit st equipmentId).
Proof.
  intros [Hr H]. split.
  - now rewrite (frame_resetUnit _ randoms) by (intros; reflexivity).
  - unfold resetUnit. rewrite random_eq.
    apply units_updateEquipment; [|exact H].
    intros e _. eapply healthWithin_weaken; [|apply resetTo_health, Hr].
    discriminate.
Qed.

Lemma health_initializeSystemState (now : Z) (preserveLogs : bool)
      (st : State) :
  healthInv st -> healthInv (initializeSystemState now preserveLogs st).
Proof.
  intros H. split; [rewrite randoms_initializeSystemState; apply H|].
  unfold initializeSystemState. rewrite equipmentHealth_log.
  assert (Hfold : forall l s, healthInv s ->
                  healthInv (fold_left resetUnit l s)).
  { intros l. apply fold_left_invariant. intros s x.
    apply health_resetUnit. }
  destruct preserveLogs;
    match goal with
    | |- context [fold_left resetUnit ?l ?s] =>
        destruct (manualEnvironmentControl (fold_left resetUnit l s));
          cbn [equipmentHealth setLogs setAnomalyOverrides
               setEnvironmentalFactors];
          apply (Hfold l s)
    end; exact H.
Qed.

Lemma health_initializeUnits (p : EquipPrefix) (todo : nat) :
  forall i st, healthInv st -> healthInv (initializeUnits p i todo st).
Proof.
  induction todo as [|n IH]; intros i st H; [exact H|].
  cbn [initializeUnits]. rewrite random_eq. apply IH.
  destruct H as [Hr H]. split; [exact Hr|].
  cbn [equipmentHealth setEquipmentHealth setDrawn].
  apply (Forall_eqAssign (healthWithin 20 100)); [|exact H].
  eapply healthWithin_weaken; [|apply freshEquipment_health, Hr].
  discriminate.
Qed.

Lemma health_init (now : Z) (rs : nat -> Q) :
  validDraws rs -> healthInv (init now rs).
Proof.
  intros Hr. unfold init, initializeEquipment, equipmentTypes.
  unfold healthInv. autorewrite with frame. cbn [fold_left fst snd].
  repeat apply health_initializeUnits.
  split; [exact Hr | constructor].
Qed.

Lemma health_core (st st' : State) :
  core st' = core st -> healthInv st -> healthInv st'.
Proof.
  unfold healthInv. intros H.
  now rewrite (core_randoms _ _ H), (core_equipmentHealth _ _ H).
Qed.

Lemma health_step (st st' : State) :
  step st st' -> healthInv st -> healthInv st'.
Proof.
  intros Hstep H. destruct Hstep.
  - eapply health_core; [apply core_tick | exact H].
  - eapply health_core; [apply core_updateEnvironmentalFactors | exact H].
  - now apply health_checkAnomalies.
  - eapply health_core; [apply core_generateRandomEvent | exact H].
  - unfold monitorEquipmentHealth.
    apply (fold_left_invariant healthInv); [|exact H].
    intros s x. apply health_monitorUnit.
  - unfold degradeEquipmentHealth.
    apply (fold_left_invariant healthInv); [|exact H].
    intros s x. apply health_degradeUnit.
  - now apply health_generateAnomaly.
  - now apply health_correctAnomaly.
  - unfold handleTimeChange, healthInv. autorewrite with frame.
    apply health_initializeSystemState. exact H.
  - unfold resetTime, healthInv. autorewrite with frame.
    apply health_initializeSystemState. exact H.
  - eapply health_core; [apply core_advanceTime | exact H].
  - eapply health_core; [apply core_toggleManualControl | exact H].
  - eapply health_core; [apply core_resetEnvironment | exact H].
  - eapply health_core; [apply core_updateFactor | exact H].
  - exact H.
  - exact H.
Qed.

Lemma health_reachable (rs : nat -> Q) (st : State) :
  validDraws rs -> reachable rs st -> healthInv st.
Proof.
  intros Hr. induction 1 as [now|st st' _ IH Hstep];
    [now apply health_init | eapply health_step; eassumption].
Qed.

(** ** The units are those that [initializeEquipment] creates *)

Lemma equipmentKeys_updateEquipment (id : EquipId)
      (f : Equipment.t -> Equipment.t) (st : State) :
  equipmentKeys (updateEquipment id f st) = equipmentKeys st.
Proof.
  unfold equipmentKeys. rewrite equipmentHealth_updateEquipment.
  apply eqUpdate_keys.
Qed.

Lemma equipmentKeys_log (now : Z) (m : Message) (ty : LogType) (st : State) :
  equipmentKeys (log now m ty st) = equipmentKeys st.
Proof. unfold equipmentKeys. now autorewrite with frame. Qed.

Lemma equipmentKeys_addAlert (now : Z) (m : Message) (sev : Severity) (st : State) :
  equipmentKeys (addAlert now m sev st) = equipmentKeys st.
Proof. unfold equipmentKeys. now autorewrite with frame. Qed.

Lemma equipmentKeys_updateSimulation (now : Z) (st : State) :
  equipmentKeys (updateSimulation now st) = equipmentKeys st.
Proof. unfold equipmentKeys. now autorewrite with frame. Qed.

Lemma equipmentKeys_setDrawn (n : nat) (st : State) :
  equipmentKeys (setDrawn n st) = equipmentKeys st.
Proof. unfold equipmentKeys. now autorewrite with frame. Qed.

Lemma equipmentKeys_updateAnomaly (i : nat) (f : Anomaly.t -> Anomaly.t) (st : State) :
  equipmentKeys (updateAnomaly i f st) = equipmentKeys st.
Proof. unfold equipmentKeys. now autorewrite with frame. Qed.

Lemma equipmentKeys_setAnomalies (l : list Anomaly.t) (st : State) :
  equipmentKeys (setAnomalies l st) = equipmentKeys st.
Proof. unfold equipmentKeys. now autorewrite with frame. Qed.

Lemma equipmentKeys_clearDustOverride (st : State) :
  equipmentKeys (clearDustOverride st) = equipmentKeys st.
Proof. unfold equipmentKeys. now autorewrite with frame. Qed.

Lemma equipmentKeys_clearCloudOverride (st : State) :
  equipmentKeys (clearCloudOverride st) = equipmentKeys st.
Proof. unfold equipmentKeys. now autorewrite with frame. Qed.

Lemma equipmentKeys_setAnomalyOverrides (o : Overrides) (st : State) :
  equipmentKeys (setAnomalyOverrides o st) = equipmentKeys st.
Proof. unfold equipmentKeys. now autorewrite with frame. Qed.

Lemma equipmentKeys_escalationAlert now a level t (st : State) :
  equipmentKeys (escalationAlert now a level t st) = equipmentKeys st.
Proof. unfold equipmentKeys. now autorewrite with frame. Qed.

#[local] Hint Rewrite
  equipmentKeys_updateEquipment
  equipmentKeys_log
  equipmentKeys_addAlert
  equipmentKeys_updateSimulation
  equipmentKeys_setDrawn
  equipmentKeys_updateAnomaly
  equipmentKeys_setAnomalies
  equipmentKeys_clearDustOverride
  equipmentKeys_clearCloudOverride
  equipmentKeys_setAnomalyOverrides
  equipmentKeys_escalationAlert
  : frame.

Lemma equipmentKeys_selectPanels rounds panelIds claim affected st :
  equipmentKeys (snd (selectPanels rounds panelIds claim affected st))
  = equipmentKeys st.
Proof.
  apply frame_selectPanels;
    [reflexivity | apply equipmentKeys_updateEquipment].
Qed.

Lemma equipmentKeys_releaseUnit (st : State) (id : EquipId) :
  equipmentKeys (releaseUnit st id) = equipmentKeys st.
Proof.
  apply frame_releaseUnit;
    [reflexivity | apply equipmentKeys_updateEquipment].
Qed.

Lemma equipmentKeys_restoreEquipment (a : Anomaly.t) (st : State) :
  equipmentKeys (restoreEquipment a st) = equipmentKeys st.
Proof.
  apply frame_restoreEquipment;
    [reflexivity | apply equipmentKeys_updateEquipment].
Qed.

Lemma equipmentKeys_degradeUnit (st : State) (id : EquipId) :
  equipmentKeys (degradeUnit st id) = equipmentKeys st.
Proof.
  apply frame_degradeUnit;
    [reflexivity | apply equipmentKeys_updateEquipment].
Qed.

Lemma equipmentKeys_resetUnit (st : State) (id : EquipId) :
  equipmentKeys (resetUnit st id) = equipmentKeys st.
Proof.
  apply frame_resetUnit;
    [reflexivity | apply equipmentKeys_updateEquipment].
Qed.

Lemma equipmentKeys_cascade (now : Z) (st : State) :
  equipmentKeys (generateDustAccumulationAfterStorm now st)
  = equipmentKeys st.
Proof.
  unfold generateDustAccumulationAfterStorm. rewrite randomBelow_eq.
  match goal with
  | |- context [selectPanels ?r ?p ?c ?a ?s] =>
      pose proof (equipmentKeys_selectPanels r p c a s) as Hkeys;
      destruct (selectPanels r p c a s) as [affected st2]
  end.
  autorewrite with frame. exact Hkeys.
Qed.

#[local] Hint Rewrite equipmentKeys_restoreEquipment equipmentKeys_cascade
  : frame.

Lemma equipmentKeys_clearEffects (now : Z) (a : Anomaly.t) (st : State) :
  equipmentKeys (clearEffects now a st) = equipmentKeys st.
Proof.
  unfold clearEffects. destruct (Anomaly.type a);
    autorewrite with frame; reflexivity.
Qed.

#[local] Hint Rewrite equipmentKeys_clearEffects : frame.

Lemma equipmentKeys_checkAnomaly (now : Z) (st : State) (i : nat) :
  equipmentKeys (checkAnomaly now st i) = equipmentKeys st.
Proof.
  unfold checkAnomaly.
  repeat match goal with
         | |- context [if ?c then _ else _] => destruct c
         | |- context [match nth_error ?l ?i with _ => _ end] =>
             destruct (nth_error l i)
         end;
    autorewrite with frame; reflexivity.
Qed.

Lemma equipmentKeys_correctAnomaly (now anomalyId : Z) (st : State) :
  equipmentKeys (correctAnomaly now anomalyId st) = equipmentKeys st.
Proof.
  unfold correctAnomaly.
  destruct (findById _ _ _) as [[i a]|]; [|reflexivity].
  destruct (Anomaly.active a); autorewrite with frame; reflexivity.
Qed.

Lemma equipmentKeys_generateAnomaly (now : Z)
      (selected : option AnomalyType) (st : State) :
  equipmentKeys (generateAnomaly now selected st) = equipmentKeys st.
Proof.
  unfold generateAnomaly. destruct selected as [ty|]; [|reflexivity].
  rewrite !randomBelow_eq.
  destruct ty; cbn [anomalyTypes Anomaly.id firstNumber];
    rewrite ?randomBelow_eq;
    try match goal with
        | |- context [selectPanels ?r ?p ?c ?a ?s] =>
            pose proof (equipmentKeys_selectPanels r p c a s) as Hkeys;
            destruct (selectPanels r p c a s) as [affected st2]
        end;
    try match goal with
        | |- context [eqLookup ?i ?m] => destruct (eqLookup i m)
        end;
    autorewrite with frame; try assumption; reflexivity.
Qed.

Lemma equipmentKeys_triggered (now : Z) (ty : AnomalyType)
      (equipmentId : EquipId) (st : State) :
  equipmentKeys (generateAnomalyForEquipment now ty equipmentId st)
  = equipmentKeys st.
Proof.
  unfold generateAnomalyForEquipment. rewrite !randomBelow_eq.
  destruct ty; cbn [equipmentAnomalyTypes]; autorewrite with frame;
    reflexivity.
Qed.

Lemma equipmentKeys_monitorUnit (now : Z) (st : State)
      (equipmentId : EquipId) :
  equipmentKeys (monitorUnit now st equipmentId) = equipmentKeys st.
Proof.
  unfold monitorUnit. rewrite random_eq.
  repeat match goal with
         | |- context [if ?c then _ else _] => destruct c
         | |- context [match eqLookup ?i ?m with _ => _ end] =>
             destruct (eqLookup i m)
         | |- context [match prefix ?i with _ => _ end] =>
             destruct (prefix i)
         end;
    autorewrite with frame; rewrite ?equipmentKeys_triggered; reflexivity.
Qed.

Lemma equipmentKeys_initializeSystemState (now : Z) (preserveLogs : bool)
      (st : State) :
  equipmentKeys (initializeSystemState now preserveLogs st)
  = equipmentKeys st.
Proof.
  unfold initializeSystemState. rewrite equipmentKeys_log.
  destruct preserveLogs;
    match goal with
    | |- context [fold_left resetUnit ?l ?s] =>
        destruct (manualEnvironmentControl (fold_left resetUnit l s));
          change (equipmentKeys (fold_left resetUnit l s) = equipmentKeys st);
          rewrite (fold_left_frame equipmentKeys resetUnit l)
            by (intros; apply equipmentKeys_resetUnit)
    end; reflexivity.
Qed.

Lemma equipmentKeys_core (st st' : State) :
  core st' = core st -> equipmentKeys st' = equipmentKeys st.
Proof.
  intros H. unfold equipmentKeys. now rewrite (core_equipmentHealth _ _ H).
Qed.

Lemma equipmentKeys_step (st st' : State) :
  step st st' -> equipmentKeys st' = equipmentKeys st.
Proof.
  intros Hstep. destruct Hstep.
  - apply equipmentKeys_core, core_tick.
  - apply equipmentKeys_core, core_updateEnvironmentalFactors.
  - unfold checkAnomalies, sweepAnomalies.
    rewrite equipmentKeys_updateSimulation.
    apply (fold_left_frame equipmentKeys). intros.
    apply equipmentKeys_checkAnomaly.
  - apply equipmentKeys_core, core_generateRandomEvent.
  - unfold monitorEquipmentHealth.
    apply (fold_left_frame equipmentKeys). intros.
    apply equipmentKeys_monitorUnit.
  - unfold degradeEquipmentHealth.
    rewrite (fold_left_frame equipmentKeys degradeUnit)
      by (intros; apply equipmentKeys_degradeUnit).
    reflexivity.
  - apply equipmentKeys_generateAnomaly.
  - apply equipmentKeys_correctAnomaly.
  - unfold handleTimeChange. autorewrite with frame.
    now rewrite equipmentKeys_initializeSystemState.
  - unfold resetTime. autorewrite with frame.
    now rewrite equipmentKeys_initializeSystemState.
  - apply equipmentKeys_core, core_advanceTime.
  - apply equipmentKeys_core, core_toggleManualControl.
  - apply equipmentKeys_core, core_resetEnvironment.
  - apply equipmentKeys_core, core_updateFactor.
  - reflexivity.
  - reflexivity.
Qed.

Lemma distinctIds_NoDup (l : list EquipId) :
  distinctIds l = true -> NoDup l.
Proof.
  induction l as [|id rest IH]; intros H; [constructor|].
  cbn [distinctIds] in H. apply andb_prop in H. destruct H as [Hid Hrest].
  constructor; [|now apply IH].
  intros Hin. apply negb_true_iff in Hid.
  assert (includes rest id = true); [|congruence].
  unfold includes. apply existsb_exists. exists id. split; [exact Hin|].
  destruct (equipId_eqb_spec id id); congruence.
Qed.

Lemma equipmentKeys_reachable (rs : nat -> Q) (st : State) :
  reachable rs st -> NoDup (equipmentKeys st).
Proof.
  induction 1 as [now|st st' _ IH Hstep].
  - apply distinctIds_NoDup. vm_compute. reflexivity.
  - now rewrite (equipmentKeys_step _ _ Hstep).
Qed.

(** ** One pass of degradation *)

Lemma degradeUnit_lookup (st : State) (x id : EquipId) (e : Equipment.t) :
  eqLookup id (equipmentHealth st) = Some e ->
  eqLookup id (equipmentHealth (degradeUnit st x))
  = Some (if equipId_eqb x id
          then degradeBy (randoms st (drawn st)) e else e).
Proof.
  intros H. unfold degradeUnit.
  rewrite random_eq, equipmentHealth_updateEquipment.
  cbn [equipmentHealth setDrawn].
  destruct (equipId_eqb_spec x id) as [->|Hne].
  - now rewrite eqLookup_eqUpdate_same, H.
  - now rewrite eqLookup_eqUpdate_other.
Qed.

Lemma degradeUnits_lookup (l : list EquipId) :
  forall st id e,
    NoDup l ->
    eqLookup id (equipmentHealth st) = Some e ->
    exists e',
      eqLookup id (equipmentHealth (fold_left degradeUnit l st)) = Some e' /\
      (e' = e \/ exists n, e' = degradeBy (randoms st n) e).
Proof.
  induction l as [|x l IH]; intros st id e Hnd He.
  - exists e. split; [exact He | now left].
  - inversion Hnd as [|? ? Hx Hl]; subst. cbn [fold_left].
    pose proof (degradeUnit_lookup st x id e He) as H1.
    assert (Hrs : randoms (degradeUnit st x) = randoms st)
      by (apply frame_degradeUnit; intros; reflexivity).
    destruct (equipId_eqb_spec x id) as [->|Hne].
    + (* the unit is degraded now, and not again *)
      assert (Hrest : forall s,
                 eqLookup id (equipmentHealth (fold_left degradeUnit l s))
                 = eqLookup id (equipmentHealth s)).
      { clear -Hx. induction l as [|y l IHl]; intros s; [reflexivity|].
        cbn [fold_left]. rewrite IHl by (intros Hin; apply Hx; now right).
        unfold degradeUnit. rewrite random_eq, equipmentHealth_updateEquipment.
        apply eqLookup_eqUpdate_other. intros ->. apply Hx. now left. }
      rewrite Hrest, H1. eexists. split; [reflexivity|]. right. eexists.
      reflexivity.
    + destruct (IH _ id e Hl H1) as (e' & He' & Hcase).
      exists e'. split; [exact He'|].
      destruct Hcase as [->|[n ->]]; [now left|]. right. exists n.
      now rewrite Hrs.
Qed.

Lemma NoDup_firstn {A : Type} (k : nat) (l : list A) :
  NoDup l -> NoDup (firstn k l).
Proof.
  intros H. rewrite <- (firstn_skipn k l) in H.
  eapply NoDup_app_remove_r. exact H.
Qed.

Lemma NoDup_keys_filter (p : EquipId * Equipment.t -> bool) (m : EquipMap) :
  NoDup (map fst m) -> NoDup (map fst (filter p m)).
Proof.
  induction m as [|entry m IH]; intros H; [constructor|].
  cbn [map] in H. inversion H as [|? ? Hx Hm]; subst.
  cbn [filter]. destruct (p entry); [|now apply IH].
  cbn [map]. constructor; [|now apply IH].
  intros Hin. apply Hx. apply in_map_iff in Hin.
  destruct Hin as (y & Ey & Hy). apply filter_In in Hy.
  apply in_map_iff. exists y. tauto.
Qed.

Lemma degradation_pass (shuffled : list EquipId) (sortDraws : nat)
      (st : State) (id : EquipId) (e : Equipment.t) :
  validDraws (randoms st) ->
  NoDup shuffled ->
  eqLookup id (equipmentHealth st) = Some e ->
  exists e',
    eqLookup id (equipmentHealth (degradeEquipmentHealth shuffled sortDraws st))
    = Some e' /\
    (Equipment.health e - (5 # 10) <= Equipment.health e')%Q /\
    (Equipment.health e' <= Qmax 75 (Equipment.health e))%Q /\
    (e' = e \/ (75 <= Equipment.health e')%Q).
Proof.
  intros Hr Hnd He. unfold degradeEquipmentHealth.
  match goal with
  | |- context [fold_left degradeUnit ?l ?s] =>
      destruct (degradeUnits_lookup l s id e) as (e' & He' & Hcase);
        [now apply NoDup_firstn | exact He |]
  end.
  exists e'. split; [exact He'|].
  destruct Hcase as [->|[n ->]].
  - split; [Lqa.lra|]. split; [apply Q.le_max_r | now left].
  - cbn [randoms setDrawn].
    destruct (degradeBy_health (randoms st n) e (Hr n)) as (H75 & Hlo & Hhi).
    split; [exact Hlo|]. split; [exact Hhi | now right].
Qed.

Lemma drawsFrom_valid (l : list Q) :
  forallb validDraw l = true -> validDraws (drawsFrom l).
Proof.
  intros H n. unfold drawsFrom.
  assert (Hv : validDraw (nth n l 0%Q) = true).
  { destruct (Nat.lt_ge_cases n (List.length l)) as [Hn|Hn].
    - rewrite forallb_forall in H. apply H. now apply nth_In.
    - rewrite nth_overflow by exact Hn. reflexivity. }
  unfold validDraw, Qltb in Hv. apply andb_prop in Hv.
  destruct Hv as [H0 H1]. apply Qle_bool_iff in H0.
  split; [exact H0|]. apply Qnot_le_lt. intros Hle.
  apply Qle_bool_iff in Hle. rewrite Hle in H1. discriminate.
Qed.

(** C10. Whatever [Math.random()] returns within [0,1), every unit of
    every reachable state has a health between 20 and 100.  The operations
    that write a health keep it there: one pass of degradation takes at
    most 0.5 off a unit and leaves a unit it touches at 75 or more, a claim
    by a panel anomaly never goes below 20 and a claim by an inverter
    overload never below 30, and a resolution sets the health between 96
    and 100. *)
Theorem equipment_health_between_20_and_100 (rs : nat -> Q) (st : State) :
  validDraws rs ->
  reachable rs st ->
  (forall id e,
      eqLookup id (equipmentHealth st) = Some e ->
      (20 <= Equipment.health e)%Q /\ (Equipment.health e <= 100)%Q) /\
  (forall shuffled sortDraws id e,
      Permutation shuffled (degradableEquipment st) ->
      eqLookup id (equipmentHealth st) = Some e ->
      exists e',
        eqLookup id
          (equipmentHealth (degradeEquipmentHealth shuffled sortDraws st))
        = Some e' /\
        (Equipment.health e - (5 # 10) <= Equipment.health e')%Q /\
        (Equipment.health e' <= Qmax 75 (Equipment.health e))%Q /\
        (e' = e \/ (75 <= Equipment.health e')%Q)) /\
  (forall ty anomalyId e,
      (20 <= Equipment.health (manualPanelClaim ty anomalyId e))%Q /\
      (20 <= Equipment.health (stormDustClaim anomalyId e))%Q /\
      (20 <= Equipment.health (equipmentClaim PanelFault anomalyId e))%Q /\
      (20 <= Equipment.health
               (equipmentClaim DustAccumulation anomalyId e))%Q /\
      (30 <= Equipment.health (manualInverterClaim anomalyId e))%Q /\
      (30 <= Equipment.health
               (equipmentClaim InverterOverload anomalyId e))%Q) /\
  (forall n e,
      (96 <= Equipment.health (releaseTo (rs n) e))%Q /\
      (Equipment.health (releaseTo (rs n) e) <= 100)%Q).
Proof.
  intros Hr Hreach. split; [|split; [|split]].
  - intros id e He.
    destruct (health_reachable rs st Hr Hreach) as [_ Hu].
    assert (Hin : exists k, In (k, e) (equipmentHealth st)).
    { clear Hu. induction (equipmentHealth st) as [|[k x] m IH];
        [discriminate|].
      cbn [eqLookup] in He. destruct (equipId_eqb k id).
      - injection He as ->. exists k. now left.
      - destruct (IH He) as [k' Hk']. exists k'. now right. }
    destruct Hin as [k Hk].
    exact (proj1 (Forall_forall _ _) Hu (k, e) Hk).
  - intros shuffled sortDraws id e Hperm He.
    apply degradation_pass; [|  | exact He].
    + now rewrite (randoms_reachable rs st Hreach).
    + apply (Permutation_NoDup (Permutation_sym Hperm)).
      apply NoDup_keys_filter. exact (equipmentKeys_reachable rs st Hreach).
  - intros ty anomalyId e.
    unfold manualPanelClaim, stormDustClaim, equipmentClaim,
      manualInverterClaim.
    cbn [Equipment.health withHealth].
    repeat split; apply Q.le_max_l.
  - intros n e.
    destruct (releaseTo_released (rs n) e (Hr n)) as (_ & _ & _ & H).
    exact H.
Qed.

(** Witness of [equipment_health_between_20_and_100]: the state of
    [escalatedRun], and a pass of degradation over it in which the sort
    leaves the units in their order. *)
Lemma equipment_health_between_20_and_100_witness :
  validDraws (drawsFrom doubleClaimDraws) /\
  reachable (drawsFrom doubleClaimDraws) escalatedRun /\
  (forall id e,
      eqLookup id (equipmentHealth escalatedRun) = Some e ->
      (20 <= Equipment.health e)%Q /\ (Equipment.health e <= 100)%Q) /\
  Permutation (degradableEquipment escalatedRun)
              (degradableEquipment escalatedRun) /\
  eqLookup (mkEquipId Panel 1) (equipmentHealth escalatedRun)
  = Some panelOneOfRun /\
  exists e',
    eqLookup (mkEquipId Panel 1)
      (equipmentHealth
         (degradeEquipmentHealth (degradableEquipment escalatedRun) 0
                                 escalatedRun))
    = Some e' /\
    (Equipment.health panelOneOfRun - (5 # 10) <= Equipment.health e')%Q.
Proof.
  assert (Hv : validDraws (drawsFrom doubleClaimDraws))
    by (apply drawsFrom_valid; reflexivity).
  assert (Hr : reachable (drawsFrom doubleClaimDraws) escalatedRun).
  { unfold escalatedRun, doubleClaimRun.
    eapply ReachStep; [|apply StepCheckAnomalies].
    eapply ReachStep; [|apply StepGenerateAnomaly].
    eapply ReachStep; [|apply StepGenerateAnomaly].
    apply ReachInit. }
  pose proof (equipment_health_between_20_and_100 _ _ Hv Hr)
    as (Hrange & Hpass & _).
  split; [exact Hv|]. split; [exact Hr|]. split; [exact Hrange|].
  split; [apply Permutation_refl|].
  assert (He : eqLookup (mkEquipId Panel 1) (equipmentHealth escalatedRun)
               = Some panelOneOfRun) by (vm_compute; reflexivity).
  split; [exact He|].
  destruct (Hpass (degradableEquipment escalatedRun) 0%nat
                  (mkEquipId Panel 1) panelOneOfRun (Permutation_refl _) He)
    as (e' & He' & Hlo & _).
  exists e'. split; [exact He' | exact Hlo].
Defined.

(** ** What a resolution leaves behind *)

Lemma releaseUnit_lookup (st : State) (x id : EquipId) (e : Equipment.t) :
  validDraws (randoms st) ->
  eqLookup id (equipmentHealth (releaseUnit st x)) = Some e ->
  released e \/ (x <> id /\ eqLookup id (equipmentHealth st) = Some e).
Proof.
  intros Hr. unfold releaseUnit.
  destruct (eqLookup x (equipmentHealth st)) as [e0|] eqn:Ex.
  - rewrite random_eq, equipmentHealth_updateEquipment.
    cbn [equipmentHealth setDrawn].
    destruct (equipId_eqb_spec x id) as [->|Hne].
    + rewrite eqLookup_eqUpdate_same, Ex. cbn [option_map].
      intros H. injection H as <-. left. apply releaseTo_released, Hr.
    + rewrite eqLookup_eqUpdate_other by exact Hne. intros H. now right.
  - intros H. right. split; [|exact H]. intros ->. congruence.
Qed.

Lemma randoms_releaseUnits (ids : list EquipId) (st : State) :
  randoms (fold_left releaseUnit ids st) = randoms st.
Proof.
  apply (fold_left_frame randoms). intros s x.
  now rewrite (frame_releaseUnit _ randoms) by (intros; reflexivity).
Qed.

Lemma releaseUnits_lookup (ids : list EquipId) :
  forall st id e,
    validDraws (randoms st) ->
    eqLookup id (equipmentHealth (fold_left releaseUnit ids st)) = Some e ->
    released e \/
    (~ In id ids /\ eqLookup id (equipmentHealth st) = Some e).
Proof.
  induction ids as [|x ids IH]; intros st id e Hr H.
  - right. split; [intros [] | exact H].
  - cbn [fold_left] in H. apply IH in H.
    2:{ now rewrite (frame_releaseUnit _ randoms) by (intros; reflexivity). }
    destruct H as [H|[Hnin H]]; [now left|].
    apply releaseUnit_lookup in H; [|exact Hr].
    destruct H as [H|[Hne H]]; [now left|].
    right. split; [|exact H]. intros [->|Hin]; contradiction.
Qed.

Lemma restoreEquipment_releases (a : Anomaly.t) (ids : list EquipId)
      (st : State) :
  validDraws (randoms st) ->
  Anomaly.affectedEquipment a = Some ids ->
  allReleased ids (restoreEquipment a st).
Proof.
  intros Hr Ha id e Hin He. unfold restoreEquipment in He.
  rewrite Ha in He. apply releaseUnits_lookup in He; [|exact Hr].
  destruct He as [He|[Hnin _]]; [exact He | contradiction].
Qed.

Lemma allReleased_restoreEquipment (ids : list EquipId) (b : Anomaly.t)
      (st : State) :
  validDraws (randoms st) ->
  allReleased ids st -> allReleased ids (restoreEquipment b st).
Proof.
  intros Hr H id e Hin He. unfold restoreEquipment in He.
  destruct (Anomaly.affectedEquipment b) as [l|]; [|now apply (H id)].
  apply releaseUnits_lookup in He; [|exact Hr].
  destruct He as [He|[_ He]]; [exact He | now apply (H id)].
Qed.

Lemma allReleased_same (ids : list EquipId) (st st' : State) :
  equipmentHealth st' = equipmentHealth st ->
  allReleased ids st -> allReleased ids st'.
Proof. unfold allReleased. now intros ->. Qed.

(** A position of the sweep that is not a dust storm timing out releases or
    leaves alone; it never claims. *)
Lemma allReleased_checkAnomaly (ids : list EquipId) (now : Z) (st : State)
      (j : nat) :
  validDraws (randoms st) ->
  (forall b, nth_error (anomalies st) j = Some b ->
             stormTimesOut now b = false) ->
  allReleased ids st -> allReleased ids (checkAnomaly now st j).
Proof.
  intros Hr Hstorm H. unfold checkAnomaly.
  destruct (nth_error (anomalies st) j) as [b|]; [|exact H].
  specialize (Hstorm b eq_refl). unfold stormTimesOut in Hstorm.
  destruct (Anomaly.active b); [|exact H].
  destruct (Qle_bool 200 _).
  - unfold clearEffects.
    destruct (Anomaly.type b); try discriminate Hstorm;
      cbn [isEnvironmental nonEnvironmental negb].
    + apply allReleased_restoreEquipment; [now autorewrite with frame|].
      eapply allReleased_same; [|exact H]. now autorewrite with frame.
    + apply allReleased_restoreEquipment; [now autorewrite with frame|].
      eapply allReleased_same; [|exact H]. now autorewrite with frame.
    + apply allReleased_restoreEquipment; [now autorewrite with frame|].
      eapply allReleased_same; [|exact H]. now autorewrite with frame.
    + eapply allReleased_same; [|exact H]. now autorewrite with frame.
  - destruct (Qle_bool 60 _ && _); [|exact H].
    destruct (_ <? _)%Z; [|exact H].
    eapply allReleased_same; [|exact H]. now autorewrite with frame.
Qed.

Lemma randoms_sweepPrefix (now : Z) (k : nat) (st : State) :
  randoms (sweepPrefix now k st) = randoms st.
Proof.
  unfold sweepPrefix. apply (fold_left_frame randoms).
  intros. apply randoms_checkAnomaly.
Qed.

Lemma allReleased_rest_of_sweep (ids : list EquipId) (now : Z) (st : State)
      (i : nat) :
  validDraws (randoms st) ->
  forallb (fun b => negb (stormTimesOut now b)) (anomalies st) = true ->
  allReleased ids (sweepPrefix now (S i) st) ->
  forall k, (S i <= k <= List.length (anomalies st))%nat ->
            allReleased ids (sweepPrefix now k st).
Proof.
  intros Hr Hno Hturn k [Hlo Hhi].
  induction k as [|k IH]; [lia|].
  destruct (Nat.eq_dec (S k) (S i)) as [E|Hne]; [now rewrite E|].
  rewrite sweepPrefix_succ. apply allReleased_checkAnomaly.
  - now rewrite randoms_sweepPrefix.
  - intros b Hb.
    destruct (nth_error (anomalies st) k) as [ak|] eqn:Ek;
      [|apply nth_error_None in Ek; lia].
    destruct (sweepPrefix_anomalies now st k) as [Hold _]; [lia|].
    rewrite (Hold k ak Ek), Nat.ltb_irrefl in Hb. injection Hb as <-.
    rewrite forallb_forall in Hno.
    apply negb_true_iff, Hno. eapply nth_error_In; exact Ek.
  - apply IH; lia.
Qed.

(** ** An override that a sweep clears stays cleared *)

Lemma overrides_checkAnomaly (now : Z) (st : State) (j : nat) :
  (dustOverride (anomalyOverrides st) = None ->
   dustOverride (anomalyOverrides (checkAnomaly now st j)) = None) /\
  (cloudOverride (anomalyOverrides st) = None ->
   cloudOverride (anomalyOverrides (checkAnomaly now st j)) = None).
Proof.
  unfold checkAnomaly, clearEffects.
  repeat match goal with
         | |- context [if ?c then _ else _] => destruct c
         | |- context [match nth_error ?l ?i with _ => _ end] =>
             destruct (nth_error l i)
         | |- context [match Anomaly.type ?a with _ => _ end] =>
             destruct (Anomaly.type a)
         end;
    autorewrite with frame; split; intros H; try exact H; reflexivity.
Qed.

Lemma sweepPrefix_split (now : Z) (k n : nat) (st : State) :
  (k <= n)%nat ->
  sweepPrefix now n st
  = fold_left (checkAnomaly now) (seq k (n - k)) (sweepPrefix now k st).
Proof.
  intros H. unfold sweepPrefix.
  replace n with (k + (n - k))%nat at 1 by lia.
  now rewrite seq_app, fold_left_app.
Qed.

Lemma turn_clears_override (now : Z) (st : State) (i : nat) (a : Anomaly.t) :
  nth_error (anomalies st) i = Some a ->
  Anomaly.active a = true ->
  Qle_bool 200 (elapsedSeconds now (Anomaly.timestamp a)) = true ->
  match Anomaly.type a with
  | DustStorm => dustOverride (anomalyOverrides (checkAnomaly now st i)) = None
  | CloudCover =>
      cloudOverride (anomalyOverrides (checkAnomaly now st i)) = None
  | _ => True
  end.
Proof.
  intros Hi Ha Ht. unfold checkAnomaly, clearEffects.
  rewrite Hi, Ha, Ht.
  destruct (Anomaly.type a); try exact I;
    autorewrite with frame; reflexivity.
Qed.

Lemma turn_releases (now : Z) (st : State) (i : nat) (a : Anomaly.t)
      (ids : list EquipId) :
  validDraws (randoms st) ->
  nth_error (anomalies st) i = Some a ->
  Anomaly.active a = true ->
  Qle_bool 200 (elapsedSeconds now (Anomaly.timestamp a)) = true ->
  nonEnvironmental (Anomaly.type a) = true ->
  Anomaly.affectedEquipment a = Some ids ->
  allReleased ids (checkAnomaly now st i).
Proof.
  intros Hr Hi Ha Ht Hty Hids. unfold checkAnomaly, clearEffects.
  rewrite Hi, Ha, Ht.
  destruct (Anomaly.type a); try discriminate Hty;
    apply restoreEquipment_releases; try exact Hids;
    now autorewrite with frame.
Qed.

(** C3. In one sweep of [checkAnomalies], an anomaly that is active and at
    least 200 seconds old comes out inactive, resolved by the timeout at the
    time of the sweep, with the escalation level and [lastEscalation] it had
    before: the timeout is tested first and no escalation is applied to it.
    For a dust storm or a cloud-cover spike the corresponding override is
    cleared when the sweep ends.  For the equipment types every unit the
    anomaly lists is, right after the anomaly's turn in the sweep, healthy,
    unclaimed, without issues and with a health between 96 and 100; the
    units are still so when the sweep ends unless a dust storm times out in
    the same sweep, whose cascade may claim them anew. *)
Theorem timed_out_anomaly_resolved_not_escalated
        (now : Z) (st : State) (i : nat) (a : Anomaly.t) :
  validDraws (randoms st) ->
  nth_error (anomalies st) i = Some a ->
  Anomaly.active a = true ->
  (200 <= elapsedSeconds now (Anomaly.timestamp a))%Q ->
  (exists a',
      nth_error (anomalies (checkAnomalies now st)) i = Some a' /\
      Anomaly.active a' = false /\
      Anomaly.resolvedBy a' = Some ByAutoTimeout /\
      Anomaly.resolvedAt a' = Some now /\
      Anomaly.escalationLevel a' = Anomaly.escalationLevel a /\
      Anomaly.lastEscalation a' = Anomaly.lastEscalation a) /\
  match Anomaly.type a with
  | DustStorm =>
      dustOverride (anomalyOverrides (checkAnomalies now st)) = None
  | CloudCover =>
      cloudOverride (anomalyOverrides (checkAnomalies now st)) = None
  | PanelFault | DustAccumulation | InverterOverload =>
      forall ids,
        Anomaly.affectedEquipment a = Some ids ->
        allReleased ids (sweepPrefix now (S i) st) /\
        (forallb (fun b => negb (stormTimesOut now b)) (anomalies st) = true ->
         allReleased ids (checkAnomalies now st))
  end.
Proof.
  intros Hr Hi Ha Ht. apply Qle_bool_iff in Ht.
  assert (Hlen : (i < List.length (anomalies st))%nat)
    by (apply nth_error_Some; congruence).
  split.
  - exists (checkedAnomaly now a).
    split; [exact (checkAnomalies_anomalies now st i a Hi)|].
    rewrite (checkedAnomaly_resolves now a Ha Ht). now repeat split.
  - destruct (sweepPrefix_anomalies now st i) as [Hold _]; [lia|].
    assert (Hcur := Hold i a Hi). rewrite Nat.ltb_irrefl in Hcur.
    assert (Hend : forall I : State -> Prop,
               (forall s j, I s -> I (checkAnomaly now s j)) ->
               I (sweepPrefix now (S i) st) ->
               I (sweepAnomalies now st)).
    { intros I HI Hturn. unfold sweepAnomalies.
      change (I (sweepPrefix now (List.length (anomalies st)) st)).
      rewrite (sweepPrefix_split now (S i)) by lia.
      now apply fold_left_invariant. }
    pose proof (turn_clears_override now _ i a Hcur Ha Ht) as Hclear.
    rewrite <- sweepPrefix_succ in Hclear.
    assert (Hequip :
              nonEnvironmental (Anomaly.type a) = true ->
              forall ids,
                Anomaly.affectedEquipment a = Some ids ->
                allReleased ids (sweepPrefix now (S i) st) /\
                (forallb (fun b => negb (stormTimesOut now b)) (anomalies st)
                 = true ->
                 allReleased ids (checkAnomalies now st))).
    { intros Hty ids Hids.
      assert (Hturn : allReleased ids (sweepPrefix now (S i) st)).
      { rewrite sweepPrefix_succ.
        apply (turn_releases now _ i a ids); auto.
        now rewrite randoms_sweepPrefix. }
      split; [exact Hturn|]. intros Hno. unfold checkAnomalies.
      eapply allReleased_same; [apply equipmentHealth_updateSimulation|].
      change (allReleased ids
                (sweepPrefix now (List.length (anomalies st)) st)).
      apply allReleased_rest_of_sweep with (i := i); auto; lia. }
    unfold checkAnomalies in *.
    destruct (Anomaly.type a) eqn:Ety; try (apply Hequip; reflexivity).
    + rewrite anomalyOverrides_updateSimulation.
      apply (Hend (fun s => dustOverride (anomalyOverrides s) = None));
        [|exact Hclear].
      intros s j. apply overrides_checkAnomaly.
    + rewrite anomalyOverrides_updateSimulation.
      apply (Hend (fun s => cloudOverride (anomalyOverrides s) = None));
        [|exact Hclear].
      intros s j. apply overrides_checkAnomaly.
Qed.

(** Witness of [timed_out_anomaly_resolved_not_escalated]: the panel fault
    of [doubleClaimRun] in the sweep that comes exactly 200 seconds after
    its creation. *)
Lemma timed_out_anomaly_resolved_not_escalated_witness :
  validDraws (randoms doubleClaimRun) /\
  nth_error (anomalies doubleClaimRun) 0 = Some panelFaultOfRun /\
  Anomaly.active panelFaultOfRun = true /\
  (200 <= elapsedSeconds (startTime + 204000)
                         (Anomaly.timestamp panelFaultOfRun))%Q /\
  (exists a',
      nth_error (anomalies (checkAnomalies (startTime + 204000)
                                           doubleClaimRun)) 0 = Some a' /\
      Anomaly.active a' = false /\
      Anomaly.resolvedBy a' = Some ByAutoTimeout /\
      Anomaly.resolvedAt a' = Some (startTime + 204000)%Z /\
      Anomaly.escalationLevel a' = Anomaly.escalationLevel panelFaultOfRun /\
      Anomaly.lastEscalation a' = Anomaly.lastEscalation panelFaultOfRun).
Proof.
  assert (H1 : validDraws (randoms doubleClaimRun)).
  { change (randoms doubleClaimRun) with (drawsFrom doubleClaimDraws).
    apply drawsFrom_valid. reflexivity. }
  assert (H2 : nth_error (anomalies doubleClaimRun) 0 = Some panelFaultOfRun)
    by (vm_compute; reflexivity).
  assert (H3 : Anomaly.active panelFaultOfRun = true) by reflexivity.
  assert (H4 : (200 <= elapsedSeconds (startTime + 204000)
                         (Anomaly.timestamp panelFaultOfRun))%Q)
    by (vm_compute; discriminate).
  repeat (split; [assumption|]).
  exact (proj1 (timed_out_anomaly_resolved_not_escalated
                  (startTime + 204000) doubleClaimRun 0 panelFaultOfRun
                  H1 H2 H3 H4)).
Defined.

(** ** The id a new anomaly gets *)




(** * Part III: further properties of the page *)

Section ConversationHistoryRepair.

Import AIAssistant HistoryExamples.
Local Open Scope string_scope.
Local Open Scope list_scope.

Lemma alternation_length (k : nat) :
  List.length (alternation k) = (2 * k)%nat.
Proof. induction k as [|k IH]; [reflexivity|]. cbn [alternation List.length]. lia. Qed.

Lemma validateLoop_wellformed (k : nat) :
  forall history fixed,
    map role history = alternation k ->
    validateLoop history "user" fixed = fixed ++ history.
Proof.
  induction k as [|k IH]; intros history fixed H.
  - destruct history; [|discriminate]. cbn. now rewrite app_nil_r.
  - destruct history as [|u [|a rest]]; try discriminate.
    cbn [map alternation] in H. injection H as Hu Ha Hrest.
    cbn [validateLoop]. rewrite Hu. cbn [String.eqb Ascii.eqb Bool.eqb].
    change (String.eqb "user" "user") with true. cbv iota.
    rewrite Ha. change (String.eqb "assistant" "assistant") with true.
    cbv iota. change (String.eqb "assistant" "user") with false. cbv iota.
    rewrite (IH rest _ Hrest). now rewrite <- !app_assoc.
Qed.

Lemma validate_wellformed (k : nat) (history : list Message) :
  map role history = alternation k ->
  validateConversationHistory history = history.
Proof.
  intros H. destruct history as [|m rest]; [reflexivity|].
  unfold validateConversationHistory.
  rewrite (validateLoop_wellformed k _ [] H). cbn [app].
  destruct (alternation_ends k) as [E|[rs E]]; rewrite E in H;
    [discriminate|].
  destruct (lastMessage_role _ _ _ H) as [x [-> Hx]].
  rewrite Hx. reflexivity.
Qed.

(** X1. On a history that already is a run of user/assistant pairs the
    repair changes nothing: [validateConversationHistory] returns it as it
    is, a [sendMessage] that fails leaves it as it is, and one that
    succeeds appends the prompt and the answer, as long as fewer than
    twelve exchanges are stored. *)
Theorem wellformed_history_untouched (k : nat) (history : list Message)
        (prompt assistantMessage err : string) :
  map role history = alternation k ->
  validateConversationHistory history = history /\
  snd (sendMessage prompt (RequestFailed err) history) = history /\
  ((k < 12)%nat ->
   snd (sendMessage prompt (Answered assistantMessage) history)
   = history ++ [mkMessage "user" prompt;
                 mkMessage "assistant" assistantMessage]).
Proof.
  intros H. assert (E := validate_wellformed k history H).
  split; [exact E|]. split; [exact E|].
  intros Hk. cbn [sendMessage snd]. rewrite E, <- app_assoc. cbn [app].
  assert (L : List.length (history ++ [mkMessage "user" prompt;
                mkMessage "assistant" assistantMessage]) = (2 * k + 2)%nat).
  { rewrite length_app, <- (length_map role history), H, alternation_length.
    reflexivity. }
  rewrite L.
  replace (25 <? 2 * k + 2)%nat with false; [reflexivity|].
  symmetry. apply Nat.ltb_ge. lia.
Qed.

Lemma wellformed_history_untouched_witness :
  map role (exchanges 3) = alternation 3 /\
  validateConversationHistory (exchanges 3) = exchanges 3 /\
  snd (sendMessage "Any faults?" (RequestFailed "timeout") (exchanges 3))
  = exchanges 3.
Proof.
  assert (H : map role (exchanges 3) = alternation 3) by reflexivity.
  destruct (wellformed_history_untouched 3 (exchanges 3) "Any faults?"
              "None." "timeout" H) as (H1 & H2 & _).
  split; [exact H|]. split; [exact H1 | exact H2].
Defined.

(** X2. Repairing twice is repairing once. *)
Theorem history_repair_idempotent (history : list Message) :
  validateConversationHistory (validateConversationHistory history)
  = validateConversationHistory history.
Proof.
  destruct (validate_alternates history) as [k Hk].
  now apply (validate_wellformed k).
Qed.

Lemma isUser_placeholder_free (l : list Message) (m : Message) :
  role m = "assistant" -> filter isUser (l ++ [m]) = filter isUser l.
Proof.
  intros H. rewrite filter_app. cbn [filter]. unfold isUser at 2.
  rewrite H. change (String.eqb "assistant" "user") with false.
  now rewrite app_nil_r.
Qed.

Lemma validateLoop_users (history : list Message) :
  forall expectedRole fixed,
    expectedRole = "user" \/ expectedRole = "assistant" ->
    filter isUser (validateLoop history expectedRole fixed)
    = filter isUser fixed ++ filter isUser history.
Proof.
  induction history as [|msg rest IH]; intros expectedRole fixed He.
  - cbn. now rewrite app_nil_r.
  - cbn [validateLoop filter].
    change (isUser (mkMessage "assistant" "I understand.")) with false.
    destruct (isUser msg) eqn:Hi'; assert (Hi := Hi'); unfold isUser in Hi.
    + (* a user message is always kept *)
      assert (Ha : String.eqb (role msg) "assistant" = false).
      { apply String.eqb_eq in Hi. now rewrite Hi. }
      destruct He as [-> | ->]; rewrite ?Hi, ?Ha;
        change (String.eqb "user" "user") with true;
        change (String.eqb "assistant" "assistant") with true;
        cbn [andb]; cbv iota;
        rewrite IH by (first [now left | now right]);
        rewrite filter_app; cbn [filter]; rewrite ?Hi';
        change (isUser (mkMessage "assistant" "I understand.")) with false;
        cbv iota; now rewrite <- app_assoc.
    + rewrite Hi. cbn [andb].
      destruct He as [-> | ->].
      * rewrite Hi.
        destruct (String.eqb (role msg) "assistant" && _);
          rewrite IH by (now left); reflexivity.
      * change (String.eqb "assistant" "user") with false.
        rewrite andb_false_r.
        destruct (String.eqb (role msg) "assistant");
          rewrite IH by (first [now left | now right]);
          rewrite ?filter_app; cbn [filter];
          rewrite ?Hi', ?app_nil_r; reflexivity.
Qed.

Lemma validateLoop_origin (P : Message -> Prop) :
  P (mkMessage "assistant" "I understand.") ->
  forall history expectedRole fixed,
    Forall P history -> Forall P fixed ->
    Forall P (validateLoop history expectedRole fixed).
Proof.
  intros Hp. induction history as [|msg rest IH];
    intros expectedRole fixed Hh Hf; [exact Hf|].
  inversion Hh as [|? ? Hmsg Hrest]; subst.
  cbn [validateLoop].
  destruct (String.eqb (role msg) expectedRole).
  - apply IH; [exact Hrest|]. apply Forall_app. split; [exact Hf|].
    now constructor.
  - destruct (String.eqb (role msg) "user"
              && String.eqb expectedRole "assistant").
    + apply IH; [exact Hrest|]. apply Forall_app. split; [exact Hf|].
      now repeat constructor.
    + destruct (String.eqb (role msg) "assistant"
                && String.eqb expectedRole "user"); now apply IH.
Qed.

(** X3. The repair keeps every user message, in order, and invents
    nothing but its two placeholder answers: every message of the
    repaired history is a message of the stored one or a placeholder. *)
Theorem history_repair_keeps_user_messages (history : list Message) :
  filter isUser (validateConversationHistory history)
  = filter isUser history /\
  Forall (fun m => In m history \/ In m placeholders)
         (validateConversationHistory history).
Proof.
  destruct history as [|m0 rest0]; [split; [reflexivity | constructor]|].
  set (history := m0 :: rest0).
  unfold validateConversationHistory. fold history.
  change (match history with [] => history | _ => ?x end) with x.
  assert (Hu := validateLoop_users history "user" [] (or_introl eq_refl)).
  assert (Ho : Forall (fun m => In m history \/ In m placeholders)
                      (validateLoop history "user" [])).
  { apply validateLoop_origin.
    - right. now left.
    - apply Forall_forall. intros x Hx. now left.
    - constructor. }
  cbn [filter app] in Hu.
  destruct (lastMessage (validateLoop history "user" [])) as [m|];
    [|now split].
  destruct (String.eqb (role m) "user"); [|now split].
  split.
  - rewrite isUser_placeholder_free by reflexivity. exact Hu.
  - apply Forall_app. split; [exact Ho|].
    constructor; [|constructor]. right. right. now left.
Qed.

Lemma skipn_alternation (j : nat) :
  skipn (2 * j + 1) (alternation (j + 13))
  = "assistant" :: alternation 12.
Proof.
  induction j as [|j IH]; [reflexivity|].
  replace (2 * S j + 1)%nat with (S (S (2 * j + 1))) by lia.
  cbn [Nat.add alternation skipn]. exact IH.
Qed.

(** X4. The cap of 25 is odd.  Once the repaired history holds twelve
    exchanges or more, a successful [sendMessage] stores 25 messages of
    which the first is an assistant message, the half of an exchange; the
    repair of the next call drops it, and 24 messages remain. *)
Theorem truncation_splits_an_exchange (prompt assistantMessage : string)
        (history : list Message) :
  (24 <= List.length (validateConversationHistory history))%nat ->
  let stored :=
    snd (sendMessage prompt (Answered assistantMessage) history) in
  map role stored = "assistant" :: alternation 12 /\
  List.length stored = 25%nat /\
  validateConversationHistory stored = tl stored.
Proof.
  intros Hlen stored.
  destruct (validate_alternates history) as [k Hk].
  assert (Hk2 : (12 <= k)%nat).
  { rewrite <- (length_map role), Hk, alternation_length in Hlen. lia. }
  assert (Hroles : map role stored = "assistant" :: alternation 12).
  { subst stored. cbn [sendMessage snd]. rewrite <- app_assoc. cbn [app].
    set (h3 := validateConversationHistory history ++ _).
    assert (H3 : map role h3 = alternation (S k)).
    { subst h3. rewrite map_app, Hk. cbn [map role].
      apply alternation_snoc. }
    assert (L3 : List.length h3 = (2 * S k)%nat).
    { rewrite <- (length_map role), H3. apply alternation_length. }
    replace (25 <? List.length h3)%nat with true
      by (symmetry; apply Nat.ltb_lt; lia).
    unfold sliceLast. rewrite <- skipn_map, H3, L3.
    replace (2 * S k - 25)%nat with (2 * (k - 12) + 1)%nat by lia.
    replace (S k) with (k - 12 + 13)%nat by lia.
    apply skipn_alternation. }
  split; [exact Hroles|]. split.
  - rewrite <- (length_map role), Hroles. reflexivity.
  - destruct stored as [|m rest]; [discriminate|].
    cbn [map] in Hroles. injection Hroles as Hm Hrest.
    cbn [tl]. unfold validateConversationHistory. cbn [validateLoop].
    rewrite Hm. change (String.eqb "assistant" "user") with false.
    cbn [andb]. cbv iota.
    rewrite (validateLoop_wellformed 12 _ [] Hrest). cbn [app].
    change (String.eqb "assistant" "assistant" && String.eqb "user" "user")
      with true. cbv iota.
    destruct (lastMessage_role rest "assistant"
                (removelast (alternation 12))) as [x [-> Hx]].
    { rewrite Hrest. reflexivity. }
    rewrite Hx. reflexivity.
Qed.

Lemma truncation_splits_an_exchange_witness :
  (24 <= List.length (validateConversationHistory (exchanges 12)))%nat /\
  map role (snd (sendMessage "Any faults?" (Answered "None.")
                             (exchanges 12)))
  = "assistant" :: alternation 12 /\
  List.length (validateConversationHistory
                 (snd (sendMessage "Any faults?" (Answered "None.")
                                   (exchanges 12)))) = 24%nat.
Proof.
  assert (H : (24 <= List.length
                       (validateConversationHistory (exchanges 12)))%nat)
    by (vm_compute; lia).
  destruct (truncation_splits_an_exchange "Any faults?" "None."
              (exchanges 12) H) as (H1 & H2 & H3).
  split; [exact H|]. split; [exact H1|].
  rewrite H3.
  destruct (snd (sendMessage "Any faults?" (Answered "None.")
                             (exchanges 12))) as [|m rest];
    [discriminate H2|].
  cbn [tl]. cbn [List.length] in H2. lia.
Defined.

End ConversationHistoryRepair.

Section GenerationByDaylight.

Local Open Scope R_scope.

Lemma typeImpact_below_one (ty : AnomalyType) :
  0 < 1 - Q2R (typeImpact ty) / 100.
Proof.
  destruct ty; unfold typeImpact, anomalyTypes; cbn [fst snd];
    match goal with
    | |- context [Q2R ?q] =>
        let z := eval cbv in (Qnum q) in
        change q with (inject_Z z); rewrite Q2R_of_Z
    end; lra.
Qed.

Lemma anomalyFactor_positive (l : list Anomaly.t) :
  fixedImpacts l ->
  forall acc, 0 < acc -> 0 < fold_left applyImpact l acc.
Proof.
  induction 1 as [|a l Ha _ IH]; intros acc Hacc; [exact Hacc|].
  cbn [fold_left]. apply IH. unfold applyImpact.
  destruct (Anomaly.active a) eqn:Eact; cbn [andb]; [|exact Hacc].
  destruct (nonEnvironmental (Anomaly.type a)); [|exact Hacc].
  rewrite (Ha eq_refl).
  apply Rmult_lt_0_compat; [exact Hacc | apply typeImpact_below_one].
Qed.

Lemma Q2R_dayProgress (hour : Q) :
  Q2R ((hour - 6) / 12) = (Q2R hour - 6) / 12.
Proof.
  change 6%Q with (inject_Z 6). change 12%Q with (inject_Z 12).
  rewrite Q2R_div by discriminate. rewrite Q2R_minus, !Q2R_of_Z. reflexivity.
Qed.

Lemma baseGeneration_positive (time : Z) (st : State) :
  0 < capacity st ->
  0 < baseGenerationAt time st <->
  (6 < hourOf time)%Q /\ (hourOf time < 18)%Q.
Proof.
  intros Hc. unfold baseGenerationAt.
  assert (Hpi := PI_RGT_0).
  assert (H6 : Q2R 6 = 6) by (change 6%Q with (inject_Z 6); apply Q2R_of_Z).
  assert (H18 : Q2R 18 = 18)
    by (change 18%Q with (inject_Z 18); apply Q2R_of_Z).
  destruct (Qle_bool 6 (hourOf time) && Qle_bool (hourOf time) 18) eqn:E.
  - destruct (dayProgress_unit _ E) as [H0 H1].
    rewrite Q2R_dayProgress in *.
    set (h := Q2R (hourOf time)) in *.
    split.
    + intros Hpos.
      assert (Hs : 0 < sin ((h - 6) / 12 * PI)) by nra.
      assert (h <> 6).
      { intros ->. replace ((6 - 6) / 12 * PI) with 0 in Hs by lra.
        rewrite sin_0 in Hs. lra. }
      assert (h <> 18).
      { intros ->. replace ((18 - 6) / 12 * PI) with PI in Hs by lra.
        rewrite sin_PI in Hs. lra. }
      split; apply Rlt_Qlt; rewrite ?H6, ?H18; fold h; lra.
    + intros [Hlo Hhi]. apply Qlt_Rlt in Hlo, Hhi.
      rewrite ?H6, ?H18 in *. fold h in Hlo, Hhi.
      apply Rmult_lt_0_compat; [|exact Hc].
      apply sin_gt_0; nra.
  - split; [lra|]. intros [Hlo Hhi]. exfalso.
    apply andb_false_iff in E.
    destruct E as [E|E]; apply not_true_iff_false in E; apply E;
      apply Qle_bool_iff; apply Qlt_le_weak; assumption.
Qed.

(** X5. With a positive capacity and factors, overrides and impacts as
    the page produces them, the plant generates exactly between six in the
    morning and six in the evening: [calculateSolarGeneration] is positive
    when the hour is strictly between 6 and 18 and zero at every other
    time. *)
Theorem generation_positive_exactly_in_daylight (time : Z) (st : State) :
  0 < capacity st ->
  validFactors (environmentalFactors st) ->
  validOverrides (anomalyOverrides st) ->
  fixedImpacts (anomalies st) ->
  (0 < calculateSolarGeneration time st <->
   (6 < hourOf time)%Q /\ (hourOf time < 18)%Q) /\
  (~ ((6 < hourOf time)%Q /\ (hourOf time < 18)%Q) ->
   calculateSolarGeneration time st = 0).
Proof.
  intros Hcap (Hdust & Hcloud & _ & Htemp) [Hod Hoc] Himp.
  assert (Hed : 0 <= effectiveDust st <= 100).
  { unfold effectiveDust.
    destruct (dustOverride (anomalyOverrides st)) as [d|] eqn:E;
      [now apply Hod | exact Hdust]. }
  assert (Hec : 0 <= effectiveCloud st <= 100).
  { unfold effectiveCloud.
    destruct (cloudOverride (anomalyOverrides st)) as [c|] eqn:E;
      [now apply Hoc | exact Hcloud]. }
  assert (Hbase := baseGeneration_positive time st Hcap).
  assert (Hb0 : 0 <= baseGenerationAt time st)
    by (apply baseGeneration_bounds; lra).
  unfold calculateSolarGeneration.
  set (b := baseGenerationAt time st) in *.
  set (t := 1 - Rmax 0 ((temperature (environmentalFactors st) - 25)
                        * (4 / 1000))).
  set (d := 1 - effectiveDust st / 100 * (3 / 10)).
  set (c := 1 - effectiveCloud st / 100 * (5 / 10)).
  set (a := fold_left applyImpact (anomalies st) 1).
  assert (Ht : 0 < t).
  { subst t. unfold Rmax.
    destruct (Rle_dec 0 ((temperature (environmentalFactors st) - 25)
                         * (4 / 1000))); lra. }
  assert (Hd : 0 < d) by (subst d; lra).
  assert (Hc : 0 < c) by (subst c; lra).
  assert (Ha : 0 < a) by (apply anomalyFactor_positive; [exact Himp | lra]).
  assert (Hf : 0 < t * d * c * a)
    by (repeat apply Rmult_lt_0_compat; assumption).
  replace (b * t * d * c * a) with (b * (t * d * c * a)) by ring.
  split; [rewrite <- Hbase; split; intros H|].
  - destruct (Rle_lt_or_eq_dec 0 b Hb0) as [Hlt|Heq]; [exact Hlt|].
    rewrite <- Heq in H. lra.
  - now apply Rmult_lt_0_compat.
  - intros Hn. assert (Hz : b = 0).
    { destruct (Rle_lt_or_eq_dec 0 b Hb0) as [Hlt|Heq]; [|now symmetry].
      apply Hbase in Hlt. contradiction. }
    rewrite Hz. ring.
Qed.

Lemma applyImpact_environmental (l : list Anomaly.t) (a : Anomaly.t)
      (acc : R) :
  nonEnvironmental (Anomaly.type a) = false ->
  fold_left applyImpact (l ++ [a]) acc = fold_left applyImpact l acc.
Proof.
  intros H. rewrite fold_left_app. cbn [fold_left]. unfold applyImpact at 1.
  now rewrite H, andb_false_r.
Qed.

Lemma environmental_anomaly_acts_through_override_aux (now : Z)
        (ty : AnomalyType) (st : State) :
  isEnvironmental ty = true ->
  let st' := generateAnomaly now (Some ty) st in
  equipmentHealth st' = equipmentHealth st /\
  environmentalFactors st' = environmentalFactors st /\
  fold_left applyImpact (anomalies st') 1
  = fold_left applyImpact (anomalies st) 1 /\
  (ty = DustStorm ->
   effectiveDust st' = Rmin 100 (dustLevel (environmentalFactors st) + 50) /\
   effectiveCloud st' = effectiveCloud st) /\
  (ty = CloudCover ->
   effectiveCloud st'
   = Rmin 100 (cloudCover (environmentalFactors st) + 60) /\
   effectiveDust st' = effectiveDust st).
Proof.
  intros Hty st'.
  destruct (manual_appends now ty st) as (a & Ha & _ & Hta & _).
  fold st' in Ha.
  assert (Hfactor : fold_left applyImpact (anomalies st') 1
                    = fold_left applyImpact (anomalies st) 1).
  { rewrite Ha. apply applyImpact_environmental. rewrite Hta.
    unfold isEnvironmental in Hty. now destruct (nonEnvironmental ty). }
  clear a Ha Hta.
  assert (Hrest :
    equipmentHealth st' = equipmentHealth st /\
    environmentalFactors st' = environmentalFactors st /\
    (ty = DustStorm ->
     effectiveDust st' = Rmin 100 (dustLevel (environmentalFactors st) + 50) /\
     effectiveCloud st' = effectiveCloud st) /\
    (ty = CloudCover ->
     effectiveCloud st'
     = Rmin 100 (cloudCover (environmentalFactors st) + 60) /\
     effectiveDust st' = effectiveDust st)).
  { clear Hfactor. subst st'. unfold generateAnomaly.
    rewrite !randomBelow_eq. unfold effectiveDust, effectiveCloud.
    destruct ty; try discriminate Hty; cbn [anomalyTypes];
      autorewrite with frame; cbn [dustOverride cloudOverride];
      (split; [reflexivity|]); (split; [reflexivity|]);
      split; intros E; try discriminate E; split; reflexivity. }
  tauto.
Qed.

(** X6. A manual dust storm or cloud-cover spike touches no unit and
    leaves the measured factors alone; it acts through its override only:
    the effective dust level becomes the measured one plus 50 (the
    effective cloud cover the measured one plus 60), capped at 100, and
    the anomaly's own impact figure never enters the anomaly factor of
    the generation. *)
Theorem environmental_anomaly_acts_through_override (now : Z)
        (ty : AnomalyType) (st : State) :
  isEnvironmental ty = true ->
  let st' := generateAnomaly now (Some ty) st in
  equipmentHealth st' = equipmentHealth st /\
  environmentalFactors st' = environmentalFactors st /\
  fold_left applyImpact (anomalies st') 1
  = fold_left applyImpact (anomalies st) 1 /\
  (ty = DustStorm ->
   effectiveDust st' = Rmin 100 (dustLevel (environmentalFactors st) + 50) /\
   effectiveCloud st' = effectiveCloud st) /\
  (ty = CloudCover ->
   effectiveCloud st'
   = Rmin 100 (cloudCover (environmentalFactors st) + 60) /\
   effectiveDust st' = effectiveDust st).
Proof. exact (environmental_anomaly_acts_through_override_aux now ty st). Qed.

Lemma capacity_updateSimulation (now : Z) (st : State) :
  capacity (updateSimulation now st) = capacity st.
Proof. unfold updateSimulation. destruct (midnightCrossing _ _); reflexivity. Qed.

Lemma capacity_log (now : Z) (m : Message) (ty : LogType) (st : State) :
  capacity (log now m ty st) = capacity st.
Proof. reflexivity. Qed.

Lemma capacity_addAlert (now : Z) (m : Message) (sev : Severity)
      (st : State) :
  capacity (addAlert now m sev st) = capacity st.
Proof. reflexivity. Qed.

Lemma generation_antitone (time : Z) (st st' : State) :
  0 <= capacity st ->
  validFactors (environmentalFactors st) ->
  fixedImpacts (anomalies st) ->
  capacity st' = capacity st ->
  environmentalFactors st' = environmentalFactors st ->
  fold_left applyImpact (anomalies st') 1
  = fold_left applyImpact (anomalies st) 1 ->
  effectiveDust st <= effectiveDust st' <= 100 ->
  effectiveCloud st <= effectiveCloud st' <= 100 ->
  calculateSolarGeneration time st' <= calculateSolarGeneration time st.
Proof.
  intros Hcap (Hdust & Hcloud & _ & Htemp) Himp Ec Ee Ea Hd Hc.
  unfold calculateSolarGeneration, baseGenerationAt.
  rewrite Ec, Ee, Ea.
  fold (baseGenerationAt time st).
  assert (Hb := baseGeneration_bounds time st Hcap).
  assert (Ha := anomalyFactor_unit _ Himp 1 ltac:(lra)).
  set (b := baseGenerationAt time st) in *.
  set (t := 1 - Rmax 0 ((temperature (environmentalFactors st) - 25)
                        * (4 / 1000))).
  set (a := fold_left applyImpact (anomalies st) 1) in *.
  assert (Ht : 0 <= t).
  { subst t. unfold Rmax.
    destruct (Rle_dec 0 ((temperature (environmentalFactors st) - 25)
                         * (4 / 1000))); lra. }
  set (d := effectiveDust st) in *. set (d' := effectiveDust st') in *.
  set (c := effectiveCloud st) in *. set (c' := effectiveCloud st') in *.
  assert (H1 : 0 <= b * t) by (apply Rmult_le_pos; lra).
  apply Rmult_le_compat_r; [lra|].
  apply Rmult_le_compat; [|lra| |lra].
  - apply Rmult_le_pos; [exact H1 | lra].
  - apply Rmult_le_compat_l; [exact H1 | lra].
Qed.

(** X7. On a plant whose dust and cloud figures are not overridden yet, a
    manual dust storm or cloud-cover spike never raises the generation,
    whatever the time of day. *)
Theorem environmental_anomaly_never_raises_generation (now time : Z)
        (ty : AnomalyType) (st : State) :
  isEnvironmental ty = true ->
  0 <= capacity st ->
  validFactors (environmentalFactors st) ->
  fixedImpacts (anomalies st) ->
  anomalyOverrides st = mkOverrides None None ->
  calculateSolarGeneration time (generateAnomaly now (Some ty) st)
  <= calculateSolarGeneration time st.
Proof.
  intros Hty Hcap Hval Himp Hov.
  pose proof (environmental_anomaly_acts_through_override_aux now ty st Hty)
    as H.
  cbv zeta in H.
  assert (Hc : capacity (generateAnomaly now (Some ty) st) = capacity st).
  { unfold generateAnomaly. rewrite !randomBelow_eq.
    destruct ty; try discriminate Hty; cbn [anomalyTypes];
      rewrite !capacity_updateSimulation, capacity_log, capacity_addAlert,
        ?capacity_updateSimulation; reflexivity. }
  remember (generateAnomaly now (Some ty) st) as st' eqn:Est. clear Est.
  destruct H as (_ & He & Ha & Hdust & Hcloud).
  assert (Hval' := Hval).
  destruct Hval' as (Hd & Hcl & Hh & Ht).
  assert (Hed : effectiveDust st = dustLevel (environmentalFactors st))
    by (unfold effectiveDust; now rewrite Hov).
  assert (Hec : effectiveCloud st = cloudCover (environmentalFactors st))
    by (unfold effectiveCloud; now rewrite Hov).
  apply (generation_antitone time st st' Hcap Hval Himp Hc He Ha).
  - destruct ty; try discriminate Hty.
    + destruct (Hdust eq_refl) as [-> _]. rewrite Hed. unfold Rmin.
      destruct (Rle_dec 100 _); lra.
    + destruct (Hcloud eq_refl) as [_ ->]. lra.
  - destruct ty; try discriminate Hty.
    + destruct (Hdust eq_refl) as [_ ->]. lra.
    + destruct (Hcloud eq_refl) as [-> _]. rewrite Hec. unfold Rmin.
      destruct (Rle_dec 100 _); lra.
Qed.

Lemma environmental_anomaly_never_raises_generation_witness :
  isEnvironmental DustStorm = true /\
  (0 <= capacity (init startTime (drawsFrom stormDraws)))%R /\
  validFactors (environmentalFactors (init startTime (drawsFrom stormDraws))) /\
  fixedImpacts (anomalies (init startTime (drawsFrom stormDraws))) /\
  anomalyOverrides (init startTime (drawsFrom stormDraws))
  = mkOverrides None None /\
  (calculateSolarGeneration (startTime + 43200000) stormStart
   <= calculateSolarGeneration (startTime + 43200000)
        (init startTime (drawsFrom stormDraws)))%R.
Proof.
  set (st := init startTime (drawsFrom stormDraws)).
  assert (Hc : capacity st = 100%R) by reflexivity.
  assert (He : environmentalFactors st = mkEnv 30 5 7 10) by reflexivity.
  assert (Ho : anomalyOverrides st = mkOverrides None None) by reflexivity.
  assert (Ha : anomalies st = []) by reflexivity.
  assert (H0 : isEnvironmental DustStorm = true) by reflexivity.
  assert (H1 : (0 <= capacity st)%R) by (rewrite Hc; lra).
  assert (H2 : validFactors (environmentalFactors st)).
  { rewrite He. unfold validFactors.
    cbn [dustLevel cloudCover humidity temperature]. lra. }
  assert (H3 : fixedImpacts (anomalies st)) by (rewrite Ha; constructor).
  repeat (split; [assumption|]).
  exact (environmental_anomaly_never_raises_generation
           (startTime + 5000) (startTime + 43200000) DustStorm st
           H0 H1 H2 H3 Ho).
Defined.

Lemma environmental_anomaly_acts_through_override_witness :
  isEnvironmental DustStorm = true /\
  equipmentHealth stormStart
  = equipmentHealth (init startTime (drawsFrom stormDraws)) /\
  effectiveDust stormStart
  = Rmin 100 (dustLevel (environmentalFactors
                           (init startTime (drawsFrom stormDraws))) + 50).
Proof.
  assert (H0 : isEnvironmental DustStorm = true) by reflexivity.
  destruct (environmental_anomaly_acts_through_override
              (startTime + 5000) DustStorm
              (init startTime (drawsFrom stormDraws)) H0)
    as (H1 & _ & _ & H2 & _).
  split; [exact H0|]. split; [exact H1|]. exact (proj1 (H2 eq_refl)).
Defined.

Lemma generation_positive_exactly_in_daylight_witness :
  (0 < capacity doubleClaimRun)%R /\
  validFactors (environmentalFactors doubleClaimRun) /\
  validOverrides (anomalyOverrides doubleClaimRun) /\
  fixedImpacts (anomalies doubleClaimRun) /\
  (6 < hourOf (startTime + 43200000))%Q /\
  (hourOf (startTime + 43200000) < 18)%Q /\
  (0 < calculateSolarGeneration (startTime + 43200000) doubleClaimRun)%R.
Proof.
  assert (Hc : capacity doubleClaimRun = 100%R) by reflexivity.
  assert (He : environmentalFactors doubleClaimRun = mkEnv 30 5 7 10)
    by reflexivity.
  assert (Ho : anomalyOverrides doubleClaimRun = mkOverrides None None)
    by reflexivity.
  assert (H1 : (0 < capacity doubleClaimRun)%R) by (rewrite Hc; lra).
  assert (H2 : validFactors (environmentalFactors doubleClaimRun)).
  { rewrite He. unfold validFactors.
    cbn [dustLevel cloudCover humidity temperature]. lra. }
  assert (H3 : validOverrides (anomalyOverrides doubleClaimRun)).
  { rewrite Ho. split; intros x Hx; discriminate Hx. }
  assert (H4 : fixedImpacts (anomalies doubleClaimRun)).
  { unfold fixedImpacts.
    remember (anomalies doubleClaimRun) as l eqn:El.
    vm_compute in El. subst l.
    repeat constructor. }
  assert (H5 : (6 < hourOf (startTime + 43200000))%Q)
    by (vm_compute; reflexivity).
  assert (H6 : (hourOf (startTime + 43200000) < 18)%Q)
    by (vm_compute; reflexivity).
  repeat (split; [assumption|]).
  apply (proj1 (generation_positive_exactly_in_daylight
                  (startTime + 43200000) doubleClaimRun H1 H2 H3 H4)).
  split; assumption.
Defined.

End GenerationByDaylight.

Section EnvironmentUpdate.

Local Open Scope R_scope.

Lemma Q2R_draw (q : Q) :
  (0 <= q)%Q /\ (q < 1)%Q -> 0 <= Q2R q < 1.
Proof.
  intros [H0 H1]. apply Qle_Rle in H0. apply Qlt_Rlt in H1.
  rewrite RMicromega.Q2R_0 in H0. rewrite RMicromega.Q2R_1 in H1. lra.
Qed.

Lemma clip_percentage (x : R) : 0 <= Rmax 0 (Rmin 100 x) <= 100.
Proof.
  unfold Rmax, Rmin.
  destruct (Rle_dec 100 x); destruct (Rle_dec 0 _); lra.
Qed.

(** X8. In automatic mode, with draws in [0,1), one run of
    [updateEnvironmentalFactors] takes four draws and leaves a temperature
    in [25,55), a humidity in [20,50), and dust and cloud figures in
    [0,100] that moved by at most -4..+6 and -7.5..+7.5 before clipping;
    the displayed factors are the simulated ones.  In manual mode it
    changes nothing. *)
Theorem automatic_factors_within_range (now : Z) (st : State) :
  validDraws (randoms st) ->
  let st' := updateEnvironmentalFactors now st in
  let e := environmentalFactors st' in
  (manualEnvironmentControl st = true -> st' = st) /\
  (manualEnvironmentControl st = false ->
   simulatedEnvironmentalFactors st' = e /\
   drawn st' = (drawn st + 4)%nat /\
   25 <= temperature e < 55 /\
   20 <= humidity e < 50 /\
   0 <= dustLevel e <= 100 /\
   0 <= cloudCover e <= 100 /\
   validFactors e /\
   (0 <= dustLevel (simulatedEnvironmentalFactors st) <= 100 ->
    Rmax 0 (dustLevel (simulatedEnvironmentalFactors st) - 4)
    <= dustLevel e
    <= Rmin 100 (dustLevel (simulatedEnvironmentalFactors st) + 6))).
Proof.
  intros Hr st' e. subst e st'. unfold updateEnvironmentalFactors.
  split; intros Hm; rewrite Hm; [reflexivity|].
  rewrite !random_eq.
  cbn [environmentalFactors simulatedEnvironmentalFactors
       setEnvironmentalFactors setSimulatedEnvironmentalFactors setDrawn
       randoms drawn temperature dustLevel cloudCover humidity].
  set (sim := simulatedEnvironmentalFactors st).
  assert (H1 := Q2R_draw _ (Hr (drawn st))).
  assert (H2 := Q2R_draw _ (Hr (S (drawn st)))).
  assert (H3 := Q2R_draw _ (Hr (S (S (drawn st))))).
  assert (H4 := Q2R_draw _ (Hr (S (S (S (drawn st)))))).
  assert (Hs := SIN_bound
                  (IZR (getHours (getCurrentTime now st)) / 24 * PI * 2
                   - PI / 2)).
  set (s := sin _) in *.
  assert (Hd := clip_percentage
                  (dustLevel sim
                   + (Q2R (randoms st (S (drawn st))) - 4 / 10) * 10)).
  assert (Hc := clip_percentage
                  (cloudCover sim
                   + (Q2R (randoms st (S (S (drawn st)))) - 5 / 10) * 15)).
  split; [reflexivity|]. split; [lia|].
  split; [nra|]. split; [lra|]. split; [exact Hd|]. split; [exact Hc|].
  split.
  - unfold validFactors.
    cbn [temperature dustLevel cloudCover humidity]. repeat split; lra.
  - intros Hsim. clear Hd Hc.
    set (x := dustLevel sim + _).
    assert (Hx : dustLevel sim - 4 <= x <= dustLevel sim + 6)
      by (subst x; lra).
    clearbody x. unfold Rmax, Rmin.
    destruct (Rle_dec 100 x); cbv iota;
      repeat match goal with
             | |- context [Rle_dec ?a ?b] => destruct (Rle_dec a b)
             end; lra.
Qed.

Lemma randoms_setManualEnvironmentControl (v : bool) (st : State) :
  randoms (setManualEnvironmentControl v st) = randoms st.
Proof. reflexivity. Qed.

Lemma automatic_factors_within_range_witness :
  validDraws (randoms automaticStart) /\
  manualEnvironmentControl automaticStart = false /\
  validFactors (environmentalFactors
                  (updateEnvironmentalFactors (startTime + 5000)
                                              automaticStart)).
Proof.
  assert (Hv : validDraws (randoms automaticStart)).
  { unfold automaticStart. rewrite randoms_setManualEnvironmentControl.
    rewrite randoms_init. apply drawsFrom_valid. reflexivity. }
  assert (Hm : manualEnvironmentControl automaticStart = false)
    by reflexivity.
  split; [exact Hv|]. split; [exact Hm|].
  destruct (automatic_factors_within_range (startTime + 5000)
              automaticStart Hv) as [_ H].
  destruct (H Hm) as (_ & _ & _ & _ & _ & _ & Hvf & _).
  exact Hvf.
Defined.

End EnvironmentUpdate.

Section Reinitialisation.

Lemma eqLookup_keys (id : EquipId) (m : EquipMap) (e : Equipment.t) :
  eqLookup id m = Some e -> In id (map fst m).
Proof.
  induction m as [|[k e0] m IH]; [discriminate|].
  cbn [eqLookup map fst]. destruct (equipId_eqb_spec k id) as [->|Hne].
  - now left.
  - intros H. right. now apply IH.
Qed.

Lemma keys_eqLookup (id : EquipId) (m : EquipMap) :
  In id (map fst m) -> exists e, eqLookup id m = Some e.
Proof.
  induction m as [|[k e0] m IH]; [intros []|].
  cbn [eqLookup map fst]. destruct (equipId_eqb_spec k id) as [->|Hne].
  - intros _. now exists e0.
  - intros [H|H]; [contradiction | now apply IH].
Qed.

Lemma resetTo_pristine (r : Q) (e : Equipment.t) :
  (0 <= r)%Q /\ (r < 1)%Q -> pristine (resetTo r e).
Proof.
  intros Hr. repeat split; try reflexivity; now apply resetTo_health.
Qed.

Lemma resetUnit_lookup (st : State) (x id : EquipId) (e : Equipment.t) :
  validDraws (randoms st) ->
  eqLookup id (equipmentHealth (resetUnit st x)) = Some e ->
  pristine e \/ (x <> id /\ eqLookup id (equipmentHealth st) = Some e).
Proof.
  intros Hr. unfold resetUnit.
  rewrite random_eq, equipmentHealth_updateEquipment.
  cbn [equipmentHealth setDrawn].
  destruct (equipId_eqb_spec x id) as [->|Hne].
  - rewrite eqLookup_eqUpdate_same.
    destruct (eqLookup id (equipmentHealth st)); [|discriminate].
    cbn [option_map]. intros H. injection H as <-. left.
    apply resetTo_pristine, Hr.
  - rewrite eqLookup_eqUpdate_other by exact Hne. intros H. now right.
Qed.

Lemma resetUnits_lookup (ids : list EquipId) :
  forall st id e,
    validDraws (randoms st) ->
    eqLookup id (equipmentHealth (fold_left resetUnit ids st)) = Some e ->
    pristine e \/ (~ In id ids /\ eqLookup id (equipmentHealth st) = Some e).
Proof.
  induction ids as [|x ids IH]; intros st id e Hr H.
  - right. split; [intros [] | exact H].
  - cbn [fold_left] in H. apply IH in H.
    2:{ now rewrite (frame_resetUnit _ randoms) by (intros; reflexivity). }
    destruct H as [H|[Hnin H]]; [now left|].
    apply resetUnit_lookup in H; [|exact Hr].
    destruct H as [H|[Hne H]]; [now left|].
    right. split; [|exact H]. intros [->|Hin]; contradiction.
Qed.

Lemma initializeSystemState_fields (now : Z) (st : State) :
  let st' := initializeSystemState now true st in
  anomalyOverrides st' = mkOverrides None None /\
  dailyCumulative st' = 0%R /\
  lastUpdateTime st' = getCurrentTime now st /\
  simulationTime st' = simulationTime st /\
  capacity st' = capacity st /\
  alertList st' = alertList st /\
  environmentalFactors st'
  = (if manualEnvironmentControl st then defaultFactors
     else environmentalFactors st) /\
  logs st'
  = logs st ++ [mkLog now (SystemInitializedAt (getCurrentTime now st))
                      LogSystem] /\
  equipmentHealth st'
  = equipmentHealth
      (fold_left resetUnit (equipmentKeys st)
         (setAnomalies []
            (setLastUpdateTime (getCurrentTime now st)
               (setDailyCumulative 0%R (setCurrentGeneration 0%R st))))).
Proof.
  intros st'. subst st'. unfold initializeSystemState.
  set (st2 := setAnomalies [] _).
  change (equipmentKeys st2) with (equipmentKeys st).
  assert (Hf : forall (X : Type) (proj : State -> X),
             (forall n s, proj (setDrawn n s) = proj s) ->
             (forall i f s, proj (updateEquipment i f s) = proj s) ->
             proj (fold_left resetUnit (equipmentKeys st) st2) = proj st2).
  { intros X proj H1 H2. apply (fold_left_frame proj). intros s x.
    now apply frame_resetUnit. }
  assert (Hman := Hf _ manualEnvironmentControl
                     (fun _ _ => eq_refl) (fun _ _ _ => eq_refl)).
  assert (Hdc := Hf _ dailyCumulative
                    (fun _ _ => eq_refl) (fun _ _ _ => eq_refl)).
  assert (Hlu := Hf _ lastUpdateTime
                    (fun _ _ => eq_refl) (fun _ _ _ => eq_refl)).
  assert (Hsim := Hf _ simulationTime
                    (fun _ _ => eq_refl) (fun _ _ _ => eq_refl)).
  assert (Hcap := Hf _ capacity
                    (fun _ _ => eq_refl) (fun _ _ _ => eq_refl)).
  assert (Hal := Hf _ alertList
                    (fun _ _ => eq_refl) (fun _ _ _ => eq_refl)).
  assert (Henv := Hf _ environmentalFactors
                    (fun _ _ => eq_refl) (fun _ _ _ => eq_refl)).
  assert (Hlog := Hf _ logs
                    (fun _ _ => eq_refl) (fun _ _ _ => eq_refl)).
  set (st3 := fold_left resetUnit (equipmentKeys st) st2) in *.
  change (manualEnvironmentControl st2) with (manualEnvironmentControl st)
    in Hman.
  rewrite Hman.
  destruct (manualEnvironmentControl st);
    cbn [log anomalyOverrides dailyCumulative lastUpdateTime simulationTime
         capacity alertList environmentalFactors logs equipmentHealth
         setLogs setAnomalyOverrides setEnvironmentalFactors];
    rewrite ?Hdc, ?Hlu, ?Hsim, ?Hcap, ?Hal, ?Henv, ?Hlog;
    repeat split.
Qed.

End Reinitialisation.

(** ** The session log and the alert list *)

Lemma journal_refl (st : State) : journalExtends st st.
Proof. split; [exists []; now rewrite app_nil_r | exact (fun H => H)]. Qed.

Lemma journal_same (s0 s s' : State) :
  journalOf s' = journalOf s -> journalExtends s0 s -> journalExtends s0 s'.
Proof.
  unfold journalOf, journalExtends. intros E H.
  injection E as -> ->. exact H.
Qed.

Lemma journal_setSimulationTime (v : option Z) (s0 s : State) :
  journalExtends s0 s -> journalExtends s0 (setSimulationTime v s).
Proof. exact (fun H => H). Qed.

Lemma journal_setCurrentGeneration (v : R) (s0 s : State) :
  journalExtends s0 s -> journalExtends s0 (setCurrentGeneration v s).
Proof. exact (fun H => H). Qed.

Lemma journal_setDailyCumulative (v : R) (s0 s : State) :
  journalExtends s0 s -> journalExtends s0 (setDailyCumulative v s).
Proof. exact (fun H => H). Qed.

Lemma journal_setLastUpdateTime (v : Z) (s0 s : State) :
  journalExtends s0 s -> journalExtends s0 (setLastUpdateTime v s).
Proof. exact (fun H => H). Qed.

Lemma journal_setEnvironmentalFactors (v : Env) (s0 s : State) :
  journalExtends s0 s -> journalExtends s0 (setEnvironmentalFactors v s).
Proof. exact (fun H => H). Qed.

Lemma journal_setManualEnvironmentControl (v : bool) (s0 s : State) :
  journalExtends s0 s -> journalExtends s0 (setManualEnvironmentControl v s).
Proof. exact (fun H => H). Qed.

Lemma journal_setSimulatedEnvironmentalFactors (v : Env) (s0 s : State) :
  journalExtends s0 s -> journalExtends s0 (setSimulatedEnvironmentalFactors v s).
Proof. exact (fun H => H). Qed.

Lemma journal_setAnomalyOverrides (v : Overrides) (s0 s : State) :
  journalExtends s0 s -> journalExtends s0 (setAnomalyOverrides v s).
Proof. exact (fun H => H). Qed.

Lemma journal_setAnomalies (v : list Anomaly.t) (s0 s : State) :
  journalExtends s0 s -> journalExtends s0 (setAnomalies v s).
Proof. exact (fun H => H). Qed.

Lemma journal_setEquipmentHealth (v : EquipMap) (s0 s : State) :
  journalExtends s0 s -> journalExtends s0 (setEquipmentHealth v s).
Proof. exact (fun H => H). Qed.

Lemma journal_setDrawn (v : nat) (s0 s : State) :
  journalExtends s0 s -> journalExtends s0 (setDrawn v s).
Proof. exact (fun H => H). Qed.

Lemma journal_log (now : Z) (m : Message) (ty : LogType) (s0 s : State) :
  journalExtends s0 s -> journalExtends s0 (log now m ty s).
Proof.
  intros [[l Hl] Ha]. split; [|exact Ha].
  exists (l ++ [mkLog now m ty]). cbn [log logs setLogs].
  now rewrite Hl, app_assoc.
Qed.

Lemma logs_log (now : Z) (m : Message) (ty : LogType) (st : State) :
  logs (log now m ty st) = logs st ++ [mkLog now m ty].
Proof. reflexivity. Qed.

Lemma logs_addAlert (now : Z) (m : Message) (sev : Severity) (st : State) :
  logs (addAlert now m sev st) = logs st ++ [mkLog now m (LogAlert sev)].
Proof. reflexivity. Qed.

Lemma alertList_addAlert (now : Z) (m : Message) (sev : Severity)
      (st : State) :
  (List.length (alertList (addAlert now m sev st)) <= 20)%nat.
Proof.
  unfold addAlert. cbn [alertList setAlertList]. rewrite length_firstn. apply Nat.le_min_l.
Qed.

Lemma journal_addAlert (now : Z) (m : Message) (sev : Severity)
      (s0 s : State) :
  journalExtends s0 s -> journalExtends s0 (addAlert now m sev s).
Proof.
  intros [[l Hl] _]. split; [|intros _; apply alertList_addAlert].
  exists (l ++ [mkLog now m (LogAlert sev)]).
  now rewrite logs_addAlert, Hl, app_assoc.
Qed.

Lemma journal_updateEquipment (id : EquipId)
      (f : Equipment.t -> Equipment.t) (s0 s : State) :
  journalExtends s0 s -> journalExtends s0 (updateEquipment id f s).
Proof. exact (fun H => H). Qed.

Lemma journal_updateAnomaly (i : nat) (f : Anomaly.t -> Anomaly.t)
      (s0 s : State) :
  journalExtends s0 s -> journalExtends s0 (updateAnomaly i f s).
Proof. exact (fun H => H). Qed.

Lemma journal_clearDustOverride (s0 s : State) :
  journalExtends s0 s -> journalExtends s0 (clearDustOverride s).
Proof. exact (fun H => H). Qed.

Lemma journal_clearCloudOverride (s0 s : State) :
  journalExtends s0 s -> journalExtends s0 (clearCloudOverride s).
Proof. exact (fun H => H). Qed.

Lemma journal_updateSimulation (now : Z) (s0 s : State) :
  journalExtends s0 s -> journalExtends s0 (updateSimulation now s).
Proof.
  intros H. unfold updateSimulation.
  destruct (midnightCrossing _ _); [|exact H].
  apply journal_setLastUpdateTime, journal_addAlert. exact H.
Qed.

Lemma journal_selectPanels (rounds : nat) (panelIds : list EquipId)
      (claim : Equipment.t -> Equipment.t) (affected : list EquipId)
      (s0 s : State) :
  journalExtends s0 s ->
  journalExtends s0 (snd (selectPanels rounds panelIds claim affected s)).
Proof.
  apply journal_same. now apply frame_selectPanels.
Qed.

Lemma journal_restoreEquipment (a : Anomaly.t) (s0 s : State) :
  journalExtends s0 s -> journalExtends s0 (restoreEquipment a s).
Proof. apply journal_same. now apply frame_restoreEquipment. Qed.

Lemma journal_fold {B : Type} (f : State -> B -> State) (s0 : State) :
  (forall s x, journalExtends s0 s -> journalExtends s0 (f s x)) ->
  forall l s, journalExtends s0 s -> journalExtends s0 (fold_left f l s).
Proof.
  intros Hf l. induction l as [|x l IH]; intros s H; [exact H|].
  cbn [fold_left]. apply IH, Hf, H.
Qed.

Ltac journal_pair :=
  match goal with
  | |- journalExtends ?s0 ?body =>
      match body with
      | context [let (_, _) := selectPanels ?r ?p ?c ?a ?s in _] =>
      let E := fresh "E" in
      let H := fresh "H" in
      assert (H := journal_selectPanels r p c a s0 s);
      destruct (selectPanels r p c a s) as [? ?] eqn:E;
      cbn [snd] in H
      end
  end.

Ltac journal_step :=
  match goal with
  | H : journalExtends ?s0 ?t |- journalExtends ?s0 ?t => exact H
  | H : _ -> journalExtends _ ?t |- journalExtends _ ?t => apply H
  | |- journalExtends _ (log _ _ _ _) => apply journal_log
  | |- journalExtends _ (addAlert _ _ _ _) => apply journal_addAlert
  | |- journalExtends _ (updateSimulation _ _) =>
      apply journal_updateSimulation
  | |- journalExtends _ (updateEquipment _ _ _) =>
      apply journal_updateEquipment
  | |- journalExtends _ (updateAnomaly _ _ _) => apply journal_updateAnomaly
  | |- journalExtends _ (clearDustOverride _) =>
      apply journal_clearDustOverride
  | |- journalExtends _ (clearCloudOverride _) =>
      apply journal_clearCloudOverride
  | |- journalExtends _ (restoreEquipment _ _) =>
      apply journal_restoreEquipment
  | |- journalExtends _ (setSimulationTime _ _) =>
      apply journal_setSimulationTime
  | |- journalExtends _ (setCurrentGeneration _ _) =>
      apply journal_setCurrentGeneration
  | |- journalExtends _ (setDailyCumulative _ _) =>
      apply journal_setDailyCumulative
  | |- journalExtends _ (setLastUpdateTime _ _) =>
      apply journal_setLastUpdateTime
  | |- journalExtends _ (setEnvironmentalFactors _ _) =>
      apply journal_setEnvironmentalFactors
  | |- journalExtends _ (setManualEnvironmentControl _ _) =>
      apply journal_setManualEnvironmentControl
  | |- journalExtends _ (setSimulatedEnvironmentalFactors _ _) =>
      apply journal_setSimulatedEnvironmentalFactors
  | |- journalExtends _ (setAnomalyOverrides _ _) =>
      apply journal_setAnomalyOverrides
  | |- journalExtends _ (setAnomalies _ _) => apply journal_setAnomalies
  | |- journalExtends _ (setEquipmentHealth _ _) =>
      apply journal_setEquipmentHealth
  | |- journalExtends _ (setDrawn _ _) => apply journal_setDrawn
  | |- journalExtends _ (if ?c then _ else _) => destruct c
  | |- journalExtends _ (match ?x with _ => _ end) => destruct x
  end.

Ltac journal :=
  rewrite ?random_eq, ?randomBelow_eq; cbv zeta;
  repeat journal_pair; repeat journal_step.

Lemma journal_cascade (now : Z) (s0 s : State) :
  journalExtends s0 s ->
  journalExtends s0 (generateDustAccumulationAfterStorm now s).
Proof. intros H. unfold generateDustAccumulationAfterStorm. journal. Qed.

Lemma journal_clearEffects (now : Z) (a : Anomaly.t) (s0 s : State) :
  journalExtends s0 s -> journalExtends s0 (clearEffects now a s).
Proof.
  intros H. unfold clearEffects.
  destruct (Anomaly.type a); try apply journal_cascade; journal.
Qed.

Lemma journal_escalationAlert (now : Z) (a : Anomaly.t) (level : Z)
      (t : Q) (s0 s : State) :
  journalExtends s0 s -> journalExtends s0 (escalationAlert now a level t s).
Proof. intros H. unfold escalationAlert. journal. Qed.

Lemma journal_checkAnomaly (now : Z) (s0 s : State) (i : nat) :
  journalExtends s0 s -> journalExtends s0 (checkAnomaly now s i).
Proof.
  intros H. unfold checkAnomaly.
  destruct (nth_error (anomalies s) i) as [a|]; [|exact H].
  destruct (Anomaly.active a); [|exact H].
  destruct (Qle_bool 200 _).
  - apply journal_clearEffects. journal.
  - destruct (_ && _); [|exact H].
    destruct (_ <? _)%Z; [|exact H].
    cbv zeta. apply journal_log, journal_escalationAlert. journal.
Qed.

Lemma journal_checkAnomalies (now : Z) (s0 s : State) :
  journalExtends s0 s -> journalExtends s0 (checkAnomalies now s).
Proof.
  intros H. unfold checkAnomalies, sweepAnomalies.
  apply journal_updateSimulation, journal_fold; [|exact H].
  intros s1 x. apply journal_checkAnomaly.
Qed.

Lemma journal_correctAnomaly (now anomalyId : Z) (s0 s : State) :
  journalExtends s0 s -> journalExtends s0 (correctAnomaly now anomalyId s).
Proof.
  intros H. unfold correctAnomaly.
  destruct (findById _ _ _) as [[i a]|]; [|exact H].
  destruct (Anomaly.active a); [|exact H].
  cbv zeta. apply journal_updateSimulation, journal_clearEffects. journal.
Qed.

Lemma journal_generateAnomaly (now : Z) (selected : option AnomalyType)
      (s0 s : State) :
  journalExtends s0 s -> journalExtends s0 (generateAnomaly now selected s).
Proof.
  intros H. unfold generateAnomaly.
  destruct selected as [ty|]; [|journal].
  rewrite !randomBelow_eq.
  destruct ty; cbn [anomalyTypes]; journal.
Qed.

Lemma journal_triggered (now : Z) (ty : AnomalyType) (id : EquipId)
      (s0 s : State) :
  journalExtends s0 s ->
  journalExtends s0 (generateAnomalyForEquipment now ty id s).
Proof.
  intros H. unfold generateAnomalyForEquipment. rewrite !randomBelow_eq.
  destruct (equipmentAnomalyTypes _ _ _ ty) as [[[[name loc] imp] sev]|];
    journal.
Qed.

Lemma journal_monitorUnit (now : Z) (s0 s : State) (id : EquipId) :
  journalExtends s0 s -> journalExtends s0 (monitorUnit now s id).
Proof.
  intros H. unfold monitorUnit.
  destruct (eqLookup id (equipmentHealth s)) as [e|]; [|exact H].
  destruct (_ && _); [|exact H].
  destruct (existsb _ _); [exact H|].
  rewrite random_eq.
  destruct (prefix id); cbv zeta;
    apply journal_log, journal_addAlert, journal_triggered; journal.
Qed.

Lemma journal_initializeSystemState (now : Z) (s0 s : State) :
  journalExtends s0 s ->
  journalExtends s0 (initializeSystemState now true s).
Proof.
  intros H. unfold initializeSystemState. cbv zeta.
  apply journal_log, journal_setAnomalyOverrides.
  match goal with
  | |- journalExtends _ (if _ then setEnvironmentalFactors _ ?x else ?x) =>
      assert (Hx : journalExtends s0 x);
        [|destruct (manualEnvironmentControl x); journal]
  end.
  apply journal_fold; [|journal].
  intros s1 x. apply journal_same. now apply frame_resetUnit.
Qed.

Lemma journal_pickEvent (now : Z) (events : list (string * Severity))
      (s0 s : State) :
  journalExtends s0 s -> journalExtends s0 (pickEvent now events s).
Proof.
  intros H. unfold pickEvent. rewrite randomBelow_eq.
  destruct (nth_error events _) as [[m sev]|]; journal.
Qed.

(** One handler of the page never removes or rewrites a log entry, and
    keeps the alert list within twenty entries. *)
Lemma journal_of_step (st st' : State) : step st st' -> journalExtends st st'.
Proof.
  intros Hstep. assert (H := journal_refl st). destruct Hstep.
  - unfold tick. journal.
  - unfold updateEnvironmentalFactors. journal.
  - now apply journal_checkAnomalies.
  - unfold generateRandomEvent. rewrite !random_eq.
    repeat match goal with
           | |- journalExtends _ (if ?c then _ else _) => destruct c
           end; try apply journal_pickEvent; journal.
  - unfold monitorEquipmentHealth. apply journal_fold; [|exact H].
    intros s x. apply journal_monitorUnit.
  - unfold degradeEquipmentHealth. cbv zeta.
    apply journal_fold; [|journal].
    intros s x. apply journal_same. now apply frame_degradeUnit.
  - now apply journal_generateAnomaly.
  - now apply journal_correctAnomaly.
  - unfold handleTimeChange. cbv zeta.
    apply journal_updateSimulation, journal_addAlert,
      journal_initializeSystemState. journal.
  - unfold resetTime. cbv zeta.
    apply journal_updateSimulation, journal_addAlert,
      journal_initializeSystemState. journal.
  - unfold advanceTime. journal.
  - unfold toggleManualControl. journal.
  - unfold resetEnvironment. journal.
  - unfold updateFactor. journal.
  - journal.
  - journal.
Qed.

(** X9. Whatever a timer or the user does, the session log only grows:
    the log after the handler is the log before it followed by the new
    entries; and a handler that finds at most twenty alerts in the list
    leaves at most twenty. *)
Theorem session_log_append_only (st st' : State) :
  step st st' ->
  (exists entries, logs st' = logs st ++ entries) /\
  ((List.length (alertList st) <= 20)%nat ->
   (List.length (alertList st') <= 20)%nat).
Proof. apply journal_of_step. Qed.

Lemma journalOf_initializeUnits (p : EquipPrefix) (todo : nat) :
  forall i st,
    logs (initializeUnits p i todo st) = logs st /\
    alertList (initializeUnits p i todo st) = alertList st.
Proof.
  induction todo as [|n IH]; intros i st; [now split|].
  cbn [initializeUnits]. rewrite random_eq.
  destruct (IH (i + 1)%Z
              (setEquipmentHealth
                 (eqAssign (mkEquipId p i)
                    (freshEquipment (mkEquipId p i) (randoms st (drawn st)))
                    (equipmentHealth (setDrawn (S (drawn st)) st)))
                 (setDrawn (S (drawn st)) st))) as [-> ->].
  now split.
Qed.

Lemma journalOf_init (now : Z) (rs : nat -> Q) :
  logs (init now rs) = [mkLog now (Text "System initialized") LogInfo] /\
  alertList (init now rs) = [].
Proof.
  unfold init. rewrite logs_log, alertList_log.
  unfold initializeEquipment, equipmentTypes.
  cbn [fold_left fst snd].
  repeat match goal with
         | |- context [logs (initializeUnits ?p ?i ?n ?s)] =>
             let H := fresh in
             destruct (journalOf_initializeUnits p n i s) as [H _];
             rewrite H; clear H
         | |- context [alertList (initializeUnits ?p ?i ?n ?s)] =>
             let H := fresh in
             destruct (journalOf_initializeUnits p n i s) as [_ H];
             rewrite H; clear H
         end.
  split; reflexivity.
Qed.

Lemma session_log_append_only_witness :
  step (init startTime (drawsFrom stormDraws)) stormStart /\
  exists entries,
    logs stormStart
    = logs (init startTime (drawsFrom stormDraws)) ++ entries.
Proof.
  assert (H : step (init startTime (drawsFrom stormDraws)) stormStart)
    by (unfold stormStart; apply StepGenerateAnomaly).
  split; [exact H|].
  exact (proj1 (session_log_append_only _ _ H)).
Defined.

(** X10. In every state the page can reach the alert list holds at most
    twenty alerts, and the session log still starts with the entry that
    [init] wrote. *)
Theorem alert_list_bounded (rs : nat -> Q) (st : State) :
  reachable rs st ->
  (List.length (alertList st) <= 20)%nat /\
  exists now entries,
    logs st = mkLog now (Text "System initialized") LogInfo :: entries.
Proof.
  induction 1 as [now|st st' _ [IHa (now & entries & IHl)] Hstep].
  - destruct (journalOf_init now rs) as [El Ea].
    rewrite Ea. split; [cbn [List.length]; lia|].
    exists now, []. exact El.
  - destruct (journal_of_step _ _ Hstep) as [[l Hl] Ha].
    split; [now apply Ha|].
    exists now, (entries ++ l). now rewrite Hl, IHl.
Qed.

Lemma alert_list_bounded_witness :
  reachable (drawsFrom doubleClaimDraws) escalatedRun /\
  (List.length (alertList escalatedRun) <= 20)%nat.
Proof.
  assert (Hr : reachable (drawsFrom doubleClaimDraws) escalatedRun).
  { unfold escalatedRun, doubleClaimRun.
    eapply ReachStep; [|apply StepCheckAnomalies].
    eapply ReachStep; [|apply StepGenerateAnomaly].
    eapply ReachStep; [|apply StepGenerateAnomaly].
    apply ReachInit. }
  split; [exact Hr|].
  exact (proj1 (alert_list_bounded _ _ Hr)).
Defined.

Section TimeControls.

Lemma lastUpdateTime_updateSimulation (now : Z) (st : State) :
  lastUpdateTime (updateSimulation now st) = getCurrentTime now st.
Proof.
  unfold updateSimulation. destruct (midnightCrossing _ _); reflexivity.
Qed.

Lemma simulationTime_updateSimulation (now : Z) (st : State) :
  simulationTime (updateSimulation now st) = simulationTime st.
Proof.
  unfold updateSimulation. destruct (midnightCrossing _ _); reflexivity.
Qed.

Lemma simulationTime_addAlert (now : Z) (m : Message) (sev : Severity)
      (st : State) :
  simulationTime (addAlert now m sev st) = simulationTime st.
Proof. reflexivity. Qed.

Lemma lastUpdateTime_addAlert (now : Z) (m : Message) (sev : Severity)
      (st : State) :
  lastUpdateTime (addAlert now m sev st) = lastUpdateTime st.
Proof. reflexivity. Qed.

Lemma dailyCumulative_addAlert (now : Z) (m : Message) (sev : Severity)
      (st : State) :
  dailyCumulative (addAlert now m sev st) = dailyCumulative st.
Proof. reflexivity. Qed.

Lemma calculateSolarGeneration_frame (time : Z) (st st' : State) :
  capacity st' = capacity st ->
  environmentalFactors st' = environmentalFactors st ->
  anomalyOverrides st' = anomalyOverrides st ->
  anomalies st' = anomalies st ->
  calculateSolarGeneration time st' = calculateSolarGeneration time st.
Proof.
  intros Hc He Ho Ha.
  unfold calculateSolarGeneration, baseGenerationAt, effectiveDust,
    effectiveCloud.
  now rewrite Hc, He, Ho, Ha.
Qed.

Lemma midnightCrossing_same_hour (h : Z) : midnightCrossing h h = false.
Proof.
  unfold midnightCrossing.
  destruct (Z.eqb_spec h 23) as [->|]; [reflexivity|reflexivity].
Qed.

(** The reinitialisation that [handleTimeChange] and [resetTime] share:
    [initializeSystemState(true)], an alert, and one update, after the
    clock has been set. *)
Lemma reinitialisation (now : Z) (m : Message) (v : option Z) (st : State) :
  validDraws (randoms st) ->
  reinitialised (getCurrentTime now (setSimulationTime v st)) st
    (updateSimulation now
       (addAlert now m info
          (initializeSystemState now true (setSimulationTime v st)))) /\
  simulationTime
    (updateSimulation now
       (addAlert now m info
          (initializeSystemState now true (setSimulationTime v st)))) = v.
Proof.
  intros Hr.
  assert (Hs1 : simulationTime (setSimulationTime v st) = v) by reflexivity.
  assert (Hk1 : equipmentKeys (setSimulationTime v st) = equipmentKeys st)
    by reflexivity.
  assert (Hm1 : manualEnvironmentControl (setSimulationTime v st)
                = manualEnvironmentControl st) by reflexivity.
  assert (He1 : environmentalFactors (setSimulationTime v st)
                = environmentalFactors st) by reflexivity.
  assert (Hg1 : logs (setSimulationTime v st) = logs st) by reflexivity.
  assert (Hr1 : randoms (setSimulationTime v st) = randoms st)
    by reflexivity.
  remember (setSimulationTime v st) as st1 eqn:Est1. clear Est1.
  destruct (initializeSystemState_fields now st1)
    as (Hov & Hdc & Hlu & Hsim & Hcap & _ & Henv & Hlog & Heq).
  assert (Hk2 := equipmentKeys_initializeSystemState now true st1).
  assert (Ha2 := anomalies_initializeSystemState now true st1).
  remember (initializeSystemState now true st1) as st2 eqn:Est2. clear Est2.
  assert (Hsim3 : simulationTime (addAlert now m info st2) = v)
    by (rewrite simulationTime_addAlert; congruence).
  assert (Hl3 : lastUpdateTime (addAlert now m info st2)
                = getCurrentTime now st1)
    by (rewrite lastUpdateTime_addAlert; exact Hlu).
  assert (Hd3 : dailyCumulative (addAlert now m info st2) = 0%R)
    by (rewrite dailyCumulative_addAlert; exact Hdc).
  assert (Ht : getCurrentTime now (addAlert now m info st2)
               = getCurrentTime now st1).
  { unfold getCurrentTime. rewrite Hsim3, Hs1. reflexivity. }
  split; [|now rewrite simulationTime_updateSimulation].
  unfold reinitialised.
  split.
  { rewrite anomalies_updateSimulation, anomalies_addAlert. exact Ha2. }
  split.
  { rewrite anomalyOverrides_updateSimulation, anomalyOverrides_addAlert.
    exact Hov. }
  split.
  { rewrite updateSimulation_cumulative, Hl3, Ht, midnightCrossing_same_hour.
    rewrite Hd3, Z.sub_diag. lra. }
  split. { rewrite lastUpdateTime_updateSimulation. exact Ht. }
  split.
  { rewrite updateSimulation_generation, Ht. symmetry.
    apply calculateSolarGeneration_frame.
    - apply capacity_updateSimulation.
    - apply environmentalFactors_updateSimulation.
    - apply anomalyOverrides_updateSimulation.
    - apply anomalies_updateSimulation. }
  split.
  { rewrite equipmentKeys_updateSimulation, equipmentKeys_addAlert.
    congruence. }
  split.
  { intros id e.
    rewrite equipmentHealth_updateSimulation, equipmentHealth_addAlert, Heq.
    intros He.
    apply resetUnits_lookup in He; [|cbn [randoms setAnomalies
      setLastUpdateTime setDailyCumulative setCurrentGeneration];
      now rewrite Hr1].
    destruct He as [He|[Hnin He]]; [exact He|].
    exfalso. apply Hnin. eapply eqLookup_keys. exact He. }
  split.
  { rewrite environmentalFactors_updateSimulation,
      environmentalFactors_addAlert, Henv, Hm1, He1. reflexivity. }
  destruct (journal_updateSimulation now _ _
              (journal_refl (addAlert now m info st2))) as [[l Hl] _].
  exists ([mkLog now (SystemInitializedAt (getCurrentTime now st1)) LogSystem]
          ++ [mkLog now m (LogAlert info)] ++ l).
  rewrite Hl, logs_addAlert, Hlog, Hg1.
  rewrite <- !app_assoc. reflexivity.
Qed.

(** X11. Setting the simulated time, or returning to real time, starts
    the plant afresh: no anomaly and no override is left, every unit is
    healthy, unclaimed and without issues at a health between 95 and 100,
    the daily cumulative is zero, the displayed generation is that of the
    new time, the manual factors are back at their defaults, and the
    session log is kept. *)
Theorem time_change_reinitialises (now hours minutes : Z) (st : State) :
  validDraws (randoms st) ->
  reinitialised (todayAt now hours minutes) st
                (handleTimeChange now hours minutes st) /\
  simulationTime (handleTimeChange now hours minutes st)
  = Some (todayAt now hours minutes) /\
  reinitialised now st (resetTime now st) /\
  simulationTime (resetTime now st) = None.
Proof.
  intros Hr.
  destruct (reinitialisation now
              (InitializedWithSimulationTime hours minutes)
              (Some (todayAt now hours minutes)) st Hr) as [H1 H2].
  destruct (reinitialisation now
              (Text "System initialized with current time - Real-time mode active")
              None st Hr) as [H3 H4].
  split; [exact H1|]. split; [exact H2|]. split; [exact H3 | exact H4].
Qed.

Lemma time_change_reinitialises_witness :
  validDraws (randoms stormStart) /\
  anomalies (handleTimeChange (startTime + 9000) 12 30 stormStart) = [] /\
  anomalyOverrides (handleTimeChange (startTime + 9000) 12 30 stormStart)
  = mkOverrides None None.
Proof.
  assert (Hv : validDraws (randoms stormStart)).
  { unfold stormStart. rewrite randoms_generateAnomaly, randoms_init.
    apply drawsFrom_valid. reflexivity. }
  destruct (time_change_reinitialises (startTime + 9000) 12 30 stormStart Hv)
    as ((H1 & H2 & _) & _).
  split; [exact Hv|]. split; [exact H1 | exact H2].
Defined.

End TimeControls.

Section PanelSelection.

Lemma includes_In (l : list EquipId) (id : EquipId) :
  includes l id = true <-> In id l.
Proof.
  unfold includes. rewrite existsb_exists. split.
  - intros [x [Hx E]]. destruct (equipId_eqb_spec id x) as [->|];
      [exact Hx | discriminate].
  - intros H. exists id. split; [exact H|].
    now destruct (equipId_eqb_spec id id).
Qed.

Lemma randomIndex_range (r : Q) (n : Z) :
  (0 <= r)%Q /\ (r < 1)%Q -> (0 < n)%Z ->
  (0 <= Qfloor (r * inject_Z n) < n)%Z.
Proof.
  intros [H0 H1] Hn.
  assert (Hn' : (0 < inject_Z n)%Q)
    by (change 0%Q with (inject_Z 0); now rewrite <- Zlt_Qlt).
  split.
  - change 0%Z with (Qfloor 0). apply Qfloor_resp_le.
    apply Qmult_le_0_compat; [exact H0 | now apply Qlt_le_weak].
  - rewrite Zlt_Qlt. eapply Qle_lt_trans; [apply Qfloor_le|].
    rewrite <- (Qmult_1_l (inject_Z n)) at 2.
    now apply Qmult_lt_compat_r.
Qed.

(** What the selection loop picks, and what it does to the units. *)
Lemma selectPanels_spec (panelIds : list EquipId)
      (claim : Equipment.t -> Equipment.t) (rounds : nat) :
  forall affected st,
    exists extra,
      fst (selectPanels rounds panelIds claim affected st)
      = affected ++ extra /\
      (List.length extra <= rounds)%nat /\
      NoDup extra /\
      (forall id, In id extra -> In id panelIds /\ ~ In id affected) /\
      (forall id,
          In id extra ->
          exists e0,
            eqLookup id (equipmentHealth st) = Some e0 /\
            eqLookup id
              (equipmentHealth
                 (snd (selectPanels rounds panelIds claim affected st)))
            = Some (claim e0)) /\
      (forall id,
          ~ In id extra ->
          eqLookup id
            (equipmentHealth
               (snd (selectPanels rounds panelIds claim affected st)))
          = eqLookup id (equipmentHealth st)).
Proof.
  induction rounds as [|n IH]; intros affected st.
  - exists []. cbn [selectPanels fst snd]. rewrite app_nil_r.
    split; [reflexivity|]. split; [cbn [List.length]; lia|].
    split; [constructor|].
    split; [intros id []|]. split; [intros id []|]. reflexivity.
  - cbn [selectPanels]. rewrite randomBelow_eq.
    set (st1 := setDrawn (S (drawn st)) st).
    assert (Hskip :
      exists extra,
        fst (selectPanels n panelIds claim affected st1) = affected ++ extra /\
        (List.length extra <= S n)%nat /\
        NoDup extra /\
        (forall id, In id extra -> In id panelIds /\ ~ In id affected) /\
        (forall id,
            In id extra ->
            exists e0,
              eqLookup id (equipmentHealth st) = Some e0 /\
              eqLookup id
                (equipmentHealth
                   (snd (selectPanels n panelIds claim affected st1)))
              = Some (claim e0)) /\
        (forall id,
            ~ In id extra ->
            eqLookup id
              (equipmentHealth
                 (snd (selectPanels n panelIds claim affected st1)))
            = eqLookup id (equipmentHealth st))).
    { destruct (IH affected st1) as (extra & H1 & H2 & H3 & H4 & H5 & H6).
      exists extra. split; [exact H1|]. split; [lia|]. split; [exact H3|].
      split; [exact H4|]. split; [exact H5 | exact H6]. }
    destruct (nth_error panelIds _) as [id|] eqn:Hnth; [|exact Hskip].
    change (equipmentHealth st1) with (equipmentHealth st).
    destruct (eqLookup id (equipmentHealth st)) as [e0|] eqn:Hlook;
      [|exact Hskip].
    destruct (includes affected id) eqn:Hinc; cbn [negb]; [exact Hskip|].
    clear Hskip.
    assert (Hnew : ~ In id affected).
    { intros H. apply includes_In in H. congruence. }
    destruct (IH (affected ++ [id]) (updateEquipment id claim st1))
      as (extra & H1 & H2 & H3 & H4 & H5 & H6).
    assert (Hid : ~ In id extra).
    { intros H. apply H4 in H. destruct H as [_ H]. apply H.
      apply in_or_app. right. now left. }
    exists (id :: extra). rewrite H1, <- app_assoc. cbn [app].
    split; [reflexivity|]. split; [cbn [List.length]; lia|].
    split; [now constructor|].
    split; [|split].
    + intros x [<-|Hx].
      * split; [eapply nth_error_In; exact Hnth | exact Hnew].
      * destruct (H4 x Hx) as [Hp Hn]. split; [exact Hp|].
        intros H. apply Hn. apply in_or_app. now left.
    + intros x [<-|Hx].
      * exists e0. split; [exact Hlook|].
        rewrite (H6 id Hid), equipmentHealth_updateEquipment.
        change (equipmentHealth st1) with (equipmentHealth st).
        now rewrite eqLookup_eqUpdate_same, Hlook.
      * destruct (H5 x Hx) as (e1 & He1 & Hfin).
        exists e1. split; [|exact Hfin].
        rewrite equipmentHealth_updateEquipment in He1.
        change (equipmentHealth st1) with (equipmentHealth st) in He1.
        rewrite eqLookup_eqUpdate_other in He1; [exact He1|].
        intros ->. contradiction.
    + intros x Hx.
      assert (Hne : id <> x) by (intros ->; apply Hx; now left).
      rewrite H6 by (intros H; apply Hx; now right).
      rewrite equipmentHealth_updateEquipment.
      change (equipmentHealth st1) with (equipmentHealth st).
      now apply eqLookup_eqUpdate_other.
Qed.

(** With a draw in [0,1) the first round of the loop always picks. *)
Lemma selectPanels_first (panelIds : list EquipId)
      (claim : Equipment.t -> Equipment.t) (rounds : nat) (st : State) :
  (0 <= randoms st (drawn st))%Q /\ (randoms st (drawn st) < 1)%Q ->
  panelIds <> [] ->
  (forall id, In id panelIds ->
              exists e, eqLookup id (equipmentHealth st) = Some e) ->
  fst (selectPanels (S rounds) panelIds claim [] st) <> [].
Proof.
  intros Hr Hne Hall. cbn [selectPanels]. rewrite randomBelow_eq.
  set (st1 := setDrawn (S (drawn st)) st).
  assert (Hlen : (0 < Z.of_nat (List.length panelIds))%Z).
  { destruct panelIds; [contradiction | cbn [List.length]; lia]. }
  destruct (randomIndex_range _ _ Hr Hlen) as [Hlo Hhi].
  set (k := Qfloor _) in *.
  destruct (nth_error panelIds (Z.to_nat k)) as [id|] eqn:Hnth.
  2:{ apply nth_error_None in Hnth. lia. }
  change (equipmentHealth st1) with (equipmentHealth st).
  destruct (Hall id (nth_error_In _ _ Hnth)) as [e ->].
  cbn [includes existsb negb].
  destruct (selectPanels_spec panelIds claim rounds ([] ++ [id])
              (updateEquipment id claim st1)) as (extra & -> & _).
  cbn [app]. discriminate.
Qed.

Lemma panelIdsOf_spec (st : State) (id : EquipId) :
  In id (panelIdsOf st) ->
  isPanel id = true /\ exists e, eqLookup id (equipmentHealth st) = Some e.
Proof.
  unfold panelIdsOf. rewrite filter_In. intros [Hin Hp].
  split; [exact Hp | now apply keys_eqLookup].
Qed.

(** The units that a panel anomaly claims: at least one and at most
    [numToAffect] distinct panels, each with the anomaly's mark, and no
    other unit touched. *)
Lemma selectPanels_claims (numToAffect : Z) (most : nat)
      (claim : Equipment.t -> Equipment.t) (st s : State) :
  equipmentHealth s = equipmentHealth st ->
  (0 <= randoms s (drawn s))%Q /\ (randoms s (drawn s) < 1)%Q ->
  panelIdsOf st <> [] ->
  (1 <= numToAffect <= Z.of_nat most)%Z ->
  let ids :=
    fst (selectPanels (roundsOf numToAffect (panelIdsOf st))
                      (panelIdsOf st) claim [] s) in
  let s' :=
    snd (selectPanels (roundsOf numToAffect (panelIdsOf st))
                      (panelIdsOf st) claim [] s) in
  NoDup ids /\ (1 <= List.length ids <= most)%nat /\
  (forall id,
      In id ids ->
      isPanel id = true /\
      exists e0,
        eqLookup id (equipmentHealth st) = Some e0 /\
        eqLookup id (equipmentHealth s') = Some (claim e0)) /\
  (forall id,
      ~ In id ids ->
      eqLookup id (equipmentHealth s') = eqLookup id (equipmentHealth st)).
Proof.
  intros Heq Hr Hne Hnum ids s'.
  assert (Hall : forall id, In id (panelIdsOf st) ->
                 exists e, eqLookup id (equipmentHealth s) = Some e).
  { intros id Hin. rewrite Heq. now apply panelIdsOf_spec. }
  assert (Hrounds : exists n, roundsOf numToAffect (panelIdsOf st) = S n /\
                              (S n <= most)%nat).
  { unfold roundsOf.
    destruct (panelIdsOf st) as [|p ps]; [contradiction|].
    cbn [List.length].
    destruct (Z.to_nat numToAffect) as [|m] eqn:Em; [lia|].
    exists (Nat.min m (List.length ps)). split; [reflexivity|]. lia. }
  destruct Hrounds as (n & Hn & Hmost).
  assert (Hfirst := selectPanels_first (panelIdsOf st) claim n s Hr Hne Hall).
  destruct (selectPanels_spec (panelIdsOf st) claim (S n) [] s)
    as (extra & H1 & H2 & H3 & H4 & H5 & H6).
  subst ids s'. rewrite Hn. rewrite H1 in *. cbn [app] in *.
  split; [exact H3|]. split.
  - split; [|lia]. destruct extra; [contradiction | cbn [List.length]; lia].
  - split.
    + intros id Hid. split.
      * apply (panelIdsOf_spec st). now apply H4.
      * destruct (H5 id Hid) as (e0 & He0 & Hfin). exists e0.
        rewrite <- Heq. now split.
    + intros id Hid. rewrite <- Heq. now apply H6.
Qed.

Lemma panelIdsOf_frame (s st : State) :
  equipmentHealth s = equipmentHealth st -> panelIdsOf s = panelIdsOf st.
Proof. unfold panelIdsOf, equipmentKeys. now intros ->. Qed.

(** X12. The dust that a storm leaves: with draws in [0,1) and at least
    one panel in the plant, [generateDustAccumulationAfterStorm] appends
    one active dust accumulation caused by the storm; it lists between one
    and eight panels, no panel twice; exactly the listed panels are marked
    with it (degraded, 25 points of health taken, not below 20), and no
    other unit changes. *)
Theorem storm_cascade_claims_one_to_eight_panels (now : Z) (st : State) :
  validDraws (randoms st) ->
  panelIdsOf st <> [] ->
  let st' := generateDustAccumulationAfterStorm now st in
  exists a ids,
    anomalies st' = anomalies st ++ [a] /\
    Anomaly.type a = DustAccumulation /\
    Anomaly.active a = true /\
    Anomaly.causedBy a = Some DustStorm /\
    Anomaly.affectedEquipment a = Some ids /\
    NoDup ids /\ (1 <= List.length ids <= 8)%nat /\
    (forall id,
        In id ids ->
        isPanel id = true /\
        exists e0,
          eqLookup id (equipmentHealth st) = Some e0 /\
          eqLookup id (equipmentHealth st') = Some (stormDustClaim now e0)) /\
    (forall id,
        ~ In id ids ->
        eqLookup id (equipmentHealth st') = eqLookup id (equipmentHealth st)).
Proof.
  intros Hr Hne st'. subst st'.
  unfold generateDustAccumulationAfterStorm. rewrite randomBelow_eq.
  cbn [Anomaly.id].
  destruct (randomIndex_range _ 5 (Hr (drawn st)) eq_refl) as [Hlo Hhi].
  set (k := Qfloor _) in *.
  assert (Hclaims := selectPanels_claims (k + 4) 8 (stormDustClaim now) st
                       (setDrawn (S (drawn st)) st) eq_refl
                       (Hr (S (drawn st))) Hne ltac:(lia)).
  cbv zeta in Hclaims.
  pose proof (anomalies_selectPanels (roundsOf (k + 4) (panelIdsOf st))
                (panelIdsOf st) (stormDustClaim now) []
                (setDrawn (S (drawn st)) st)) as Ha.
  destruct (selectPanels _ _ _ _ _) as [affected st2].
  cbn [fst snd] in Hclaims, Ha.
  destruct Hclaims as (Hnd & Hlen & Hin & Hout).
  eexists. exists affected. autorewrite with frame. rewrite Ha.
  autorewrite with frame.
  split; [reflexivity|]. repeat (split; [reflexivity|]).
  split; [exact Hnd|]. split; [exact Hlen|]. split; [exact Hin | exact Hout].
Qed.

Lemma storm_cascade_claims_one_to_eight_panels_witness :
  validDraws (randoms stormStart) /\
  panelIdsOf stormStart <> [] /\
  exists a ids,
    anomalies (generateDustAccumulationAfterStorm (startTime + 30000)
                                                  stormStart)
    = anomalies stormStart ++ [a] /\
    Anomaly.affectedEquipment a = Some ids /\
    (1 <= List.length ids <= 8)%nat.
Proof.
  assert (Hv : validDraws (randoms stormStart)).
  { unfold stormStart. rewrite randoms_generateAnomaly, randoms_init.
    apply drawsFrom_valid. reflexivity. }
  assert (Hp : panelIdsOf stormStart <> []).
  { remember (panelIdsOf stormStart) as l eqn:El.
    vm_compute in El. subst l. discriminate. }
  destruct (storm_cascade_claims_one_to_eight_panels (startTime + 30000)
              stormStart Hv Hp)
    as (a & ids & H1 & _ & _ & _ & H2 & _ & H3 & _).
  split; [exact Hv|]. split; [exact Hp|].
  exists a, ids. split; [exact H1|]. split; [exact H2 | exact H3].
Defined.

(** X13. A manual panel fault or dust accumulation: with draws in [0,1)
    and at least one panel in the plant, [generateAnomaly] appends one
    anomaly that lists between one and four panels, no panel twice;
    exactly the listed panels carry its claim, and no other unit
    changes. *)
Theorem manual_panel_anomaly_claims_one_to_four_panels (now : Z)
        (ty : AnomalyType) (st : State) :
  ty = PanelFault \/ ty = DustAccumulation ->
  validDraws (randoms st) ->
  panelIdsOf st <> [] ->
  let st' := generateAnomaly now (Some ty) st in
  exists a ids,
    anomalies st' = anomalies st ++ [a] /\
    Anomaly.type a = ty /\
    Anomaly.active a = true /\
    Anomaly.affectedEquipment a = Some ids /\
    NoDup ids /\ (1 <= List.length ids <= 4)%nat /\
    (forall id,
        In id ids ->
        isPanel id = true /\
        exists e0,
          eqLookup id (equipmentHealth st) = Some e0 /\
          eqLookup id (equipmentHealth st')
          = Some (manualPanelClaim ty now e0)) /\
    (forall id,
        ~ In id ids ->
        eqLookup id (equipmentHealth st') = eqLookup id (equipmentHealth st)).
Proof.
  intros Hty Hr Hne st'. subst st'.
  unfold generateAnomaly. rewrite !randomBelow_eq.
  destruct Hty as [-> | ->]; cbn [anomalyTypes Anomaly.id];
    rewrite ?randomBelow_eq;
    match goal with
    | |- context [selectPanels (roundsOf _ ?p) ?p _ [] _] =>
        let Hp := fresh "Hp" in
        assert (Hp : p = panelIdsOf st)
          by (apply panelIdsOf_frame; autorewrite with frame; reflexivity);
        rewrite Hp; clear Hp
    end;
    match goal with
    | |- context [selectPanels
                    (roundsOf (Qfloor (?q * inject_Z 3) + 2) ?p) ?p ?c []
                    ?s] =>
        let Hq := fresh "Hq" in
        let Heq := fresh "Heq" in
        let Hd4 := fresh "Hd4" in
        let Hclaims := fresh "Hclaims" in
        let Ha := fresh "Ha" in
        assert (Hq : (0 <= q)%Q /\ (q < 1)%Q)
          by (autorewrite with frame; apply Hr);
        apply (fun H => randomIndex_range q 3 H eq_refl) in Hq;
        assert (Heq : equipmentHealth s = equipmentHealth st)
          by (autorewrite with frame; reflexivity);
        assert (Hd4 : (0 <= randoms s (drawn s))%Q /\
                      (randoms s (drawn s) < 1)%Q)
          by (autorewrite with frame; apply Hr);
        assert (Hclaims := selectPanels_claims
                             (Qfloor (q * inject_Z 3) + 2) 4 c st s
                             Heq Hd4 Hne ltac:(lia));
        cbv zeta in Hclaims;
        pose proof (anomalies_selectPanels
                      (roundsOf (Qfloor (q * inject_Z 3) + 2) p) p c [] s)
          as Ha;
        clear Hq Heq Hd4;
        destruct (selectPanels
                    (roundsOf (Qfloor (q * inject_Z 3) + 2) p) p c [] s)
          as [affected t5];
        cbn [fst snd] in Hclaims, Ha;
        autorewrite with frame in Ha;
        destruct Hclaims as (Hnd & Hlen & Hin & Hout);
        eexists; exists affected;
        autorewrite with frame; rewrite Ha, updateAt_last;
        (split; [reflexivity|]); repeat (split; [reflexivity|]);
        (split; [exact Hnd|]); (split; [exact Hlen|]);
        (split; [exact Hin | exact Hout])
    end.
Qed.

Lemma manual_panel_anomaly_claims_one_to_four_panels_witness :
  (PanelFault = PanelFault \/ PanelFault = DustAccumulation) /\
  validDraws (randoms (init startTime (drawsFrom doubleClaimDraws))) /\
  panelIdsOf (init startTime (drawsFrom doubleClaimDraws)) <> [] /\
  exists a ids,
    anomalies (generateAnomaly (startTime + 4000) (Some PanelFault)
                 (init startTime (drawsFrom doubleClaimDraws)))
    = anomalies (init startTime (drawsFrom doubleClaimDraws)) ++ [a] /\
    Anomaly.affectedEquipment a = Some ids /\
    (1 <= List.length ids <= 4)%nat.
Proof.
  assert (Hv : validDraws
                 (randoms (init startTime (drawsFrom doubleClaimDraws)))).
  { rewrite randoms_init. apply drawsFrom_valid. reflexivity. }
  assert (Hp : panelIdsOf (init startTime (drawsFrom doubleClaimDraws))
               <> []).
  { remember (panelIdsOf (init startTime (drawsFrom doubleClaimDraws)))
      as l eqn:El.
    vm_compute in El. subst l. discriminate. }
  destruct (manual_panel_anomaly_claims_one_to_four_panels
              (startTime + 4000) PanelFault
              (init startTime (drawsFrom doubleClaimDraws))
              (or_introl eq_refl) Hv Hp)
    as (a & ids & H1 & _ & _ & H2 & _ & H3 & _).
  split; [now left|]. split; [exact Hv|]. split; [exact Hp|].
  exists a, ids. split; [exact H1|]. split; [exact H2 | exact H3].
Defined.

End PanelSelection.

(** ** One claim per unit on the health-triggered path *)

Lemma atMost_same (st st' : State) :
  anomalies st' = anomalies st -> atMostOneClaim st -> atMostOneClaim st'.
Proof. unfold atMostOneClaim. now intros ->. Qed.

Lemma atMost_append (st st' : State) (a : Anomaly.t) :
  anomalies st' = anomalies st ++ [a] ->
  atMostOneClaim st ->
  (forall id, activelyClaims id a = true ->
              existsb (activelyClaims id) (anomalies st) = false) ->
  atMostOneClaim st'.
Proof.
  intros E H Hnew. unfold atMostOneClaim in *. rewrite E.
  assert (Hlast : forall k x, nth_error (anomalies st ++ [a]) k = Some x ->
                  nth_error (anomalies st) k = Some x \/
                  (k = List.length (anomalies st) /\ x = a)).
  { intros k x Hk.
    destruct (Nat.lt_ge_cases k (List.length (anomalies st))) as [Hlt|Hge].
    - left. now rewrite nth_error_app1 in Hk.
    - right. rewrite nth_error_app2 in Hk by exact Hge.
      destruct (k - List.length (anomalies st))%nat as [|[|n]] eqn:Ek;
        try discriminate.
      injection Hk as <-. split; [lia | reflexivity]. }
  assert (Hold : forall k x id, nth_error (anomalies st) k = Some x ->
                 activelyClaims id x = true ->
                 existsb (activelyClaims id) (anomalies st) = true).
  { intros k x id Hk Hx. apply existsb_exists. exists x.
    split; [eapply nth_error_In; exact Hk | exact Hx]. }
  intros i j x y id Hij Hi Hj Hx Hy.
  apply Hlast in Hi, Hj.
  destruct Hi as [Hi|[Hi ->]], Hj as [Hj|[Hj ->]].
  - exact (H i j x y id Hij Hi Hj Hx Hy).
  - specialize (Hnew id Hy). rewrite (Hold i x id Hi Hx) in Hnew.
    discriminate.
  - specialize (Hnew id Hx). rewrite (Hold j y id Hj Hy) in Hnew.
    discriminate.
  - lia.
Qed.

Lemma monitorUnit_appends (now : Z) (st : State) (equipmentId : EquipId) :
  anomalies (monitorUnit now st equipmentId) = anomalies st \/
  existsb (activelyClaims equipmentId) (anomalies st) = false /\
  exists a,
    anomalies (monitorUnit now st equipmentId) = anomalies st ++ [a] /\
    justCreated now a /\
    Anomaly.affectedEquipment a = Some [equipmentId].
Proof.
  unfold monitorUnit.
  destruct (eqLookup equipmentId (equipmentHealth st)) as [e|];
    [|now left].
  destruct (status_eqb _ _ && _); [|now left].
  destruct (existsb _ _) eqn:Hex; [now left|].
  right. split; [reflexivity|].
  assert (Hgen : forall ty s, nonEnvironmental ty = true ->
                 anomalies s = anomalies st ->
                 exists a,
                   anomalies (generateAnomalyForEquipment now ty equipmentId s)
                   = anomalies st ++ [a] /\
                   justCreated now a /\
                   Anomaly.affectedEquipment a = Some [equipmentId]).
  { intros ty s Hty Hs.
    destruct (triggered_appends now ty equipmentId s Hty)
      as (a & Ha & _ & _ & Hnew & Haff).
    exists a. rewrite Ha, Hs. auto. }
  rewrite random_eq.
  destruct (prefix equipmentId); autorewrite with frame;
    try (apply Hgen; reflexivity).
  destruct (Qltb _ _); apply Hgen; reflexivity.
Qed.

Lemma atMost_monitorUnit (now : Z) (st : State) (equipmentId : EquipId) :
  atMostOneClaim st -> atMostOneClaim (monitorUnit now st equipmentId).
Proof.
  intros H.
  destruct (monitorUnit_appends now st equipmentId)
    as [E|(Hex & a & E & _ & Haff)].
  - now apply (atMost_same st).
  - apply (atMost_append st _ a E H).
    intros id Hid. unfold activelyClaims in Hid. rewrite Haff in Hid.
    apply andb_prop in Hid. destruct Hid as [_ Hid].
    apply includes_In in Hid. destruct Hid as [<-|[]]. exact Hex.
Qed.

(** X14. The health monitor keeps to one claim per unit: if no unit is
    listed by two active anomalies before [monitorEquipmentHealth] runs,
    none is afterwards.  It raises an anomaly for a unit only when no
    active anomaly lists that unit, and the anomaly it raises lists that
    unit alone. *)
Theorem health_monitor_keeps_one_claim_per_unit (now : Z) (st : State) :
  atMostOneClaim st -> atMostOneClaim (monitorEquipmentHealth now st).
Proof.
  intros H. unfold monitorEquipmentHealth.
  apply (fold_left_invariant atMostOneClaim); [|exact H].
  intros s x. apply atMost_monitorUnit.
Qed.

Lemma health_monitor_keeps_one_claim_per_unit_witness :
  atMostOneClaim panelFaultRun /\
  atMostOneClaim (monitorEquipmentHealth (startTime + 60000) panelFaultRun).
Proof.
  assert (H : atMostOneClaim panelFaultRun).
  { unfold atMostOneClaim.
    remember (anomalies panelFaultRun) as l eqn:El.
    vm_compute in El. subst l.
    intros [|i] [|j] a b id Hij Hi Hj; cbn [nth_error] in Hi, Hj;
      try (exfalso; now apply Hij);
      try (destruct i; discriminate); destruct j; discriminate. }
  split; [exact H|].
  exact (health_monitor_keeps_one_claim_per_unit (startTime + 60000) _ H).
Defined.

(** ** A resolved anomaly is final *)

Lemma persists_same (st st' : State) :
  anomalies st' = anomalies st -> persists st st'.
Proof.
  intros E. right. intros i a Hi. exists a. rewrite E. auto 10.
Qed.

Lemma persists_append (st st' : State) (extra : list Anomaly.t) :
  anomalies st' = anomalies st ++ extra -> persists st st'.
Proof.
  intros E. right. intros i a Hi. exists a. rewrite E.
  rewrite nth_error_app1 by (apply nth_error_Some; congruence).
  auto 10.
Qed.

Lemma checkedAnomaly_persists (now : Z) (a : Anomaly.t) :
  Anomaly.id (checkedAnomaly now a) = Anomaly.id a /\
  Anomaly.type (checkedAnomaly now a) = Anomaly.type a /\
  Anomaly.timestamp (checkedAnomaly now a) = Anomaly.timestamp a /\
  (Anomaly.active (checkedAnomaly now a) = true -> Anomaly.active a = true) /\
  (Anomaly.active a = false -> checkedAnomaly now a = a).
Proof.
  unfold checkedAnomaly.
  destruct (Anomaly.active a) eqn:Ea; [|repeat split; congruence].
  destruct (Qle_bool 200 _); [repeat split; congruence|].
  destruct (_ && _); repeat split; congruence.
Qed.

Lemma monitor_appends (now : Z) (l : list EquipId) :
  forall st,
    exists extra,
      anomalies (fold_left (monitorUnit now) l st) = anomalies st ++ extra.
Proof.
  induction l as [|x l IH]; intros st.
  - exists []. now rewrite app_nil_r.
  - cbn [fold_left]. destruct (IH (monitorUnit now st x)) as [extra ->].
    destruct (monitorUnit_appends now st x) as [->|(_ & a & -> & _)].
    + now exists extra.
    + exists ([a] ++ extra). now rewrite app_assoc.
Qed.

Lemma persists_of_step (st st' : State) : step st st' -> persists st st'.
Proof.
  intros Hstep. destruct Hstep.
  - apply persists_same, core_anomalies, core_tick.
  - apply persists_same, core_anomalies, core_updateEnvironmentalFactors.
  - right. intros i a Hi. exists (checkedAnomaly now a).
    split; [now apply checkAnomalies_anomalies|].
    apply checkedAnomaly_persists.
  - apply persists_same, core_anomalies, core_generateRandomEvent.
  - unfold monitorEquipmentHealth.
    destruct (monitor_appends now (equipmentKeys st) st) as [extra E].
    now apply (persists_append _ _ extra).
  - apply persists_same. unfold degradeEquipmentHealth.
    rewrite (fold_left_frame anomalies degradeUnit)
      by (intros; now apply frame_degradeUnit).
    reflexivity.
  - destruct selected as [ty|]; [|now apply persists_same].
    destruct (manual_appends now ty st) as (a & Ha & _).
    now apply (persists_append _ _ [a]).
  - unfold correctAnomaly.
    destruct (findById anomalyId 0 (anomalies st)) as [[i a]|] eqn:Hf;
      [|now apply persists_same].
    destruct (Anomaly.active a) eqn:Ea; [|now apply persists_same].
    apply findById_some in Hf. destruct Hf as (_ & Hi & _).
    rewrite Nat.sub_0_r in Hi.
    right. intros j b Hj.
    rewrite anomalies_updateSimulation.
    match goal with
    | |- context [clearEffects now a ?s] =>
        destruct (clearEffects_anomalies now a s) as (extra & -> & _)
    end.
    autorewrite with frame.
    assert (Hjl : (j < List.length (anomalies st))%nat)
      by (apply nth_error_Some; congruence).
    rewrite nth_error_app1 by (rewrite updateAt_length; exact Hjl).
    destruct (Nat.eq_dec i j) as [->|Hne].
    + rewrite updateAt_same, Hj. cbn [option_map].
      assert (b = a) by congruence. subst b.
      eexists. split; [reflexivity|].
      repeat split; try reflexivity; intros H; cbn in H; congruence.
    + rewrite updateAt_other by exact Hne. exists b. auto 10.
  - left. unfold handleTimeChange. autorewrite with frame.
    apply anomalies_initializeSystemState.
  - left. unfold resetTime. autorewrite with frame.
    apply anomalies_initializeSystemState.
  - apply persists_same, core_anomalies, core_advanceTime.
  - apply persists_same, core_anomalies, core_toggleManualControl.
  - apply persists_same, core_anomalies, core_resetEnvironment.
  - apply persists_same, core_anomalies, core_updateFactor.
  - now apply persists_same.
  - now apply persists_same.
Qed.

(** X15. A resolved anomaly is final.  Whatever a timer or the user
    does, either the handler empties the anomaly list (the
    reinitialisation of a time change) or every anomaly stays at its
    position with its id, type and timestamp; one that was resolved is
    left exactly as it was, and none becomes active again. *)
Theorem resolved_anomaly_is_final (st st' : State) :
  step st st' ->
  anomalies st' = [] \/
  forall i a,
    nth_error (anomalies st) i = Some a ->
    exists a',
      nth_error (anomalies st') i = Some a' /\
      Anomaly.id a' = Anomaly.id a /\
      Anomaly.type a' = Anomaly.type a /\
      Anomaly.timestamp a' = Anomaly.timestamp a /\
      (Anomaly.active a' = true -> Anomaly.active a = true) /\
      (Anomaly.active a = false -> a' = a).
Proof. apply persists_of_step. Qed.

Lemma resolved_anomaly_is_final_witness :
  step stormTimedOut (checkAnomalies (startTime + 300000) stormTimedOut) /\
  (anomalies (checkAnomalies (startTime + 300000) stormTimedOut) = [] \/
   forall i a,
     nth_error (anomalies stormTimedOut) i = Some a ->
     exists a',
       nth_error (anomalies (checkAnomalies (startTime + 300000)
                                            stormTimedOut)) i = Some a' /\
       Anomaly.id a' = Anomaly.id a /\
       Anomaly.type a' = Anomaly.type a /\
       Anomaly.timestamp a' = Anomaly.timestamp a /\
       (Anomaly.active a' = true -> Anomaly.active a = true) /\
       (Anomaly.active a = false -> a' = a)).
Proof.
  assert (Hs : step stormTimedOut
                    (checkAnomalies (startTime + 300000) stormTimedOut))
    by apply StepCheckAnomalies.
  split; [exact Hs|].
  exact (resolved_anomaly_is_final _ _ Hs).
Defined.

(** ** Resolving an environmental anomaly by hand *)

Lemma environmentalFactors_cascade (now : Z) (st : State) :
  environmentalFactors (generateDustAccumulationAfterStorm now st)
  = environmentalFactors st.
Proof.
  unfold generateDustAccumulationAfterStorm. rewrite randomBelow_eq.
  destruct (selectPanels _ _ _ _ _) as [affected st2] eqn:E.
  apply (f_equal snd) in E. cbn [snd] in E.
  apply (f_equal environmentalFactors) in E.
  rewrite (frame_selectPanels _ environmentalFactors) in E
    by (intros; reflexivity).
  autorewrite with frame. rewrite <- E. reflexivity.
Qed.

Lemma correcting_storm_clears_override (now anomalyId : Z)
        (st : State) (i : nat) (a : Anomaly.t) :
  findById anomalyId 0 (anomalies st) = Some (i, a) ->
  Anomaly.active a = true ->
  isEnvironmental (Anomaly.type a) = true ->
  let st' := correctAnomaly now anomalyId st in
  environmentalFactors st' = environmentalFactors st /\
  (Anomaly.type a = DustStorm ->
   effectiveDust st' = dustLevel (environmentalFactors st) /\
   effectiveCloud st' = effectiveCloud st) /\
  (Anomaly.type a = CloudCover ->
   effectiveCloud st' = cloudCover (environmentalFactors st) /\
   effectiveDust st' = effectiveDust st) /\
  (forall j b,
      j <> i ->
      nth_error (anomalies st) j = Some b ->
      nth_error (anomalies st') j = Some b).
Proof.
  intros Hf Ha Hty st'. subst st'. unfold correctAnomaly. rewrite Hf, Ha.
  cbv zeta.
  assert (Hothers : forall j b,
             j <> i ->
             nth_error (anomalies st) j = Some b ->
             nth_error
               (anomalies
                  (updateSimulation now
                     (clearEffects now a
                        (log now (ManuallyCorrected (Anomaly.name a))
                           LogResolution
                           (addAlert now (AnomalyCorrected (Anomaly.name a))
                              info
                              (updateAnomaly i (markResolved now ByUser)
                                             st)))))) j = Some b).
  { intros j b Hne Hj. rewrite anomalies_updateSimulation.
    match goal with
    | |- context [clearEffects now a ?s] =>
        destruct (clearEffects_anomalies now a s) as (extra & -> & _)
    end.
    autorewrite with frame.
    rewrite nth_error_app1
      by (rewrite updateAt_length; apply nth_error_Some; congruence).
    rewrite updateAt_other by (intros E; apply Hne; now symmetry).
    exact Hj. }
  assert (Hrest :
    environmentalFactors
      (updateSimulation now
         (clearEffects now a
            (log now (ManuallyCorrected (Anomaly.name a)) LogResolution
               (addAlert now (AnomalyCorrected (Anomaly.name a)) info
                  (updateAnomaly i (markResolved now ByUser) st)))))
    = environmentalFactors st /\
    (Anomaly.type a = DustStorm ->
     effectiveDust
       (updateSimulation now
          (clearEffects now a
             (log now (ManuallyCorrected (Anomaly.name a)) LogResolution
                (addAlert now (AnomalyCorrected (Anomaly.name a)) info
                   (updateAnomaly i (markResolved now ByUser) st)))))
     = dustLevel (environmentalFactors st) /\
     effectiveCloud
       (updateSimulation now
          (clearEffects now a
             (log now (ManuallyCorrected (Anomaly.name a)) LogResolution
                (addAlert now (AnomalyCorrected (Anomaly.name a)) info
                   (updateAnomaly i (markResolved now ByUser) st)))))
     = effectiveCloud st) /\
    (Anomaly.type a = CloudCover ->
     effectiveCloud
       (updateSimulation now
          (clearEffects now a
             (log now (ManuallyCorrected (Anomaly.name a)) LogResolution
                (addAlert now (AnomalyCorrected (Anomaly.name a)) info
                   (updateAnomaly i (markResolved now ByUser) st)))))
     = cloudCover (environmentalFactors st) /\
     effectiveDust
       (updateSimulation now
          (clearEffects now a
             (log now (ManuallyCorrected (Anomaly.name a)) LogResolution
                (addAlert now (AnomalyCorrected (Anomaly.name a)) info
                   (updateAnomaly i (markResolved now ByUser) st)))))
     = effectiveDust st)).
  { clear Hothers.
    unfold isEnvironmental in Hty. unfold clearEffects, effectiveDust,
      effectiveCloud.
    destruct (Anomaly.type a) eqn:Et; try discriminate Hty.
    - rewrite environmentalFactors_updateSimulation,
        anomalyOverrides_updateSimulation, environmentalFactors_cascade.
      autorewrite with frame. cbn [dustOverride cloudOverride].
      split; [reflexivity|]. split; [now split | discriminate].
    - autorewrite with frame. cbn [dustOverride cloudOverride].
      split; [reflexivity|]. split; [discriminate | now split]. }
  destruct Hrest as (H1 & H2 & H3).
  split; [exact H1|]. split; [exact H2|]. split; [exact H3 | exact Hothers].
Qed.

(** X16. Correcting a dust storm (a cloud-cover spike) by hand removes
    the dust (cloud) override whatever else is active: the effective
    figure is the measured one again, even while another storm (spike) is
    still active.  The measured factors, the other override and every
    other anomaly are left as they are. *)
Theorem correcting_one_storm_clears_the_override (now anomalyId : Z)
        (st : State) (i : nat) (a : Anomaly.t) :
  findById anomalyId 0 (anomalies st) = Some (i, a) ->
  Anomaly.active a = true ->
  isEnvironmental (Anomaly.type a) = true ->
  let st' := correctAnomaly now anomalyId st in
  environmentalFactors st' = environmentalFactors st /\
  (Anomaly.type a = DustStorm ->
   effectiveDust st' = dustLevel (environmentalFactors st) /\
   effectiveCloud st' = effectiveCloud st) /\
  (Anomaly.type a = CloudCover ->
   effectiveCloud st' = cloudCover (environmentalFactors st) /\
   effectiveDust st' = effectiveDust st) /\
  (forall j b,
      j <> i ->
      nth_error (anomalies st) j = Some b ->
      nth_error (anomalies st') j = Some b).
Proof. exact (correcting_storm_clears_override now anomalyId st i a). Qed.

Lemma correcting_one_storm_clears_the_override_witness :
  findById (startTime + 5000) 0 (anomalies stormStart)
  = Some (0%nat,
          Anomaly.mk (startTime + 5000) DustStorm "Dust Storm"
                     EntireFacility 30 warning (startTime + 5000) true 0
                     (startTime + 5000) None None None None) /\
  effectiveDust stormCorrected = dustLevel (environmentalFactors stormStart).
Proof.
  assert (Hf : findById (startTime + 5000) 0 (anomalies stormStart)
               = Some (0%nat,
                       Anomaly.mk (startTime + 5000) DustStorm "Dust Storm"
                         EntireFacility 30 warning (startTime + 5000) true 0
                         (startTime + 5000) None None None None))
    by (vm_compute; reflexivity).
  split; [exact Hf|].
  destruct (correcting_one_storm_clears_the_override (startTime + 30000)
              (startTime + 5000) stormStart _ _ Hf eq_refl eq_refl)
    as (_ & H & _).
  exact (proj1 (H eq_refl)).
Defined.

(** ** The anomaly that the health monitor raises *)

Lemma equipmentClaim_marks (ty : AnomalyType) (anomalyId : Z)
      (e : Equipment.t) :
  nonEnvironmental ty = true ->
  Equipment.status (equipmentClaim ty anomalyId e) <> healthy /\
  Equipment.anomaly (equipmentClaim ty anomalyId e) = Some anomalyId.
Proof.
  intros H. destruct ty; try discriminate H; split; cbn; congruence.
Qed.

Lemma triggered_claims (now : Z) (ty : AnomalyType) (id : EquipId)
      (st : State) :
  nonEnvironmental ty = true ->
  equipmentHealth (generateAnomalyForEquipment now ty id st)
  = eqUpdate id
      (equipmentClaim ty (Z.of_nat (List.length (anomalies st)) + 1))
      (equipmentHealth st).
Proof.
  intros Hty. unfold generateAnomalyForEquipment. rewrite !randomBelow_eq.
  destruct ty; try discriminate Hty; cbn [equipmentAnomalyTypes Anomaly.id];
    autorewrite with frame; reflexivity.
Qed.

Lemma monitoredType_nonEnvironmental (id : EquipId) (r : Q) :
  nonEnvironmental (monitoredType id r) = true.
Proof.
  unfold monitoredType. destruct (prefix id); try reflexivity.
  now destruct (Qltb _ _).
Qed.

(** X17. A unit that is shown healthy, has a health under 80 and is not
    listed by an active anomaly gets one from the health monitor: a new
    active anomaly that lists this unit alone and whose id is the length
    of the anomaly list plus one.  Its type follows the unit: an
    inverter overload for an inverter, a dust accumulation or a panel
    fault for a panel, and a panel fault for a battery or a transformer
    as well.  The unit carries the claim (not healthy any more, marked
    with the id); no other unit changes. *)
Theorem health_monitor_raises_anomaly (now : Z) (st : State) (id : EquipId)
        (e : Equipment.t) :
  eqLookup id (equipmentHealth st) = Some e ->
  Equipment.status e = healthy ->
  (Equipment.health e < 80)%Q ->
  existsb (activelyClaims id) (anomalies st) = false ->
  let st' := monitorUnit now st id in
  let ty := monitoredType id (randoms st (drawn st)) in
  let anomalyId := (Z.of_nat (List.length (anomalies st)) + 1)%Z in
  exists a,
    anomalies st' = anomalies st ++ [a] /\
    Anomaly.id a = anomalyId /\
    Anomaly.type a = ty /\
    Anomaly.active a = true /\
    Anomaly.affectedEquipment a = Some [id] /\
    eqLookup id (equipmentHealth st')
    = Some (equipmentClaim ty anomalyId e) /\
    Equipment.status (equipmentClaim ty anomalyId e) <> healthy /\
    Equipment.anomaly (equipmentClaim ty anomalyId e) = Some anomalyId /\
    (forall x,
        x <> id ->
        eqLookup x (equipmentHealth st') = eqLookup x (equipmentHealth st)).
Proof.
  intros He Hs Hh Hex st' ty anomalyId. subst st'.
  assert (Hty : nonEnvironmental ty = true)
    by apply monitoredType_nonEnvironmental.
  assert (Hcond : status_eqb (Equipment.status e) healthy
                  && Qltb (Equipment.health e) 80 = true).
  { rewrite Hs. cbn [status_eqb andb]. unfold Qltb.
    destruct (Qle_bool 80 (Equipment.health e)) eqn:E; [|reflexivity].
    apply Qle_bool_iff in E. exfalso. now apply (Qlt_not_le _ _ Hh). }
  assert (Hgen : forall s,
             anomalies s = anomalies st ->
             equipmentHealth s = equipmentHealth st ->
             let g := generateAnomalyForEquipment now ty id s in
             exists a,
               anomalies g = anomalies st ++ [a] /\
               Anomaly.id a = anomalyId /\
               Anomaly.type a = ty /\
               Anomaly.active a = true /\
               Anomaly.affectedEquipment a = Some [id] /\
               equipmentHealth g
               = eqUpdate id (equipmentClaim ty anomalyId)
                          (equipmentHealth st)).
  { intros s Has Hes g. subst g.
    destruct (triggered_appends now ty id s Hty)
      as (a & Ha & Hid & Hta & (Hact & _) & Haff).
    exists a. rewrite Ha, Has, Hid, Has, (triggered_claims now ty id s Hty),
      Has, Hes.
    repeat split; assumption. }
  assert (Hfin : forall g a,
             anomalies g = anomalies st ++ [a] ->
             Anomaly.id a = anomalyId ->
             Anomaly.type a = ty ->
             Anomaly.active a = true ->
             Anomaly.affectedEquipment a = Some [id] ->
             equipmentHealth g
             = eqUpdate id (equipmentClaim ty anomalyId) (equipmentHealth st) ->
             forall m1 m2,
               exists a0,
                 anomalies (log now m2 LogAnomaly (addAlert now m1 warning g))
                 = anomalies st ++ [a0] /\
                 Anomaly.id a0 = anomalyId /\
                 Anomaly.type a0 = ty /\
                 Anomaly.active a0 = true /\
                 Anomaly.affectedEquipment a0 = Some [id] /\
                 eqLookup id
                   (equipmentHealth
                      (log now m2 LogAnomaly (addAlert now m1 warning g)))
                 = Some (equipmentClaim ty anomalyId e) /\
                 Equipment.status (equipmentClaim ty anomalyId e) <> healthy /\
                 Equipment.anomaly (equipmentClaim ty anomalyId e)
                 = Some anomalyId /\
                 (forall x,
                     x <> id ->
                     eqLookup x
                       (equipmentHealth
                          (log now m2 LogAnomaly
                               (addAlert now m1 warning g)))
                     = eqLookup x (equipmentHealth st))).
  { intros g a H1 H2 H3 H4 H5 H6 m1 m2. exists a.
    rewrite anomalies_log, anomalies_addAlert, equipmentHealth_log,
      equipmentHealth_addAlert, H6.
    split; [exact H1|]. split; [exact H2|]. split; [exact H3|].
    split; [exact H4|]. split; [exact H5|].
    split; [now rewrite eqLookup_eqUpdate_same, He|].
    destruct (equipmentClaim_marks ty anomalyId e Hty) as [Hm1 Hm2].
    split; [exact Hm1|]. split; [exact Hm2|].
    intros x Hx. apply eqLookup_eqUpdate_other. congruence. }
  unfold monitorUnit. rewrite He, Hcond, Hex. rewrite random_eq.
  subst ty. unfold monitoredType in *.
  destruct (prefix id); cbv zeta.
  - destruct (Hgen (setDrawn (S (drawn st)) st) eq_refl eq_refl)
      as (a & H1 & H2 & H3 & H4 & H5 & H6).
    exact (Hfin _ a H1 H2 H3 H4 H5 H6 _ _).
  - destruct (Hgen st eq_refl eq_refl) as (a & H1 & H2 & H3 & H4 & H5 & H6).
    exact (Hfin _ a H1 H2 H3 H4 H5 H6 _ _).
  - destruct (Hgen st eq_refl eq_refl) as (a & H1 & H2 & H3 & H4 & H5 & H6).
    exact (Hfin _ a H1 H2 H3 H4 H5 H6 _ _).
  - destruct (Hgen st eq_refl eq_refl) as (a & H1 & H2 & H3 & H4 & H5 & H6).
    exact (Hfin _ a H1 H2 H3 H4 H5 H6 _ _).
Qed.

Lemma health_monitor_raises_anomaly_witness :
  eqLookup (mkEquipId Panel 1) (equipmentHealth wornPanelState)
  = Some wornPanel /\
  Equipment.status wornPanel = healthy /\
  (Equipment.health wornPanel < 80)%Q /\
  existsb (activelyClaims (mkEquipId Panel 1)) (anomalies wornPanelState)
  = false /\
  exists a,
    anomalies (monitorUnit (startTime + 60000) wornPanelState
                           (mkEquipId Panel 1))
    = anomalies wornPanelState ++ [a] /\
    Anomaly.affectedEquipment a = Some [mkEquipId Panel 1].
Proof.
  assert (H1 : eqLookup (mkEquipId Panel 1) (equipmentHealth wornPanelState)
               = Some wornPanel) by (vm_compute; reflexivity).
  assert (H2 : Equipment.status wornPanel = healthy) by reflexivity.
  assert (H3 : (Equipment.health wornPanel < 80)%Q) by reflexivity.
  assert (H4 : existsb (activelyClaims (mkEquipId Panel 1))
                       (anomalies wornPanelState) = false)
    by (vm_compute; reflexivity).
  destruct (health_monitor_raises_anomaly (startTime + 60000) wornPanelState
              (mkEquipId Panel 1) wornPanel H1 H2 H3 H4)
    as (a & Ha & _ & _ & _ & Haff & _).
  repeat (split; [assumption|]).
  exists a. split; [exact Ha | exact Haff].
Defined.

(** ** The random events *)

Lemma logs_pickEvent (now : Z) (events : list (string * Severity))
      (st : State) :
  logs (pickEvent now events st) = logs st \/
  exists m sev,
    In (m, sev) events /\
    logs (pickEvent now events st)
    = logs st ++ [mkLog now (Text m) (LogAlert sev)].
Proof.
  unfold pickEvent. rewrite randomBelow_eq.
  destruct (nth_error events _) as [[m sev]|] eqn:E; [|now left].
  right. exists m, sev. split; [eapply nth_error_In; exact E|].
  now rewrite logs_addAlert.
Qed.

(** X18. What [generateRandomEvent] can report.  It writes at most one
    alert and leaves anomalies and equipment alone.  While an anomaly is
    active the alert is one of the three anomaly-aware messages, never a
    report of normal operation; otherwise a temperature warning needs a
    temperature above 35, a dust warning an effective dust level above
    30, and a report of optimal conditions a temperature of at most 30
    and an effective dust level of at most 20. *)
Theorem random_event_reports (now : Z) (st : State) :
  let st' := generateRandomEvent now st in
  core st' = core st /\
  (logs st' = logs st \/
   exists m sev,
     logs st' = logs st ++ [mkLog now (Text m) (LogAlert sev)] /\
     (existsb Anomaly.active (anomalies st) = true ->
      In m anomalyAwareEvents) /\
     (existsb Anomaly.active (anomalies st) = false ->
      ~ In m anomalyAwareEvents /\
      (m = "Temperature rising above optimal"%string ->
       (35 < temperature (environmentalFactors st))%R) /\
      (m = "Dust accumulation detected"%string ->
       (30 < effectiveDust st)%R) /\
      (m = "Operating conditions optimal"%string ->
       (temperature (environmentalFactors st) <= 30)%R /\
       (effectiveDust st <= 20)%R))).
Proof.
  intros st'. subst st'. split; [apply core_generateRandomEvent|].
  unfold generateRandomEvent. rewrite !random_eq.
  destruct (existsb Anomaly.active (anomalies st)) eqn:Hact.
  - destruct (Qltb _ _); [|now left].
    match goal with
    | |- context [pickEvent now ?ev ?s] =>
        destruct (logs_pickEvent now ev s) as [E|(m & sev & Hin & E)]
    end; [now left|].
    right. exists m, sev. split; [exact E|]. split; [|discriminate].
    intros _. unfold anomalyAwareEvents.
    cbn [In] in Hin |- *.
    repeat destruct Hin as [Hin|Hin]; try (injection Hin as <- _); tauto.
  - destruct (Qltb _ _); [|now left].
    match goal with
    | |- context [pickEvent now ?ev ?s] =>
        destruct (logs_pickEvent now ev s) as [E|(m & sev & Hin & E)]
    end; [now left|].
    right. exists m, sev. split; [exact E|]. split; [discriminate|].
    intros _.
    change (effectiveDust (setDrawn (S (drawn st)) st))
      with (effectiveDust st) in Hin.
    revert Hin.
    destruct (Rlt_dec 35 (temperature (environmentalFactors st))) as [H35|H35];
      destruct (Rlt_dec 30 (effectiveDust st)) as [H30|H30];
      destruct (Rle_dec (temperature (environmentalFactors st)) 30)
        as [Ht|Ht];
      try destruct (Rle_dec (effectiveDust st) 20) as [Hd|Hd];
      cbn [app In]; unfold anomalyAwareEvents; cbn [In];
      intros Hin;
      repeat destruct Hin as [Hin|Hin]; try contradiction;
      injection Hin as <- _;
      (split; [intros H; repeat destruct H as [H|H]; try discriminate H;
               contradiction|]);
      (split; [intros H; try discriminate H; assumption|]);
      (split; [intros H; try discriminate H; assumption|]);
      intros H; try discriminate H; split; assumption.
Qed.

(** ** An excursion into manual control *)

Lemma manualAction_frozen (now : Z) (st : State) (action : ManualAction) :
  manualEnvironmentControl st = true ->
  manualEnvironmentControl (manualAction now st action) = true /\
  simulatedEnvironmentalFactors (manualAction now st action)
  = simulatedEnvironmentalFactors st.
Proof.
  intros Hm. destruct action as [factor numValue| |]; cbn [manualAction].
  - unfold updateFactor. rewrite Hm. unfold updateSimulation.
    destruct (midnightCrossing _ _); now split.
  - unfold updateEnvironmentalFactors. rewrite Hm. now split.
  - unfold tick, updateSimulation.
    destruct (simulationTime st); destruct (midnightCrossing _ _);
      now split.
Qed.

Lemma manualActions_frozen (now : Z) (actions : list ManualAction) :
  forall st,
    manualEnvironmentControl st = true ->
    manualEnvironmentControl (fold_left (manualAction now) actions st) = true /\
    simulatedEnvironmentalFactors (fold_left (manualAction now) actions st)
    = simulatedEnvironmentalFactors st.
Proof.
  induction actions as [|x l IH]; intros st Hm; [now split|].
  cbn [fold_left].
  destruct (manualAction_frozen now st x Hm) as [Hm' Hs'].
  destruct (IH _ Hm') as [Hm2 Hs2].
  split; [exact Hm2 | congruence].
Qed.

Lemma toggleManualControl_fields (now : Z) (checked : bool) (st : State) :
  manualEnvironmentControl (toggleManualControl now checked st) = checked /\
  simulatedEnvironmentalFactors (toggleManualControl now checked st)
  = simulatedEnvironmentalFactors st /\
  environmentalFactors (toggleManualControl now checked st)
  = (if checked then environmentalFactors st
     else simulatedEnvironmentalFactors st).
Proof. unfold toggleManualControl. destruct checked; now repeat split. Qed.

(** X19. While the manual environment control is on, the automatic
    simulation stands still: whatever the user edits, and however often
    the environment timer and the simulation tick fire in between, the
    simulated factors stay as they were when the control was switched
    on, and switching it off puts exactly these back on display. *)
Theorem manual_excursion_round_trip (now : Z) (actions : list ManualAction)
        (st : State) :
  let st1 := toggleManualControl now true st in
  let st2 := fold_left (manualAction now) actions st1 in
  let st3 := toggleManualControl now false st2 in
  simulatedEnvironmentalFactors st2 = simulatedEnvironmentalFactors st /\
  manualEnvironmentControl st2 = true /\
  environmentalFactors st3 = simulatedEnvironmentalFactors st /\
  simulatedEnvironmentalFactors st3 = simulatedEnvironmentalFactors st /\
  manualEnvironmentControl st3 = false.
Proof.
  cbv zeta.
  destruct (toggleManualControl_fields now true st) as (Hm1 & Hs1 & _).
  destruct (manualActions_frozen now actions _ Hm1) as [Hm2 Hs2].
  destruct (toggleManualControl_fields now false
              (fold_left (manualAction now) actions
                         (toggleManualControl now true st)))
    as (Hm3 & Hs3 & He3).
  split; [congruence|]. split; [exact Hm2|].
  split; [congruence|]. split; [congruence | exact Hm3].
Qed.

(** ** The summary of the logs that goes to the assistant *)

Section LogSummaries.

Import LogSummary.
Local Open Scope string_scope.
Local Open Scope list_scope.

Lemma pop_snoc (l : list Z) (x : Z) : pop (l ++ [x]) = Some x.
Proof. unfold pop. now rewrite rev_app_distr. Qed.

Lemma indicesWhere_none (f : Entry -> bool) (logs : list Entry) :
  forall i,
    existsb f logs = false ->
    filter (fun k => (0 <=? k)%Z) (indicesWhere f i logs) = [].
Proof.
  induction logs as [|l rest IH]; intros i H; [reflexivity|].
  cbn [existsb] in H. apply orb_false_iff in H. destruct H as [Hl Hrest].
  cbn [indicesWhere filter]. rewrite Hl. cbn. now apply IH.
Qed.

Lemma indicesWhere_last (f : Entry -> bool) (before after : list Entry)
      (n : Entry) :
  forall i,
    (0 <= i)%Z ->
    f n = true ->
    existsb f after = false ->
    exists l,
      filter (fun k => (0 <=? k)%Z)
             (indicesWhere f i (before ++ n :: after))
      = l ++ [(i + Z.of_nat (List.length before))%Z].
Proof.
  induction before as [|b before IH]; intros i Hi Hn Hafter.
  - exists []. cbn [app indicesWhere filter List.length]. rewrite Hn.
    replace (0 <=? i)%Z with true by (symmetry; now apply Z.leb_le).
    rewrite indicesWhere_none by exact Hafter.
    now rewrite Z.add_0_r.
  - destruct (IH (i + 1)%Z ltac:(lia) Hn Hafter) as [l Hl].
    cbn [app indicesWhere filter]. rewrite Hl.
    replace (i + 1 + Z.of_nat (List.length before))%Z
      with (i + Z.of_nat (List.length (b :: before)))%Z
      by (cbn [List.length]; lia).
    destruct (0 <=? (if f b then i else -1))%Z; eexists;
      [rewrite app_comm_cons|]; reflexivity.
Qed.

Lemma normalOperationIndex_none (logs : list Entry) :
  existsb reportsNormal logs = false -> normalOperationIndex logs = None.
Proof.
  intros H. unfold normalOperationIndex.
  now rewrite indicesWhere_none by exact H.
Qed.

Lemma normalOperationIndex_last (before after : list Entry) (n : Entry) :
  reportsNormal n = true ->
  existsb reportsNormal after = false ->
  normalOperationIndex (before ++ n :: after)
  = Some (Z.of_nat (List.length before)).
Proof.
  intros Hn Hafter. unfold normalOperationIndex.
  destruct (indicesWhere_last reportsNormal before after n 0 ltac:(lia)
              Hn Hafter) as [l ->].
  now rewrite pop_snoc.
Qed.

(** X20. What the assistant is told about the logs.  The summary starts
    at the last entry that reports normal operation and always contains
    that entry, so its verdict is SYSTEM NORMAL whatever follows:
    anomalies generated after the report are not counted, though
    critical entries are.  Without such an entry all logs are summarised
    and the verdict is the number of generated anomalies, or no active
    issues. *)
Theorem normal_report_masks_later_anomalies (before after : list Entry)
        (n : Entry) :
  reportsNormal n = true ->
  existsb reportsNormal after = false ->
  summarizeLogs (before ++ n :: after)
  = mkSummary (S (List.length after))
              (List.length (filter isCritical (n :: after)))
              SystemNormal /\
  summarizeLogs after
  = mkSummary (List.length after)
              (List.length (filter isCritical after))
              (if (0 <? List.length (filter countsAsAnomaly after))%nat
               then ActiveAnomalies
                      (List.length (filter countsAsAnomaly after))
               else NoActiveIssues).
Proof.
  intros Hn Hafter. split.
  - unfold summarizeLogs.
    rewrite (normalOperationIndex_last before after n Hn Hafter).
    rewrite Nat2Z.id.
    replace (skipn (List.length before) (before ++ n :: after))
      with (n :: after)
      by (rewrite skipn_app, skipn_all, Nat.sub_diag; reflexivity).
    cbn [existsb]. rewrite Hn. reflexivity.
  - unfold summarizeLogs.
    rewrite (normalOperationIndex_none after Hafter), Hafter. reflexivity.
Qed.

Lemma normal_report_masks_later_anomalies_witness :
  reportsNormal (mkEntry "System operating normally" "alert-info") = true /\
  existsb reportsNormal
    [mkEntry "Anomaly generated: Inverter Overload" "anomaly";
     mkEntry "CRITICAL ESCALATION: Inverter Overload requires immediate attention!"
             "alert-critical"] = false /\
  summarizeLogs maskedLogs = mkSummary 3 1 SystemNormal /\
  summarizeLogs
    [mkEntry "Anomaly generated: Inverter Overload" "anomaly";
     mkEntry "CRITICAL ESCALATION: Inverter Overload requires immediate attention!"
             "alert-critical"]
  = mkSummary 2 1 (ActiveAnomalies 1).
Proof.
  assert (H1 : reportsNormal (mkEntry "System operating normally"
                                      "alert-info") = true)
    by (vm_compute; reflexivity).
  assert (H2 : existsb reportsNormal
                 [mkEntry "Anomaly generated: Inverter Overload" "anomaly";
                  mkEntry "CRITICAL ESCALATION: Inverter Overload requires immediate attention!"
                          "alert-critical"] = false)
    by (vm_compute; reflexivity).
  destruct (normal_report_masks_later_anomalies
              [mkEntry "Anomaly generated: Panel Fault" "anomaly"] _ _ H1 H2)
    as [H3 H4].
  split; [exact H1|]. split; [exact H2|]. split.
  - unfold maskedLogs. cbn [app] in H3. rewrite H3.
    vm_compute. reflexivity.
  - rewrite H4. vm_compute. reflexivity.
Defined.

End LogSummaries.

(** ** The settings dialog *)

(** X21. [saveSettings] applies all of its input or none of it.  When
    it shows its dialog the settings and the state are untouched; when
    it does not, the three values are stored as given, one alert and one
    log entry are written, the URL is not empty and an interval that is
    a number lies within its bounds (30 to 3600 and 60 to 7200 seconds).
    An interval field that [parseInt] cannot read passes both checks:
    [NaN] is stored as the interval. *)
Theorem settings_saved_whole_or_not_at_all (now : Z) (url : string)
        (aiInterval downloadInterval : ParsedInt) (settings : Settings)
        (st : State) :
  let '(settings', st', dialog) :=
    saveSettings now url aiInterval downloadInterval settings st in
  (dialog <> None -> settings' = settings /\ st' = st) /\
  (dialog = None ->
   settings' = mkSettings url aiInterval downloadInterval /\
   logs st'
   = logs st ++ [mkLog now (Text "Settings saved successfully") (LogAlert info);
                 mkLog now (Text "Settings updated") LogSystem] /\
   core st' = core st /\
   url <> ""%string /\
   (aiInterval = NaN \/ intervalWithin 30 3600 aiInterval) /\
   (downloadInterval = NaN \/ intervalWithin 60 7200 downloadInterval)) /\
  (url <> ""%string -> aiInterval = NaN -> downloadInterval = NaN ->
   dialog = None).
Proof.
  assert (Hsaved :
    logs (log now (Text "Settings updated") LogSystem
              (addAlert now (Text "Settings saved successfully") info st))
    = logs st ++ [mkLog now (Text "Settings saved successfully")
                        (LogAlert info);
                  mkLog now (Text "Settings updated") LogSystem] /\
    core (log now (Text "Settings updated") LogSystem
              (addAlert now (Text "Settings saved successfully") info st))
    = core st).
  { split; [|reflexivity].
    now rewrite logs_log, logs_addAlert, <- app_assoc. }
  destruct Hsaved as [Hlogs Hcore].
  unfold saveSettings.
  destruct (String.eqb_spec url "") as [Hu|Hu].
  { split; [now split|]. split; [discriminate|]. intros H. contradiction. }
  destruct aiInterval as [|ai], downloadInterval as [|dl];
    cbn [parsedLt parsedGt orb];
    repeat match goal with
           | |- context [(?x <? ?y)%Z] => destruct (Z.ltb_spec x y)
           end;
    cbn [orb];
    (split; [intros H'; first [now split | now contradiction H']|]);
    (split; [|first [reflexivity | discriminate]]);
    first [discriminate | intros _];
    (split; [reflexivity|]); (split; [exact Hlogs|]);
    (split; [exact Hcore|]); (split; [exact Hu|]);
    split; first [now left | right; cbn [intervalWithin]; lia].
Qed.

(** ** Properties of a unit that every handler keeps *)

Section UnitInvariant.

Variable P : Equipment.t -> Prop.

Hypothesis P_fresh : forall id r, P (freshEquipment id r).
Hypothesis P_reset : forall r e, P (resetTo r e).
Hypothesis P_release : forall r e, P (releaseTo r e).
Hypothesis P_degrade : forall r e, P e -> P (degradeBy r e).
Hypothesis P_storm : forall id e, P e -> P (stormDustClaim id e).
Hypothesis P_manualPanel : forall ty id e, P e -> P (manualPanelClaim ty id e).
Hypothesis P_manualInverter : forall id e, P e -> P (manualInverterClaim id e).
Hypothesis P_claim : forall ty id e, P e -> P (equipmentClaim ty id e).

Lemma all_same (st st' : State) :
  equipmentHealth st' = equipmentHealth st -> allUnits P st -> allUnits P st'.
Proof. unfold allUnits. now intros ->. Qed.

Lemma all_updateEquipment (id : EquipId) (f : Equipment.t -> Equipment.t)
      (st : State) :
  (forall e, P e -> P (f e)) ->
  allUnits P st -> allUnits P (updateEquipment id f st).
Proof.
  intros Hf H. unfold allUnits. rewrite equipmentHealth_updateEquipment.
  now apply (Forall_eqUpdate P).
Qed.

Lemma all_selectPanels (rounds : nat) (panelIds : list EquipId)
      (claim : Equipment.t -> Equipment.t) :
  (forall e, P e -> P (claim e)) ->
  forall affected st,
    allUnits P st ->
    allUnits P (snd (selectPanels rounds panelIds claim affected st)).
Proof.
  intros Hclaim. induction rounds as [|n IH]; intros affected st H;
    [exact H|].
  cbn [selectPanels]. rewrite randomBelow_eq.
  destruct (nth_error panelIds _) as [equipmentId|]; [|now apply IH].
  destruct (eqLookup equipmentId _); [|now apply IH].
  destruct (negb (includes affected equipmentId)); apply IH;
    [now apply all_updateEquipment | exact H].
Qed.

Lemma all_releaseUnit (st : State) (id : EquipId) :
  allUnits P st -> allUnits P (releaseUnit st id).
Proof.
  intros H. unfold releaseUnit.
  destruct (eqLookup id _); [|exact H]. rewrite random_eq.
  apply all_updateEquipment; [|exact H].
  intros e _. apply P_release.
Qed.

Lemma all_restoreEquipment (a : Anomaly.t) (st : State) :
  allUnits P st -> allUnits P (restoreEquipment a st).
Proof.
  intros H. unfold restoreEquipment.
  destruct (Anomaly.affectedEquipment a) as [ids|]; [|exact H].
  apply (fold_left_invariant (allUnits P)); [|exact H].
  intros s x. apply all_releaseUnit.
Qed.

Lemma all_cascade (now : Z) (st : State) :
  allUnits P st -> allUnits P (generateDustAccumulationAfterStorm now st).
Proof.
  intros H. unfold generateDustAccumulationAfterStorm.
  rewrite randomBelow_eq. cbn [Anomaly.id].
  match goal with
  | |- context [selectPanels ?r ?p ?c ?a ?s] =>
      pose proof (all_selectPanels r p c (P_storm now) a s H) as Hsel;
      destruct (selectPanels r p c a s) as [affected st2]
  end.
  unfold allUnits. autorewrite with frame. exact Hsel.
Qed.

Lemma all_clearEffects (now : Z) (a : Anomaly.t) (st : State) :
  allUnits P st -> allUnits P (clearEffects now a st).
Proof.
  intros H. unfold clearEffects.
  destruct (Anomaly.type a); try now apply all_restoreEquipment.
  - apply all_cascade. unfold allUnits. now autorewrite with frame.
  - unfold allUnits. now autorewrite with frame.
Qed.

Lemma all_checkAnomaly (now : Z) (st : State) (i : nat) :
  allUnits P st -> allUnits P (checkAnomaly now st i).
Proof.
  intros H. unfold checkAnomaly.
  destruct (nth_error (anomalies st) i) as [a|]; [|exact H].
  destruct (Anomaly.active a); [|exact H].
  destruct (Qle_bool 200 _).
  - apply all_clearEffects;
      destruct (isEnvironmental (Anomaly.type a));
      unfold allUnits; now autorewrite with frame.
  - destruct (Qle_bool 60 _ && _); [|exact H].
    destruct (_ <? _)%Z; [|exact H].
    unfold allUnits. now autorewrite with frame.
Qed.

Lemma all_correctAnomaly (now anomalyId : Z) (st : State) :
  allUnits P st -> allUnits P (correctAnomaly now anomalyId st).
Proof.
  intros H. unfold correctAnomaly.
  destruct (findById _ _ _) as [[i a]|]; [|exact H].
  destruct (Anomaly.active a); [|exact H].
  apply (all_same (clearEffects now a
           (log now (ManuallyCorrected (Anomaly.name a)) LogResolution
              (addAlert now (AnomalyCorrected (Anomaly.name a)) info
                 (updateAnomaly i (markResolved now ByUser) st)))));
    [apply equipmentHealth_updateSimulation|].
  apply all_clearEffects. exact H.
Qed.

Lemma all_generateAnomaly (now : Z) (selected : option AnomalyType)
      (st : State) :
  allUnits P st -> allUnits P (generateAnomaly now selected st).
Proof.
  intros H. unfold generateAnomaly. destruct selected as [ty|]; [|exact H].
  rewrite !randomBelow_eq.
  destruct ty; cbn [anomalyTypes Anomaly.id firstNumber];
    rewrite ?randomBelow_eq.
  - match goal with
    | |- context [selectPanels ?r ?p ?c ?a ?s] =>
        pose proof (all_selectPanels r p c (P_manualPanel PanelFault now)
                      a s H) as Hsel;
        destruct (selectPanels r p c a s) as [affected st2]
    end.
    unfold allUnits. autorewrite with frame. exact Hsel.
  - match goal with
    | |- context [selectPanels ?r ?p ?c ?a ?s] =>
        pose proof (all_selectPanels r p c
                      (P_manualPanel DustAccumulation now) a s H) as Hsel;
        destruct (selectPanels r p c a s) as [affected st2]
    end.
    unfold allUnits. autorewrite with frame. exact Hsel.
  - unfold allUnits. now autorewrite with frame.
  - unfold allUnits.
    match goal with
    | |- context [eqLookup ?i ?m] => destruct (eqLookup i m)
    end; autorewrite with frame; [|exact H].
    apply (Forall_eqUpdate P); [|exact H].
    apply P_manualInverter.
  - unfold allUnits. now autorewrite with frame.
Qed.

Lemma all_triggered (now : Z) (ty : AnomalyType) (equipmentId : EquipId)
      (st : State) :
  allUnits P st ->
  allUnits P (generateAnomalyForEquipment now ty equipmentId st).
Proof.
  intros H. unfold generateAnomalyForEquipment. rewrite !randomBelow_eq.
  destruct (equipmentAnomalyTypes _ _ _ ty) as [[[[name loc] imp] sev]|];
    [|exact H].
  unfold allUnits. autorewrite with frame.
  apply (Forall_eqUpdate P); [|exact H].
  apply P_claim.
Qed.

Lemma all_monitorUnit (now : Z) (st : State) (equipmentId : EquipId) :
  allUnits P st -> allUnits P (monitorUnit now st equipmentId).
Proof.
  intros H. unfold monitorUnit.
  destruct (eqLookup equipmentId (equipmentHealth st)) as [e|]; [|exact H].
  destruct (status_eqb _ _ && _); [|exact H].
  destruct (existsb _ _); [exact H|].
  rewrite random_eq.
  destruct (prefix equipmentId); unfold allUnits; autorewrite with frame;
    now apply all_triggered.
Qed.

Lemma all_degradeUnit (st : State) (equipmentId : EquipId) :
  allUnits P st -> allUnits P (degradeUnit st equipmentId).
Proof.
  intros H. unfold degradeUnit. rewrite random_eq.
  apply all_updateEquipment; [|exact H]. apply P_degrade.
Qed.

Lemma all_resetUnit (st : State) (equipmentId : EquipId) :
  allUnits P st -> allUnits P (resetUnit st equipmentId).
Proof.
  intros H. unfold resetUnit. rewrite random_eq.
  apply all_updateEquipment; [|exact H]. intros e _. apply P_reset.
Qed.

Lemma all_initializeSystemState (now : Z) (preserveLogs : bool)
      (st : State) :
  allUnits P st -> allUnits P (initializeSystemState now preserveLogs st).
Proof.
  intros H. unfold initializeSystemState, allUnits.
  rewrite equipmentHealth_log.
  assert (Hfold : forall l s, allUnits P s ->
                  allUnits P (fold_left resetUnit l s)).
  { intros l. apply fold_left_invariant. intros s x. apply all_resetUnit. }
  destruct preserveLogs;
    match goal with
    | |- context [fold_left resetUnit ?l ?s] =>
        destruct (manualEnvironmentControl (fold_left resetUnit l s));
          cbn [equipmentHealth setLogs setAnomalyOverrides
               setEnvironmentalFactors];
          apply (Hfold l s)
    end; exact H.
Qed.

Lemma all_initializeUnits (p : EquipPrefix) (todo : nat) :
  forall i st, allUnits P st -> allUnits P (initializeUnits p i todo st).
Proof.
  induction todo as [|n IH]; intros i st H; [exact H|].
  cbn [initializeUnits]. rewrite random_eq. apply IH.
  unfold allUnits. cbn [equipmentHealth setEquipmentHealth setDrawn].
  apply (Forall_eqAssign P); [|exact H]. apply P_fresh.
Qed.

Lemma all_init (now : Z) (rs : nat -> Q) : allUnits P (init now rs).
Proof.
  unfold init, initializeEquipment, equipmentTypes.
  apply (all_same (fold_left
                     (fun s ty => initializeUnits (fst ty) 1 (snd ty) s)
                     [(Panel, 20%nat); (Inverter, 5%nat); (Battery, 3%nat);
                      (Transformer, 2%nat)] (blankState now rs)));
    [apply equipmentHealth_log|].
  cbn [fold_left fst snd].
  repeat apply all_initializeUnits. constructor.
Qed.

Lemma all_core (st st' : State) :
  core st' = core st -> allUnits P st -> allUnits P st'.
Proof. intros H. apply all_same. exact (core_equipmentHealth _ _ H). Qed.

Lemma all_step (st st' : State) :
  step st st' -> allUnits P st -> allUnits P st'.
Proof.
  intros Hstep H. destruct Hstep.
  - eapply all_core; [apply core_tick | exact H].
  - eapply all_core; [apply core_updateEnvironmentalFactors | exact H].
  - unfold checkAnomalies, sweepAnomalies.
    eapply all_same; [apply equipmentHealth_updateSimulation|].
    apply (fold_left_invariant (allUnits P)); [|exact H].
    intros s i. apply all_checkAnomaly.
  - eapply all_core; [apply core_generateRandomEvent | exact H].
  - unfold monitorEquipmentHealth.
    apply (fold_left_invariant (allUnits P)); [|exact H].
    intros s x. apply all_monitorUnit.
  - unfold degradeEquipmentHealth.
    apply (fold_left_invariant (allUnits P)); [|exact H].
    intros s x. apply all_degradeUnit.
  - now apply all_generateAnomaly.
  - now apply all_correctAnomaly.
  - unfold handleTimeChange.
    eapply all_same; [apply equipmentHealth_updateSimulation|].
    eapply all_same; [apply equipmentHealth_addAlert|].
    apply all_initializeSystemState. exact H.
  - unfold resetTime.
    eapply all_same; [apply equipmentHealth_updateSimulation|].
    eapply all_same; [apply equipmentHealth_addAlert|].
    apply all_initializeSystemState. exact H.
  - eapply all_core; [apply core_advanceTime | exact H].
  - eapply all_core; [apply core_toggleManualControl | exact H].
  - eapply all_core; [apply core_resetEnvironment | exact H].
  - eapply all_core; [apply core_updateFactor | exact H].
  - exact H.
  - exact H.
Qed.

Lemma all_reachable (rs : nat -> Q) (st : State) :
  reachable rs st -> allUnits P st.
Proof.
  induction 1 as [now|st st' _ IH Hstep];
    [apply all_init | eapply all_step; eassumption].
Qed.

End UnitInvariant.

(** X22. In every state the page can reach, a unit that is shown healthy
    is attached to no anomaly and has no issues listed, and a unit that
    is not healthy carries the id of an anomaly: the status and the
    anomaly mark of a unit always change together. *)
Theorem healthy_units_are_unclaimed (rs : nat -> Q) (st : State)
        (id : EquipId) (e : Equipment.t) :
  reachable rs st ->
  In (id, e) (equipmentHealth st) ->
  (Equipment.status e = healthy ->
   Equipment.anomaly e = None /\ Equipment.issues e = []) /\
  (Equipment.status e <> healthy -> Equipment.anomaly e <> None) /\
  (Equipment.anomaly e = None -> Equipment.status e = healthy).
Proof.
  intros Hr Hin.
  assert (Hall : allUnits consistentUnit st).
  { apply (all_reachable consistentUnit) with (rs := rs); try exact Hr.
    - intros i r. left. now repeat split.
    - intros r x. left. now repeat split.
    - intros r x. left. now repeat split.
    - intros r x Hx. exact Hx.
    - intros i x _. right. split; cbn; discriminate.
    - intros ty i x _. right. destruct ty; split; cbn; discriminate.
    - intros i x _. right. split; cbn; discriminate.
    - intros ty i x Hx.
      destruct ty; try exact Hx; right; split; cbn; discriminate. }
  unfold allUnits in Hall. rewrite Forall_forall in Hall.
  destruct (Hall (id, e) Hin) as [(Hs & Ha & Hi)|(Hs & Ha)]; cbn [snd] in *.
  - split; [intros _; split; assumption|].
    split; [intros H; contradiction | intros _; exact Hs].
  - split; [intros H; contradiction|].
    split; [intros _; exact Ha | intros H; contradiction].
Qed.

Lemma healthy_units_are_unclaimed_witness :
  reachable (drawsFrom doubleClaimDraws) escalatedRun /\
  In (mkEquipId Panel 1, panelOneOfRun) (equipmentHealth escalatedRun) /\
  (Equipment.status panelOneOfRun = healthy ->
   Equipment.anomaly panelOneOfRun = None /\
   Equipment.issues panelOneOfRun = []).
Proof.
  assert (Hr : reachable (drawsFrom doubleClaimDraws) escalatedRun).
  { unfold escalatedRun, doubleClaimRun.
    eapply ReachStep; [|apply StepCheckAnomalies].
    eapply ReachStep; [|apply StepGenerateAnomaly].
    eapply ReachStep; [|apply StepGenerateAnomaly].
    apply ReachInit. }
  assert (Hin : In (mkEquipId Panel 1, panelOneOfRun)
                   (equipmentHealth escalatedRun)).
  { remember (equipmentHealth escalatedRun) as m eqn:Em.
    vm_compute in Em. subst m. left. reflexivity. }
  split; [exact Hr|]. split; [exact Hin|].
  exact (proj1 (healthy_units_are_unclaimed _ _ _ _ Hr Hin)).
Defined.

(** ** Which units a pass of degradation touches *)

Lemma eqLookup_entry (id : EquipId) (e : Equipment.t) (m : EquipMap) :
  NoDup (map fst m) -> In (id, e) m -> eqLookup id m = Some e.
Proof.
  induction m as [|[k e0] m IH]; intros Hnd Hin; [destruct Hin|].
  cbn [map fst] in Hnd. inversion Hnd as [|? ? Hk Hm]; subst.
  cbn [eqLookup]. destruct Hin as [E|Hin].
  - injection E as -> ->. now destruct (equipId_eqb_spec id id).
  - destruct (equipId_eqb_spec k id) as [->|Hne]; [|now apply IH].
    exfalso. apply Hk. apply in_map_iff. now exists (id, e).
Qed.

Lemma degradeUnits_touched (l : list EquipId) :
  forall st id e,
    NoDup l ->
    eqLookup id (equipmentHealth st) = Some e ->
    exists e',
      eqLookup id (equipmentHealth (fold_left degradeUnit l st)) = Some e' /\
      ((~ In id l /\ e' = e) \/
       (In id l /\ exists n, e' = degradeBy (randoms st n) e)).
Proof.
  induction l as [|x l IH]; intros st id e Hnd He.
  - exists e. split; [exact He|]. left. split; [intros [] | reflexivity].
  - inversion Hnd as [|? ? Hx Hl]; subst. cbn [fold_left].
    pose proof (degradeUnit_lookup st x id e He) as H1.
    assert (Hrs : randoms (degradeUnit st x) = randoms st)
      by (apply frame_degradeUnit; intros; reflexivity).
    destruct (IH _ id _ Hl H1) as (e' & He' & Hcase).
    exists e'. split; [exact He'|].
    destruct (equipId_eqb_spec x id) as [->|Hne].
    + right. split; [now left|].
      destruct Hcase as [[_ ->]|[Hin _]]; [|contradiction].
      eexists. reflexivity.
    + destruct Hcase as [[Hnin ->]|[Hin [n ->]]].
      * left. split; [|reflexivity]. intros [E|Hin]; contradiction.
      * right. split; [now right|]. exists n. now rewrite Hrs.
Qed.

Lemma degradeBy_above (r : Q) (e : Equipment.t) :
  (0 <= r)%Q /\ (r < 1)%Q ->
  (80 < Equipment.health e)%Q ->
  degradeBy r e = withHealth (Equipment.health (degradeBy r e)) e /\
  (Equipment.health e - (5 # 10) <= Equipment.health (degradeBy r e))%Q /\
  (Equipment.health (degradeBy r e) <= Equipment.health e - (1 # 10))%Q /\
  ((159 # 2) < Equipment.health (degradeBy r e))%Q.
Proof.
  intros [H0 H1] Hh. split; [reflexivity|].
  unfold degradeBy. cbn [Equipment.health withHealth].
  assert (E : (Qmax 75 (Equipment.health e - ((1 # 10) + r * (4 # 10)))
               == Equipment.health e - ((1 # 10) + r * (4 # 10)))%Q).
  { apply Q.max_r. Lqa.lra. }
  rewrite E. repeat split; Lqa.lra.
Qed.

(** X23. One pass of natural degradation touches only units that are
    shown healthy, have a health above 80 and are listed by no active
    anomaly.  It takes between 0.1 and 0.5 off the health of such a unit
    and changes nothing else of it, so the unit stays above 79.5: the
    floor of 75 in the code is never reached.  Every other unit, and
    every anomaly, is left as it is. *)
Theorem degradation_touches_healthy_units_only (shuffled : list EquipId)
        (sortDraws : nat) (st : State) (id : EquipId) (e : Equipment.t) :
  validDraws (randoms st) ->
  Permutation shuffled (degradableEquipment st) ->
  NoDup (equipmentKeys st) ->
  eqLookup id (equipmentHealth st) = Some e ->
  let st' := degradeEquipmentHealth shuffled sortDraws st in
  anomalies st' = anomalies st /\
  exists e',
    eqLookup id (equipmentHealth st') = Some e' /\
    (e' = e \/
     (Equipment.status e = healthy /\
      (80 < Equipment.health e)%Q /\
      existsb (activelyClaims id) (anomalies st) = false /\
      e' = withHealth (Equipment.health e') e /\
      (Equipment.health e - (5 # 10) <= Equipment.health e')%Q /\
      (Equipment.health e' <= Equipment.health e - (1 # 10))%Q /\
      ((159 # 2) < Equipment.health e')%Q)).
Proof.
  intros Hr Hperm Hkeys He st'. subst st'. split.
  { unfold degradeEquipmentHealth.
    rewrite (fold_left_frame anomalies degradeUnit)
      by (intros; now apply frame_degradeUnit).
    reflexivity. }
  assert (Hnd : NoDup shuffled).
  { eapply Permutation_NoDup; [apply Permutation_sym; exact Hperm|].
    unfold degradableEquipment. now apply NoDup_keys_filter. }
  unfold degradeEquipmentHealth.
  match goal with
  | |- context [fold_left degradeUnit ?l ?s] =>
      destruct (degradeUnits_touched l s id e) as (e' & He' & Hcase);
        [now apply NoDup_firstn | exact He |]
  end.
  exists e'. split; [exact He'|].
  destruct Hcase as [[_ ->]|[Hin [n ->]]]; [now left|]. right.
  cbn [randoms setDrawn].
  assert (Hdeg : In id (degradableEquipment st)).
  { eapply Permutation_in; [exact Hperm|].
    rewrite <- (firstn_skipn
                  (Z.to_nat
                     (Qceiling
                        (inject_Z
                           (Z.of_nat (List.length (degradableEquipment st)))
                         * (25 # 100)))) shuffled).
    apply in_or_app. left. exact Hin. }
  unfold degradableEquipment in Hdeg. apply in_map_iff in Hdeg.
  destruct Hdeg as ([k e0] & Ek & Hf). cbn [fst] in Ek. subst k.
  apply filter_In in Hf. destruct Hf as [Hentry Hd].
  assert (e0 = e).
  { apply (eqLookup_entry id e0 _ Hkeys) in Hentry. congruence. }
  subst e0. unfold degradable in Hd. cbn [fst snd] in Hd.
  apply andb_prop in Hd. destruct Hd as [Hd Hclaim].
  apply andb_prop in Hd. destruct Hd as [Hstatus Hhealth].
  assert (Hs : Equipment.status e = healthy)
    by (destruct (Equipment.status e); try discriminate; reflexivity).
  assert (Hh : (80 < Equipment.health e)%Q).
  { unfold Qltb in Hhealth. apply negb_true_iff in Hhealth.
    apply Qnot_le_lt. intros Hle. apply Qle_bool_iff in Hle. congruence. }
  apply negb_true_iff in Hclaim.
  destruct (degradeBy_above (randoms st n) e (Hr n) Hh) as (H1 & H2 & H3 & H4).
  repeat split; assumption.
Qed.

Lemma degradation_touches_healthy_units_only_witness :
  validDraws (randoms escalatedRun) /\
  Permutation (degradableEquipment escalatedRun)
              (degradableEquipment escalatedRun) /\
  NoDup (equipmentKeys escalatedRun) /\
  eqLookup (mkEquipId Panel 1) (equipmentHealth escalatedRun)
  = Some panelOneOfRun /\
  anomalies (degradeEquipmentHealth (degradableEquipment escalatedRun) 0
                                    escalatedRun)
  = anomalies escalatedRun.
Proof.
  assert (Hreach : reachable (drawsFrom doubleClaimDraws) escalatedRun).
  { unfold escalatedRun, doubleClaimRun.
    eapply ReachStep; [|apply StepCheckAnomalies].
    eapply ReachStep; [|apply StepGenerateAnomaly].
    eapply ReachStep; [|apply StepGenerateAnomaly].
    apply ReachInit. }
  assert (Hv : validDraws (randoms escalatedRun)).
  { rewrite (randoms_reachable _ _ Hreach). apply drawsFrom_valid.
    reflexivity. }
  assert (Hk : NoDup (equipmentKeys escalatedRun))
    by exact (equipmentKeys_reachable _ _ Hreach).
  assert (He : eqLookup (mkEquipId Panel 1) (equipmentHealth escalatedRun)
               = Some panelOneOfRun) by (vm_compute; reflexivity).
  split; [exact Hv|]. split; [apply Permutation_refl|].
  split; [exact Hk|]. split; [exact He|].
  exact (proj1 (degradation_touches_healthy_units_only
                  (degradableEquipment escalatedRun) 0 escalatedRun
                  (mkEquipId Panel 1) panelOneOfRun Hv (Permutation_refl _)
                  Hk He)).
Defined.
